(** * exort: the form validation engine (src/validation.ts)

  A shallow embedding of the validation service, the field rule sets and
  the form validator, with the properties of the predicates and of a
  validation pass; then of the request input, the uploaded files and the
  errors of core/http.ts, and of core/environment.ts.

  Conventions.
  - A JavaScript string is a [string]: a sequence of code units below 256.
  - A plain object used as a map is a [JsObject.t]: its own properties in
    creation order, enumerated the way for-in does.  Where the code reads a
    property under a name it is given (the fields of a validator, the
    fields of an error, the file input, process.env) the members inherited
    from Object.prototype are read as well, see [JsObject.read].  The input
    snapshot is read at the names of fields, under which it has an own
    property or none: no field a validator creates has an inherited name.
  - The libraries answer as they do at one reading of the clock, see
    [Library]: a call is given the library of the time it is made at.
  - A call that can throw returns a [Completion], or a sum with the error
    on the left. *)

From Stdlib Require Import String Ascii List ZArith Bool Lia DecimalString.
From Stdlib Require Import Permutation Sorted.
Import ListNotations.

Local Open Scope list_scope.
Local Open Scope string_scope.

(** ** JavaScript strings *)

Module Js.

(** The double quote and the backslash, as characters and as strings. *)
Definition dquoteChar : ascii := "034"%char.
Definition backslashChar : ascii := "092"%char.
Definition dq : string := String dquoteChar EmptyString.
Definition bs : string := String backslashChar EmptyString.

Definition code (c : ascii) : nat := nat_of_ascii c.

Definition inRange (lo hi c : ascii) : bool :=
  (code lo <=? code c)%nat && (code c <=? code hi)%nat.

(** WhiteSpace and LineTerminator code units below 256: the characters the
    class escape \s stands for. *)
Definition isWhiteSpace (c : ascii) : bool :=
  existsb (Nat.eqb (code c)) [9; 10; 11; 12; 13; 32; 160]%nat.

(** LineTerminator code units below 256: what the dot does not match. *)
Definition isLineTerminator (c : ascii) : bool :=
  existsb (Nat.eqb (code c)) [10; 13]%nat.

(** String.prototype.toLowerCase on code units below 256: A-Z and the
    Latin-1 capitals 192-222 (but the multiplication sign 215) move up by
    32. *)
Definition lowerChar (c : ascii) : ascii :=
  let n := code c in
  if ((65 <=? n) && (n <=? 90))%nat then ascii_of_nat (n + 32)
  else if ((192 <=? n) && (n <=? 222) && negb (n =? 215))%nat
       then ascii_of_nat (n + 32)
       else c.

Fixpoint toLowerCase (s : string) : string :=
  match s with
  | EmptyString => EmptyString
  | String c rest => String (lowerChar c) (toLowerCase rest)
  end.

(** s.replace(/\s/g, '') : every white space character removed. *)
Fixpoint removeWhiteSpace (s : string) : string :=
  match s with
  | EmptyString => EmptyString
  | String c rest =>
      if isWhiteSpace c then removeWhiteSpace rest
      else String c (removeWhiteSpace rest)
  end.

(** The value of one escape sequence of a string or template literal:
    the single escape characters, and every other character standing for
    itself. *)
Definition escapeValue (c : ascii) : ascii :=
  match c with
  | "b"%char => "008"%char
  | "t"%char => "009"%char
  | "n"%char => "010"%char
  | "v"%char => "011"%char
  | "f"%char => "012"%char
  | "r"%char => "013"%char
  | "0"%char => "000"%char
  | _ => c
  end.

(** The cooked value of the text of an untagged template literal without
    substitutions: each backslash is dropped and the character after it is
    read as an escape.  (Hexadecimal and unicode escapes do not occur in
    the source modelled here.) *)
Fixpoint cook (raw : string) : string :=
  match raw with
  | EmptyString => EmptyString
  | String c rest =>
      if Ascii.eqb c backslashChar then
        match rest with
        | EmptyString => EmptyString
        | String e rest' => String (escapeValue e) (cook rest')
        end
      else String c (cook rest)
  end.

(** Array.prototype.join *)
Fixpoint join (sep : string) (parts : list string) : string :=
  match parts with
  | [] => EmptyString
  | [p] => p
  | p :: rest => p ++ sep ++ join sep rest
  end.


(** ** Values *)

(** The values a form input can hold.  Numbers are the integral ones; an
    object other than an array is known by the string its toString yields. *)
Inductive Value : Type :=
| VUndefined
| VNull
| VBool (b : bool)
| VNumber (n : Z)
| VString (s : string)
| VArray (elems : list Value)
| VObject (repr : string).

(** The TypeError of reading a property of undefined, and of calling what
    is not a function. *)
Inductive TypeError : Type :=
| PropertyOfUndefined (property : string)
| NotAFunction (property : string).

Definition numberToString (n : Z) : string :=
  NilZero.string_of_int (Z.to_int n).

(** ToString, as a template literal substitution and RegExp.prototype.test
    apply it.  An array joins its elements with commas, an absent element
    giving the empty string. *)
Fixpoint toString (v : Value) : string :=
  match v with
  | VUndefined => "undefined"
  | VNull => "null"
  | VBool true => "true"
  | VBool false => "false"
  | VNumber n => numberToString n
  | VString s => s
  | VArray elems =>
      (fix joinElems (l : list Value) : string :=
         match l with
         | [] => EmptyString
         | x :: rest =>
             let sx := match x with
                       | VUndefined | VNull => EmptyString
                       | _ => toString x
                       end in
             match rest with
             | [] => sx
             | _ :: _ => sx ++ "," ++ joinElems rest
             end
         end) elems
  | VObject repr => repr
  end.

End Js.

(** ** Regular expressions *)

Module RegExp.
Import Js.

(** One member of a character class. *)
Inductive ClassItem : Type :=
| One (c : ascii)
| EscOne (c : ascii)
| Range (lo hi : ascii)
| SpaceEsc.

(** The syntax of a pattern, constructor by constructor what the pattern
    text shows: a pattern character, an identity escape (backslash and a
    character), the dot, a class, a parenthesised group, a sequence, an
    alternative, and the quantifiers star, plus and braces. *)
Inductive Syntax : Type :=
| Empty
| Chr (c : ascii)
| Esc (c : ascii)
| Dot
| Class (negated : bool) (items : list ClassItem)
| Group (r : Syntax)
| Seq (r1 r2 : Syntax)
| Alt (r1 r2 : Syntax)
| Star (r : Syntax)
| Plus (r : Syntax)
| Repeat (lo : nat) (hi : option nat) (r : Syntax).

(** A pattern between the assertions ^ and $. *)
Inductive Pattern : Type :=
| Anchored (r : Syntax).

Fixpoint seqs (rs : list Syntax) : Syntax :=
  match rs with
  | [] => Empty
  | [r] => r
  | r :: rest => Seq r (seqs rest)
  end.

(** *** The text of a pattern *)

Definition char1 (c : ascii) : string := String c EmptyString.

Definition printNat (n : nat) : string :=
  NilZero.string_of_uint (Nat.to_uint n).

Definition printItem (i : ClassItem) : string :=
  match i with
  | One c => char1 c
  | EscOne c => bs ++ char1 c
  | Range lo hi => char1 lo ++ "-" ++ char1 hi
  | SpaceEsc => bs ++ "s"
  end.

Fixpoint print (r : Syntax) : string :=
  match r with
  | Empty => EmptyString
  | Chr c => char1 c
  | Esc c => bs ++ char1 c
  | Dot => "."
  | Class negated items =>
      "[" ++ (if negated then "^" else EmptyString)
          ++ String.concat EmptyString (map printItem items) ++ "]"
  | Group r => "(" ++ print r ++ ")"
  | Seq r1 r2 => print r1 ++ print r2
  | Alt r1 r2 => print r1 ++ "|" ++ print r2
  | Star r => print r ++ "*"
  | Plus r => print r ++ "+"
  | Repeat lo hi r =>
      print r ++ "{" ++ printNat lo ++ ","
              ++ match hi with Some h => printNat h | None => EmptyString end
              ++ "}"
  end.

Definition printPattern (p : Pattern) : string :=
  match p with
  | Anchored r => "^" ++ print r ++ "$"
  end.

(** *** The language of a pattern *)

(** Regular expressions over sets of characters. *)
Inductive Re : Type :=
| Void
| Eps
| Sym (p : ascii -> bool)
| Cat (a b : Re)
| Or (a b : Re)
| Iter (a : Re).

Definition itemMatches (c : ascii) (i : ClassItem) : bool :=
  match i with
  | One d => Ascii.eqb c d
  | EscOne d => Ascii.eqb c d
  | Range lo hi => inRange lo hi c
  | SpaceEsc => isWhiteSpace c
  end.

Definition classMatches (negated : bool) (items : list ClassItem)
    (c : ascii) : bool :=
  xorb negated (existsb (itemMatches c) items).

Fixpoint power (a : Re) (n : nat) : Re :=
  match n with
  | O => Eps
  | S m => Cat a (power a m)
  end.

(** The dot matches everything but a line terminator; a negated class
    matches every character that is not a member.  A brace quantifier is
    [lo] copies followed by up to [hi - lo] optional ones, or by a star. *)
Fixpoint compile (r : Syntax) : Re :=
  match r with
  | Empty => Eps
  | Chr c => Sym (Ascii.eqb c)
  | Esc c => Sym (Ascii.eqb c)
  | Dot => Sym (fun c => negb (isLineTerminator c))
  | Class negated items => Sym (classMatches negated items)
  | Group r => compile r
  | Seq r1 r2 => Cat (compile r1) (compile r2)
  | Alt r1 r2 => Or (compile r1) (compile r2)
  | Star r => Iter (compile r)
  | Plus r => Cat (compile r) (Iter (compile r))
  | Repeat lo None r => Cat (power (compile r) lo) (Iter (compile r))
  | Repeat lo (Some hi) r =>
      Cat (power (compile r) lo) (power (Or Eps (compile r)) (hi - lo))
  end.

(** What it is for a string to be in the language of an expression. *)
Inductive Matches : Re -> string -> Prop :=
| MEps : Matches Eps EmptyString
| MSym p c : p c = true -> Matches (Sym p) (String c EmptyString)
| MCat a b s t : Matches a s -> Matches b t -> Matches (Cat a b) (s ++ t)
| MOrL a b s : Matches a s -> Matches (Or a b) s
| MOrR a b s : Matches b s -> Matches (Or a b) s
| MIterNil a : Matches (Iter a) EmptyString
| MIterStep a s t :
    Matches a s -> Matches (Iter a) t -> Matches (Iter a) (s ++ t).

(** *** Matching by derivatives *)

Fixpoint nullable (r : Re) : bool :=
  match r with
  | Void => false
  | Eps => true
  | Sym _ => false
  | Cat a b => nullable a && nullable b
  | Or a b => nullable a || nullable b
  | Iter _ => true
  end.

Definition cat (a b : Re) : Re :=
  match a, b with
  | Void, _ => Void
  | _, Void => Void
  | Eps, _ => b
  | _, Eps => a
  | _, _ => Cat a b
  end.

Definition or (a b : Re) : Re :=
  match a, b with
  | Void, _ => b
  | _, Void => a
  | _, _ => Or a b
  end.

Fixpoint deriv (c : ascii) (r : Re) : Re :=
  match r with
  | Void => Void
  | Eps => Void
  | Sym p => if p c then Eps else Void
  | Cat a b =>
      or (cat (deriv c a) b) (if nullable a then deriv c b else Void)
  | Or a b => or (deriv c a) (deriv c b)
  | Iter a => cat (deriv c a) (Iter a)
  end.

Fixpoint accepts (r : Re) (s : string) : bool :=
  match s with
  | EmptyString => nullable r
  | String c rest => accepts (deriv c r) rest
  end.

(** RegExp.prototype.test for a pattern between ^ and $ (no flags): the
    whole string is in the language of the pattern. *)
Definition test (p : Pattern) (s : string) : bool :=
  match p with
  | Anchored r => accepts (compile r) s
  end.

End RegExp.

(** ** Plain objects used as maps *)

Module JsObject.
Import Js.

(** The own properties of an object, in the order they were created. *)
Definition t (V : Type) : Type := list (string * V).

Definition empty {V : Type} : t V := [].

(** o[k] *)
Fixpoint get {V : Type} (o : t V) (k : string) : option V :=
  match o with
  | [] => None
  | (k', v) :: rest => if String.eqb k' k then Some v else get rest k
  end.

(** o[k] = v : an existing property keeps its place, a new one is created
    last. *)
Fixpoint set {V : Type} (o : t V) (k : string) (v : V) : t V :=
  match o with
  | [] => [(k, v)]
  | (k', v') :: rest =>
      if String.eqb k' k then (k', v) :: rest else (k', v') :: set rest k v
  end.

(** What every plain object inherits from Object.prototype: functions,
    each with the number of parameters its length property gives, and
    __proto__, which gives the prototype itself. *)
Inductive Member : Type :=
| Function (property : string) (length : nat)
| ObjectPrototype.

Definition prototypeMembers : list (string * Member) :=
  [("constructor", Function "constructor" 1);
   ("__defineGetter__", Function "__defineGetter__" 2);
   ("__defineSetter__", Function "__defineSetter__" 2);
   ("hasOwnProperty", Function "hasOwnProperty" 1);
   ("__lookupGetter__", Function "__lookupGetter__" 1);
   ("__lookupSetter__", Function "__lookupSetter__" 1);
   ("isPrototypeOf", Function "isPrototypeOf" 1);
   ("propertyIsEnumerable", Function "propertyIsEnumerable" 1);
   ("toString", Function "toString" 0);
   ("valueOf", Function "valueOf" 0);
   ("__proto__", ObjectPrototype);
   ("toLocaleString", Function "toLocaleString" 0)].

Definition inherited (k : string) : option Member := get prototypeMembers k.

Definition isInherited (k : string) : bool :=
  match inherited k with Some _ => true | None => false end.

(** What reading o[k] gives: the own property, else the inherited member,
    else undefined. *)
Inductive Read (V : Type) : Type :=
| Own (v : V)
| Inherited (m : Member)
| Missing.

Arguments Own {V} v.
Arguments Inherited {V} m.
Arguments Missing {V}.

Definition read {V : Type} (o : t V) (k : string) : Read V :=
  match get o k with
  | Some v => Own v
  | None =>
      match inherited k with
      | Some m => Inherited m
      | None => Missing
      end
  end.

Definition isDigit (c : ascii) : bool := inRange "0"%char "9"%char c.

Fixpoint digitsValue (acc : N) (s : string) : option N :=
  match s with
  | EmptyString => Some acc
  | String c rest =>
      if isDigit c
      then digitsValue (10 * acc + N.of_nat (code c - 48)) rest
      else None
  end.

(** A property name is an array index when it is the canonical decimal
    numeral of an integer from 0 to 2^32 - 2. *)
Definition arrayIndex (k : string) : option N :=
  match k with
  | EmptyString => None
  | String c rest =>
      if Ascii.eqb c "0"%char && negb (String.eqb rest EmptyString)
      then None
      else match digitsValue 0 k with
           | Some n => if (n <? 4294967295)%N then Some n else None
           | None => None
           end
  end.

Definition isArrayIndex (k : string) : bool :=
  match arrayIndex k with Some _ => true | None => false end.

Fixpoint insertIndexed {A : Type} (n : N) (a : A) (l : list (N * A))
    : list (N * A) :=
  match l with
  | [] => [(n, a)]
  | (m, b) :: rest =>
      if (n <=? m)%N then (n, a) :: l else (m, b) :: insertIndexed n a rest
  end.

(** The array-index properties, by ascending index. *)
Fixpoint indexed {V : Type} (o : t V) : list (N * (string * V)) :=
  match o with
  | [] => []
  | (k, v) :: rest =>
      match arrayIndex k with
      | Some n => insertIndexed n (k, v) (indexed rest)
      | None => indexed rest
      end
  end.

(** The other properties, in creation order. *)
Definition named {V : Type} (o : t V) : t V :=
  filter (fun e => negb (isArrayIndex (fst e))) o.

(** The properties in the order for-in (and Object.keys) visits them:
    array indices ascending, then the other names in creation order. *)
Definition entries {V : Type} (o : t V) : list (string * V) :=
  map snd (indexed o) ++ named o.

Definition keys {V : Type} (o : t V) : list string := map fst (entries o).

(** No property name occurs twice. *)
Definition WF {V : Type} (o : t V) : Prop := NoDup (map fst o).

End JsObject.

(** ** The moment library, as far as the module uses it *)

Module Moment.
Import Js.

(** A moment: its instant in milliseconds, or nothing when it is invalid. *)
Definition t : Type := option Z.

(** moment.MomentInput: a moment, or a value for the library to parse. *)
Inductive Input : Type :=
| OfMoment (m : t)
| OfValue (v : Value).

Definition isMoment (i : Input) : bool :=
  match i with OfMoment _ => true | OfValue _ => false end.

(** moment(i), given how the library parses a value. *)
Definition create (parse : Value -> t) (i : Input) : t :=
  match i with
  | OfMoment m => m
  | OfValue v => parse v
  end.

Definition isValid (m : t) : bool :=
  match m with Some _ => true | None => false end.

(** The comparisons, at the default granularity of a millisecond; with an
    invalid moment on either side they are false. *)
Definition compareWith (rel : Z -> Z -> bool) (parse : Value -> t)
    (this : t) (i : Input) : bool :=
  match this, create parse i with
  | Some a, Some b => rel a b
  | _, _ => false
  end.

Definition isAfter := compareWith Z.gtb.
Definition isBefore := compareWith Z.ltb.
Definition isSame := compareWith Z.eqb.

Definition isSameOrAfter (parse : Value -> t) (this : t) (i : Input) : bool :=
  isSame parse this i || isAfter parse this i.

Definition isSameOrBefore (parse : Value -> t) (this : t) (i : Input) : bool :=
  isSame parse this i || isBefore parse this i.

End Moment.

(** KeyValuePair<string | number>, the attributes of a message. *)
Definition Attrs : Type := JsObject.t string.

(** What the module imports and this repository does not define: lodash
    (through ./misc) and moment, as they answer at one reading of the
    clock.  moment(value) depends on the value and on the clock: of
    undefined it is the current time.  A call is given the library of the
    time it is made at, two calls at different times two libraries; the
    clock is taken to read the same throughout one call. *)
Record Library : Type := {
  (** _.lowerCase *)
  lowerCase : string -> string;
  (** _.template(message)(attrs) *)
  template : string -> Attrs -> string;
  (** moment(value) *)
  parseDate : Js.Value -> Moment.t;
  (** moment.toString() *)
  formatDate : Moment.t -> string
}.

(** ** The validation service: messages and predicates *)

Module Validation.
Import Js RegExp.

(** RULE_MESSAGES, the entries the rule methods use. *)
Module RULE_MESSAGES.
Definition accepted := "The ${label} must be accepted.".
Definition after := "The ${label} must be a date after ${date}.".
Definition afterOrEqual :=
  "The ${label} must be a date after or equal to ${date}.".
Definition alpha := "The ${label} may only contain letters.".
Definition alphaDash :=
  "The ${label} may only contain letters, numbers, and dashes.".
Definition alphaNum := "The ${label} may only contain letters and numbers.".
Definition array := "The ${label} must be an array.".
Definition before := "The ${label} must be a date before ${date}.".
Definition beforeOrEqual :=
  "The ${label} must be a date before or equal to ${date}.".
Definition date := "The ${label} is not a valid date.".
Definition email := "The ${label} must be a valid email address.".
Definition required := "The ${label} field is required.".
End RULE_MESSAGES.

(** The text between the backquotes of the two template literals isEmail
    concatenates, character for character. *)
Definition emailText1 : string :=
  "^(([^<>()[\]\\.,;:\s@" ++ bs ++ dq ++ "]+(\.[^<>()[\]\\.,;:\s@" ++ bs ++ dq
    ++ "]+)*)|(" ++ bs ++ dq ++ ".+" ++ bs ++ dq ++ "))".

Definition emailText2 : string :=
  "@((\[[0-9]{1,3}\.[0-9]{1,3}\.[0-9]{1,3}\.[0-9]{1,3}\])|"
    ++ "(([a-zA-Z\-0-9]+\.)+[a-zA-Z]{2,}))$".

(** The string the RegExp constructor receives: the values of the two
    template literals, where every backslash escape has been read as a
    string escape. *)
Definition emailSource : string := cook emailText1 ++ cook emailText2.

Definition lowerAZ : ClassItem := Range "a"%char "z"%char.
Definition upperAZ : ClassItem := Range "A"%char "Z"%char.
Definition digit09 : ClassItem := Range "0"%char "9"%char.

(** The pattern [emailSource] is, read by the RegExp constructor.  A class
    ends at its first closing bracket, so each of the long classes of the
    text is the short class of the five characters before it, followed by
    the characters . , ; : s @ and the double quote and by a run of closing
    brackets; where the text escapes a dot the pattern has a bare dot. *)
Definition emailRegExp : Pattern :=
  let open5 := Class true [One "<"%char; One ">"%char; One "("%char;
                           One ")"%char; One "["%char] in
  let tail := [Esc "."%char; Chr ","%char; Chr ";"%char; Chr ":"%char;
               Chr "s"%char; Chr "@"%char; Chr dquoteChar;
               Plus (Chr "]"%char)] in
  let atoms := Group (seqs (open5 :: tail
                 ++ [Star (Group (seqs (Dot :: open5 :: tail)))])) in
  let quoted := Group (seqs [Chr dquoteChar; Plus Dot; Chr dquoteChar]) in
  let num := Repeat 1 (Some 3) (Class false [digit09]) in
  let address :=
    Group (seqs [Repeat 1 (Some 3) (Class false [One "["%char; digit09]);
                 Dot; num; Dot; num; Dot; num; Chr "]"%char]) in
  let label :=
    Group (seqs [Plus (Class false [lowerAZ; upperAZ; One "-"%char; digit09]);
                 Dot]) in
  let domain :=
    Group (seqs [Plus label; Repeat 2 None (Class false [lowerAZ; upperAZ])]) in
  Anchored (seqs [Group (Alt atoms quoted); Chr "@"%char;
                  Group (Alt address domain)]).

(** isEmail: new RegExp(...).test(val) *)
Definition isEmail (val : Value) : bool :=
  test emailRegExp (toString val).

(** isAccepted, by the type of the value. *)
Definition isAccepted (val : Value) : bool :=
  match val with
  | VString s => String.eqb (toLowerCase s) "yes"
  | VBool b => Bool.eqb b true
  | VNumber n => (n =? 1)%Z
  | _ => false
  end.

Definition isDate (L : Library) (date : Moment.Input) : bool :=
  Moment.isValid (Moment.create (parseDate L) date).

(** Modelled from the spec: _.isNone of ./misc, a file that is not among the
    sources; the spec calls the value absent, null or undefined. *)
Definition isNone (val : Value) : bool :=
  match val with
  | VUndefined | VNull => true
  | _ => false
  end.

Definition isEmpty (val : Value) : bool :=
  if isNone val then true
  else
    let str := removeWhiteSpace (toString val) in
    if (0 <? String.length str)%nat then false else true.

Definition isAfter (L : Library) (dateToCheck afterDate : Moment.Input)
    : bool :=
  Moment.isAfter (parseDate L) (Moment.create (parseDate L) dateToCheck)
    afterDate.

Definition isAfterOrEqual (L : Library) (dateToCheck afterDate : Moment.Input)
    : bool :=
  Moment.isSameOrAfter (parseDate L) (Moment.create (parseDate L) dateToCheck)
    afterDate.

Definition alphaRegExp : Pattern :=
  Anchored (Plus (Class false [lowerAZ; upperAZ])).

Definition alphaDashRegExp : Pattern :=
  Anchored (Plus (Class false [lowerAZ; upperAZ; digit09; One "_"%char;
                               EscOne "-"%char])).

Definition alphaNumRegExp : Pattern :=
  Anchored (Plus (Class false [lowerAZ; upperAZ; digit09])).

Definition isAlpha (val : Value) : bool := test alphaRegExp (toString val).

Definition isAlphaDash (val : Value) : bool :=
  test alphaDashRegExp (toString val).

Definition isAlphaNum (val : Value) : bool :=
  test alphaNumRegExp (toString val).

Definition isArray (val : Value) : bool :=
  match val with
  | VArray _ => true
  | _ => false
  end.

Definition isBefore (L : Library) (dateToCheck beforeDate : Moment.Input)
    : bool :=
  Moment.isBefore (parseDate L) (Moment.create (parseDate L) dateToCheck)
    beforeDate.

Definition isBeforeOrEqual (L : Library)
    (dateToCheck beforeDate : Moment.Input) : bool :=
  Moment.isSameOrBefore (parseDate L)
    (Moment.create (parseDate L) dateToCheck) beforeDate.

(** The pattern the text of isEmail shows when its backslashes are read as
    regular expression escapes (the text between the slashes of a regular
    expression literal): dot-separated atoms or a quoted string, the at
    sign, then a bracketed dotted quad or a dot-separated domain whose last
    label is two letters or more. *)
Definition emailWritten : Pattern :=
  let atomChar := Class true [One "<"%char; One ">"%char; One "("%char;
                              One ")"%char; One "["%char; EscOne "]"%char;
                              EscOne backslashChar; One "."%char;
                              One ","%char; One ";"%char; One ":"%char;
                              SpaceEsc; One "@"%char; EscOne dquoteChar] in
  let atoms := Group (seqs [Plus atomChar;
                 Star (Group (seqs [Esc "."%char; Plus atomChar]))]) in
  let quoted := Group (seqs [Esc dquoteChar; Plus Dot; Esc dquoteChar]) in
  let num := Repeat 1 (Some 3) (Class false [digit09]) in
  let address :=
    Group (seqs [Esc "["%char; num; Esc "."%char; num; Esc "."%char; num;
                 Esc "."%char; num; Esc "]"%char]) in
  let label :=
    Group (seqs [Plus (Class false [lowerAZ; upperAZ; EscOne "-"%char;
                                    digit09]);
                 Esc "."%char]) in
  let domain :=
    Group (seqs [Plus label; Repeat 2 None (Class false [lowerAZ; upperAZ])]) in
  Anchored (seqs [Group (Alt atoms quoted); Chr "@"%char;
                  Group (Alt address domain)]).

End Validation.

(** ** Failure records, the raised error and completions *)

(** FieldValidationError: the rule that failed and its rendered message. *)
Module FieldValidationError.

Record t : Type := {
  rule : string;
  message : string
}.

End FieldValidationError.

(** The map from field name to failure records. *)
Definition FieldErrors : Type := JsObject.t (list FieldValidationError.t).

Module FormValidationError.

Record t : Type := {
  fields : FieldErrors;
  message : string;
  name : string
}.

(** new FormValidationError(fields, message): an absent or empty message
    gives way to the constant. *)
Definition new (fields : FieldErrors) (message : option string) : t :=
  {| fields := fields;
     message := match message with
                | Some m => if String.eqb m EmptyString
                            then "Invalid form input" else m
                | None => "Invalid form input"
                end;
     name := "FormValidationError" |}.

(** getFirstMessage(fieldName): the message, or nothing for undefined,
    unless the call throws.  Under a name the fields lack and
    Object.prototype has, this.fields[fieldName] is the inherited member: a
    function is tested by its length, and when this is not 0 the message of
    its property 0, which is undefined, is read. *)
Definition getFirstMessage (e : t) (fieldName : string)
    : Js.TypeError + option string :=
  match JsObject.read (fields e) fieldName with
  | JsObject.Missing => inr None
  | JsObject.Own [] => inr None
  | JsObject.Own (first :: _) => inr (Some (FieldValidationError.message first))
  | JsObject.Inherited (JsObject.Function _ 0) => inr None
  | JsObject.Inherited (JsObject.Function _ (S _)) =>
      inl (Js.PropertyOfUndefined "message")
  | JsObject.Inherited JsObject.ObjectPrototype => inr None
  end.

Definition newline : string := String "010"%char EmptyString.

(** getCompiledMessage(mergeToken): the token is a line feed when the
    argument is left out. *)
Definition getCompiledMessage (e : t) (mergeToken : option string) : string :=
  let token := match mergeToken with Some tok => tok | None => newline end in
  Js.join token
    (flat_map (fun entry => map FieldValidationError.message (snd entry))
       (JsObject.entries (fields e))).

End FormValidationError.

(** What a throw statement raises: the error of validateAndThrow, or
    whatever value a predicate throws or rejects with. *)
Inductive Exn : Type :=
| FormError (e : FormValidationError.t)
| Thrown (reason : Js.Value).

Inductive Completion (A : Type) : Type :=
| Normal (a : A)
| Throw (e : Exn).

Arguments Normal {A} a.
Arguments Throw {A} e.

(** ** Rules *)

(** A promise, by the way it settles. *)
Inductive Settled : Type :=
| Fulfilled (b : bool)
| Rejected (reason : Js.Value).

(** What calling a handle gives: a boolean or a promise of one, unless the
    call throws. *)
Inductive HandleResult : Type :=
| Plain (b : bool)
| Promised (p : Settled).

Inductive Outcome : Type :=
| Returns (r : HandleResult)
| Throws (reason : Js.Value).

(** The input snapshot of a form. *)
Definition Input : Type := JsObject.t Js.Value.

(** input[key] *)
Definition getInput (input : Input) (key : string) : Js.Value :=
  match JsObject.get input key with
  | Some v => v
  | None => Js.VUndefined
  end.

(** message || fallback, and fieldLabel || fallback *)
Definition orElse (given : option string) (fallback : string) : string :=
  match given with
  | Some m => if String.eqb m EmptyString then fallback else m
  | None => fallback
  end.

(** ValidationRule.  The handle is called with the field rule set as this;
    what it reads of it is the input of the validator and the field name.
    It is given the library of the time of the call.  A rule without the
    async property has [async] false. *)
Module ValidationRule.

Record t : Type := {
  name : string;
  async : bool;
  handle : Library -> Input -> string -> Outcome;
  message : string;
  attrs : Attrs
}.

End ValidationRule.

(** ** FieldValidator *)

Module FieldValidator.
Import Js.

Record t : Type := {
  fieldName : string;
  fieldLabel : string;
  rules : JsObject.t ValidationRule.t;
  errors : list FieldValidationError.t
}.

Definition new (L : Library) (fieldName : string)
    (fieldLabel : option string) : t :=
  {| fieldName := fieldName;
     fieldLabel := orElse fieldLabel (lowerCase L fieldName);
     rules := JsObject.empty;
     errors := [] |}.

(** this.rules[key] = r *)
Definition setRule (this : t) (key : string) (r : ValidationRule.t) : t :=
  {| fieldName := fieldName this;
     fieldLabel := fieldLabel this;
     rules := JsObject.set (rules this) key r;
     errors := errors this |}.

(** this.errors = errs *)
Definition setErrors (this : t) (errs : list FieldValidationError.t) : t :=
  {| fieldName := fieldName this;
     fieldLabel := fieldLabel this;
     rules := rules this;
     errors := errs |}.

(** A rule whose handle applies a predicate of the validation service to
    the value of this field in the input. *)
Definition predicateRule (this : t) (name : string)
    (predicate : Library -> Value -> bool) (message : string) (attrs : Attrs)
    : ValidationRule.t :=
  {| ValidationRule.name := name;
     ValidationRule.async := false;
     ValidationRule.handle :=
       fun now input fieldName =>
         Returns (Plain (predicate now (getInput input fieldName)));
     ValidationRule.message := message;
     ValidationRule.attrs := attrs |}.

Definition labelOnly (this : t) : Attrs := [("label", fieldLabel this)].

Definition email (this : t) (message : option string) : t :=
  setRule this "email"
    (predicateRule this "email" (fun _ => Validation.isEmail)
       (orElse message Validation.RULE_MESSAGES.email) (labelOnly this)).

Definition accepted (this : t) (message : option string) : t :=
  setRule this "accepted"
    (predicateRule this "accepted" (fun _ => Validation.isAccepted)
       (orElse message Validation.RULE_MESSAGES.accepted) (labelOnly this)).

(** if (!moment.isMoment(date)) date = moment(date), when the rule method
    is called *)
Definition coerce (L : Library) (date : Moment.Input) : Moment.Input :=
  if negb (Moment.isMoment date)
  then Moment.OfMoment (Moment.create (parseDate L) date)
  else date.

(** date.toString(), once date is a moment *)
Definition dateString (L : Library) (date : Moment.Input) : string :=
  formatDate L (Moment.create (parseDate L) date).

Definition datedAttrs (L : Library) (this : t) (date : Moment.Input) : Attrs :=
  [("label", fieldLabel this); ("date", dateString L date)].

Definition after (L : Library) (this : t) (date : Moment.Input)
    (message : option string) : t :=
  let date := coerce L date in
  setRule this "after"
    (predicateRule this "after"
       (fun now val => Validation.isAfter now (Moment.OfValue val) date)
       (orElse message Validation.RULE_MESSAGES.after)
       (datedAttrs L this date)).

Definition date (this : t) (message : option string) : t :=
  setRule this "date"
    (predicateRule this "date"
       (fun now val => Validation.isDate now (Moment.OfValue val))
       (orElse message Validation.RULE_MESSAGES.date) (labelOnly this)).

Definition required (this : t) (message : option string) : t :=
  setRule this "required"
    (predicateRule this "required"
       (fun _ val => negb (Validation.isEmpty val))
       (orElse message Validation.RULE_MESSAGES.required) (labelOnly this)).

Definition afterOrEqual (L : Library) (this : t) (date : Moment.Input)
    (message : option string) : t :=
  let date := coerce L date in
  setRule this "afterOrEqual"
    (predicateRule this "afterOrEqual"
       (fun now val => Validation.isAfterOrEqual now (Moment.OfValue val) date)
       (orElse message Validation.RULE_MESSAGES.afterOrEqual)
       (datedAttrs L this date)).

Definition alpha (this : t) (message : option string) : t :=
  setRule this "alpha"
    (predicateRule this "alpha" (fun _ => Validation.isAlpha)
       (orElse message Validation.RULE_MESSAGES.alpha) (labelOnly this)).

Definition alphaDash (this : t) (message : option string) : t :=
  setRule this "alphaDash"
    (predicateRule this "alphaDash" (fun _ => Validation.isAlphaDash)
       (orElse message Validation.RULE_MESSAGES.alphaDash) (labelOnly this)).

Definition alphaNum (this : t) (message : option string) : t :=
  setRule this "alphaNum"
    (predicateRule this "alphaNum" (fun _ => Validation.isAlphaNum)
       (orElse message Validation.RULE_MESSAGES.alphaNum) (labelOnly this)).

Definition array (this : t) (message : option string) : t :=
  setRule this "array"
    (predicateRule this "array" (fun _ => Validation.isArray)
       (orElse message Validation.RULE_MESSAGES.array) (labelOnly this)).

Definition before (L : Library) (this : t) (date : Moment.Input)
    (message : option string) : t :=
  let date := coerce L date in
  setRule this "before"
    (predicateRule this "before"
       (fun now val => Validation.isBefore now (Moment.OfValue val) date)
       (orElse message Validation.RULE_MESSAGES.before)
       (datedAttrs L this date)).

Definition beforeOrEqual (L : Library) (this : t) (date : Moment.Input)
    (message : option string) : t :=
  let date := coerce L date in
  setRule this "beforeOrEqual"
    (predicateRule this "beforeOrEqual"
       (fun now val => Validation.isBeforeOrEqual now (Moment.OfValue val) date)
       (orElse message Validation.RULE_MESSAGES.beforeOrEqual)
       (datedAttrs L this date)).

(** addError: the record is pushed at the end of this.errors. *)
Definition addError (L : Library) (this : t) (ruleName message : string)
    (attrs : option Attrs) : t :=
  let attrs := match attrs with Some a => a | None => JsObject.empty end in
  setErrors this
    (errors this
       ++ [{| FieldValidationError.rule := ruleName;
              FieldValidationError.message := template L message attrs |}]).

Definition getErrors (this : t) : list FieldValidationError.t := errors this.

Definition hasErrors (this : t) : bool :=
  if (0 <? List.length (errors this))%nat then true else false.

(** The value of pass in one turn of the loop of check: the handle is
    awaited when the rule is async, and taken as it is otherwise (where a
    promise, being an object, counts as true). *)
Definition pass (L : Library) (input : Input) (this : t)
    (r : ValidationRule.t) : Completion bool :=
  match ValidationRule.handle r L input (fieldName this) with
  | Throws reason => Throw (Thrown reason)
  | Returns result =>
      if ValidationRule.async r then
        match result with
        | Plain b => Normal b
        | Promised (Fulfilled b) => Normal b
        | Promised (Rejected reason) => Throw (Thrown reason)
        end
      else
        match result with
        | Plain b => Normal b
        | Promised _ => Normal true
        end
  end.

(** The loop of check over the rules still to run. *)
Fixpoint checkRules (L : Library) (input : Input)
    (todo : list (string * ValidationRule.t)) (this : t)
    : Completion unit * t :=
  match todo with
  | [] => (Normal tt, this)
  | (rule, r) :: rest =>
      match pass L input this r with
      | Throw e => (Throw e, this)
      | Normal ok =>
          checkRules L input rest
            (if negb ok
             then addError L this rule (ValidationRule.message r)
                    (Some (ValidationRule.attrs r))
             else this)
      end
  end.

(** check(): the result and the field rule set as the call leaves it. *)
Definition check (L : Library) (input : Input) (this : t)
    : Completion bool * t :=
  let this := setErrors this [] in
  match checkRules L input (JsObject.entries (rules this)) this with
  | (Throw e, this) => (Throw e, this)
  | (Normal _, this) => (Normal (hasErrors this), this)
  end.

End FieldValidator.

(** ** FormValidator *)

Module FormValidator.

(** The validation service a validator holds is the collection of
    predicates above; it has no state and is left out of the record. *)
Record t : Type := {
  input : Input;
  fields : JsObject.t FieldValidator.t;
  fieldErrors : FieldErrors
}.

(** new FormValidator(validation, input), which is what createForm does *)
Definition new (input : Input) : t :=
  {| input := input; fields := JsObject.empty; fieldErrors := JsObject.empty |}.

Definition setFields (this : t) (fs : JsObject.t FieldValidator.t) : t :=
  {| input := input this; fields := fs; fieldErrors := fieldErrors this |}.

Definition setFieldErrors (this : t) (errs : FieldErrors) : t :=
  {| input := input this; fields := fields this; fieldErrors := errs |}.

(** field(fieldName, fieldLabel): what is returned, and the validator as
    the call leaves it.  this.fields[fieldName] is tested for truth, and a
    member inherited from Object.prototype is true: under such a name no
    field rule set is created and the member is returned. *)
Definition field (L : Library) (this : t) (fieldName : string)
    (fieldLabel : option string) : (FieldValidator.t + JsObject.Member) * t :=
  match JsObject.read (fields this) fieldName with
  | JsObject.Own existing => (inl existing, this)
  | JsObject.Inherited m => (inr m, this)
  | JsObject.Missing =>
      let created := FieldValidator.new L fieldName fieldLabel in
      (inl created,
       setFields this (JsObject.set (fields this) fieldName created))
  end.

(** The loop of validate over the fields still to check; [valid] is the
    variable of that name. *)
Fixpoint validateFields (L : Library)
    (todo : list (string * FieldValidator.t)) (valid : bool) (this : t)
    : Completion bool * t :=
  match todo with
  | [] => (Normal valid, this)
  | (fieldName, f) :: rest =>
      let (result, f) := FieldValidator.check L (input this) f in
      let this := setFields this (JsObject.set (fields this) fieldName f) in
      match result with
      | Throw e => (Throw e, this)
      | Normal _ =>
          if FieldValidator.hasErrors f
          then validateFields L rest false
                 (setFieldErrors this
                    (JsObject.set (fieldErrors this) fieldName
                       (FieldValidator.getErrors f)))
          else validateFields L rest valid this
      end
  end.

Definition validate (L : Library) (this : t) : Completion bool * t :=
  let this := setFieldErrors this JsObject.empty in
  validateFields L (JsObject.entries (fields this)) true this.

Definition hasErrors (this : t) : bool :=
  if (0 <? List.length (JsObject.keys (fieldErrors this)))%nat
  then true else false.

Definition getErrors (this : t) : FieldErrors := fieldErrors this.


Definition getInput (this : t) (key : string) : Js.Value :=
  getInput (input this) key.

End FormValidator.

(** ** Clients *)

(** A call of one of the rule methods of a field rule set. *)
Inductive Method : Type :=
| Email (message : option string)
| Accepted (message : option string)
| After (date : Moment.Input) (message : option string)
| IsDate (message : option string)
| Required (message : option string)
| AfterOrEqual (date : Moment.Input) (message : option string)
| Alpha (message : option string)
| AlphaDash (message : option string)
| AlphaNum (message : option string)
| IsArray (message : option string)
| Before (date : Moment.Input) (message : option string)
| BeforeOrEqual (date : Moment.Input) (message : option string).

Definition invoke (L : Library) (this : FieldValidator.t) (m : Method)
    : FieldValidator.t :=
  match m with
  | Email message => FieldValidator.email this message
  | Accepted message => FieldValidator.accepted this message
  | After date message => FieldValidator.after L this date message
  | IsDate message => FieldValidator.date this message
  | Required message => FieldValidator.required this message
  | AfterOrEqual date message =>
      FieldValidator.afterOrEqual L this date message
  | Alpha message => FieldValidator.alpha this message
  | AlphaDash message => FieldValidator.alphaDash this message
  | AlphaNum message => FieldValidator.alphaNum this message
  | IsArray message => FieldValidator.array this message
  | Before date message => FieldValidator.before L this date message
  | BeforeOrEqual date message =>
      FieldValidator.beforeOrEqual L this date message
  end.

(** The name under which a method stores its rule. *)
Definition methodName (m : Method) : string :=
  match m with
  | Email _ => "email"
  | Accepted _ => "accepted"
  | After _ _ => "after"
  | IsDate _ => "date"
  | Required _ => "required"
  | AfterOrEqual _ _ => "afterOrEqual"
  | Alpha _ => "alpha"
  | AlphaDash _ => "alphaDash"
  | AlphaNum _ => "alphaNum"
  | IsArray _ => "array"
  | Before _ _ => "before"
  | BeforeOrEqual _ _ => "beforeOrEqual"
  end.

(** What a client does with a form validator: it refers to a field and
    chains rule methods on what it gets,
    form.field(name, label).m1(..)...mk(..), or it awaits form.validate();
    and it goes on whatever the outcome, an error thrown included. *)
Inductive Statement : Type :=
| OnField (fieldName : string) (fieldLabel : option string)
    (methods : list Method)
| Validate.

(** Whether a statement throws a TypeError: the first rule method called
    on a member inherited from Object.prototype is not a function. *)
Definition typeError (L : Library) (this : FormValidator.t) (s : Statement)
    : option Js.TypeError :=
  match s with
  | OnField fieldName fieldLabel (m :: _) =>
      match fst (FormValidator.field L this fieldName fieldLabel) with
      | inr _ => Some (Js.NotAFunction (methodName m))
      | inl _ => None
      end
  | _ => None
  end.

(** The validator as a statement leaves it.  The methods work on the
    object the validator holds under the field name, so the validator sees
    what they store; on an inherited member nothing is stored, whether a
    method is called on it, which throws, or none. *)
Definition exec (L : Library) (this : FormValidator.t) (s : Statement)
    : FormValidator.t :=
  match s with
  | OnField fieldName fieldLabel methods =>
      match FormValidator.field L this fieldName fieldLabel with
      | (inl f, this) =>
          FormValidator.setFields this
            (JsObject.set (FormValidator.fields this) fieldName
               (fold_left (invoke L) methods f))
      | (inr _, this) => this
      end
  | Validate => snd (FormValidator.validate L this)
  end.

(** The validator createForm(input) gives, after the statements. *)
Definition run (L : Library) (input : Input) (program : list Statement)
    : FormValidator.t :=
  fold_left (exec L) program (FormValidator.new input).

(** The names of a list, each once, in the order of their first
    occurrence. *)
Definition addOnce (seen : list string) (n : string) : list string :=
  if existsb (String.eqb n) seen then seen else (seen ++ [n])%list.

Definition firstOccurrences (names : list string) : list string :=
  fold_left addOnce names [].

(** The names under which a program refers to a field: those of its calls
    of field, but for the names inherited from Object.prototype, under
    which field gives no field rule set. *)
Definition referenced (program : list Statement) : list string :=
  flat_map (fun s => match s with
                     | OnField fieldName _ _ =>
                         if JsObject.isInherited fieldName then []
                         else [fieldName]
                     | Validate => []
                     end) program.

(** The field names a program refers to, in the order of their first
    reference. *)
Definition firstReferenced (program : list Statement) : list string :=
  firstOccurrences (referenced program).

(** The names of the rule methods a program calls on a field, in the order
    of their first call. *)
Definition attached (program : list Statement) (fieldName : string)
    : list string :=
  firstOccurrences
    (flat_map (fun s => match s with
                        | OnField n _ methods =>
                            if String.eqb n fieldName
                            then map methodName methods else []
                        | Validate => []
                        end) program).

(** The label argument of the first reference to a field. *)
Fixpoint labelAtFirstReference (program : list Statement)
    (fieldName : string) : option (option string) :=
  match program with
  | [] => None
  | OnField n label _ :: rest =>
      if String.eqb n fieldName then Some label
      else labelAtFirstReference rest fieldName
  | Validate :: rest => labelAtFirstReference rest fieldName
  end.

(** ** A library to evaluate with *)

Module Sample.
Import Js.

Definition lowerCase (s : string) : string := toLowerCase s.

(** The text with every ${key} replaced by the attribute of that name;
    [pending] holds the key being read. *)
Fixpoint render (attrs : Attrs) (text : string) (pending : option string)
    : string :=
  match text, pending with
  | EmptyString, None => EmptyString
  | EmptyString, Some key => "${" ++ key
  | String c rest, Some key =>
      if Ascii.eqb c "}"%char
      then match JsObject.get attrs key with
           | Some v => v
           | None => EmptyString
           end ++ render attrs rest None
      else render attrs rest (Some (key ++ String c EmptyString))
  | String c rest, None =>
      match rest with
      | String "{"%char rest' =>
          if Ascii.eqb c "$"%char then render attrs rest' (Some EmptyString)
          else String c (render attrs rest None)
      | _ => String c (render attrs rest None)
      end
  end.

(** Dates are numbers of milliseconds; of undefined, the date is the
    reading of the clock. *)
Definition parseDate (clock : Z) (v : Value) : Moment.t :=
  match v with
  | VNumber n => Some n
  | VUndefined => Some clock
  | _ => None
  end.

Definition formatDate (m : Moment.t) : string :=
  match m with
  | Some n => numberToString n
  | None => "Invalid date"
  end.

(** The library when the clock reads [clock]. *)
Definition libraryAt (clock : Z) : Library :=
  Build_Library lowerCase (fun text attrs => render attrs text None)
    (parseDate clock) formatDate.

Definition library : Library := libraryAt 0.

(** A rule that asks a store whether the value is taken, and finds the
    store closed: the promise its handle returns is rejected. *)
Definition unique : ValidationRule.t :=
  {| ValidationRule.name := "unique";
     ValidationRule.async := true;
     ValidationRule.handle :=
       fun _ _ _ => Returns (Promised (Rejected (VString "store closed")));
     ValidationRule.message := "The ${label} has already been taken.";
     ValidationRule.attrs := [("label", "email")] |}.

Definition nameField : FieldValidator.t :=
  FieldValidator.required (FieldValidator.new library "name" None) None.

Definition emailField : FieldValidator.t :=
  FieldValidator.setRule
    (FieldValidator.email (FieldValidator.new library "email" None) None)
    "unique" unique.

Definition ageField : FieldValidator.t :=
  FieldValidator.required (FieldValidator.new library "age" None) None.

(** A form of three fields whose second has the rule [unique]. *)
Definition guarded : FormValidator.t :=
  {| FormValidator.input := [("name", VString EmptyString);
                             ("email", VString "a")];
     FormValidator.fields := [("name", nameField); ("email", emailField);
                              ("age", ageField)];
     FormValidator.fieldErrors := JsObject.empty |}.

(** A field of dates. *)
Definition whenField : FieldValidator.t :=
  FieldValidator.new library "when" None.

End Sample.

(** * The request input, the uploads and the errors (core/http.ts) *)

Module Http.
Import Js.

(** ** Input *)

Module Input.




Definition isUndefined (v : Value) : bool :=
  match v with VUndefined => true | _ => false end.


(** An entry of the file input: one file, or an array of files. *)
Inductive Entry (F : Type) : Type :=
| Single (f : F)
| Multiple (fs : list F).

Arguments Single {F} f.
Arguments Multiple {F} fs.

(** What file and files give: a file or, under a name the file input
    lacks and Object.prototype has, the inherited member. *)
Inductive Found (F : Type) : Type :=
| AFile (f : F)
| AMember (m : JsObject.Member).

Arguments AFile {F} f.
Arguments AMember {F} m.

(** file(key); nothing stands for undefined. *)
Definition file {F : Type} (fileInput : JsObject.t (Entry F)) (key : string)
    : option (Found F) :=
  match JsObject.read fileInput key with
  | JsObject.Missing => None
  | JsObject.Own (Multiple fs) => option_map AFile (List.hd_error fs)
  | JsObject.Own (Single f) => Some (AFile f)
  | JsObject.Inherited m => Some (AMember m)
  end.

(** files(key) *)
Definition files {F : Type} (fileInput : JsObject.t (Entry F)) (key : string)
    : option (list (Found F)) :=
  match JsObject.read fileInput key with
  | JsObject.Missing => None
  | JsObject.Own (Single f) => Some [AFile f]
  | JsObject.Own (Multiple fs) => Some (map AFile fs)
  | JsObject.Inherited m => Some [AMember m]
  end.

Definition hasFile {F : Type} (fileInput : JsObject.t (Entry F))
    (key : string) : bool :=
  match file fileInput key with Some _ => true | None => false end.

End Input.

(** ** UploadedFile *)

(** The functions of the path module the class calls. *)
Record PathLib : Type := {
  join : string -> string -> string;
  basename : string -> string;
  resolve : string -> string
}.

(** formidable.File, the fields the constructor reads. *)
Module Formidable.

Record t : Type := {
  name : string;
  path : string;
  type : string;
  hash : string;
  size : Z;
  lastModifiedDate : Value
}.

End Formidable.

Module UploadedFile.

(** File, the class UploadedFile extends, is in ./filesystem, which is not
    among the sources; it is taken to hold the fields its constructor is
    given. *)
Record t : Type := {
  name : string;
  path : string;
  type : string;
  hash : string;
  size : Z;
  lastModifiedDate : Value;
  moved : bool;
  processing : bool
}.

Definition new (uploaded : Formidable.t) : t :=
  {| name := Formidable.name uploaded;
     path := Formidable.path uploaded;
     type := Formidable.type uploaded;
     hash := Formidable.hash uploaded;
     size := Formidable.size uploaded;
     lastModifiedDate := Formidable.lastModifiedDate uploaded;
     moved := false;
     processing := false |}.

Definition setProcessing (this : t) (b : bool) : t :=
  {| name := name this; path := path this; type := type this;
     hash := hash this; size := size this;
     lastModifiedDate := lastModifiedDate this;
     moved := moved this; processing := b |}.

Definition isMovedOrInProcess (this : t) : bool :=
  moved this || processing this.

(** move(destination, fileName), up to the call of fs.rename: the message
    of the error thrown, or the file as the call leaves it with the two
    arguments of fs.rename. *)
Definition move (P : PathLib) (this : t) (destination : string)
    (fileName : option string) : string + (t * (string * string)) :=
  if isMovedOrInProcess this
  then inl "File is already moved or in process"
  else
    let this := setProcessing this true in
    let destination := join P destination (orElse fileName (name this)) in
    inr (this, (path this, destination)).

(** The callback move gives to fs.rename: how the promise settles, and the
    file. *)
Definition renamed (P : PathLib) (this : t) (destination : string)
    (err : option Value) : Settled * t :=
  let this := setProcessing this false in
  match err with
  | Some e => (Rejected e, this)
  | None =>
      (Fulfilled true,
       {| name := basename P destination;
          path := resolve P destination;
          type := type this; hash := hash this; size := size this;
          lastModifiedDate := lastModifiedDate this;
          moved := true;
          processing := processing this |})
  end.

(** deleteTempFile(), up to the call of fs.unlink: the promise resolved
    with false, or the argument of fs.unlink. *)
Definition deleteTempFile (this : t) : Settled + string :=
  if isMovedOrInProcess this then inl (Fulfilled false)
  else inr (path this).

(** The callback deleteTempFile gives to fs.unlink. *)
Definition unlinked (err : option Value) : Settled :=
  match err with
  | Some e => Rejected e
  | None => Fulfilled true
  end.

(** *** The life of an uploaded file *)

Inductive FsCall : Type :=
| Rename (from to : string)
| Unlink (path : string).

(** The file, the destinations of the renames whose callbacks have not run
    yet, oldest first, and the calls made of fs so far. *)
Record World : Type := {
  file : t;
  pending : list string;
  issued : list FsCall
}.

Inductive Event : Type :=
| CallMove (destination : string) (fileName : option string)
| RenameReturns (err : option Value)
| CallDeleteTempFile.

Definition start (uploaded : Formidable.t) : World :=
  {| file := new uploaded; pending := []; issued := [] |}.

Definition step (P : PathLib) (w : World) (ev : Event) : World :=
  match ev with
  | CallMove destination fileName =>
      match move P (file w) destination fileName with
      | inl _ => w
      | inr (f, (from, to)) =>
          {| file := f;
             pending := (pending w ++ [to])%list;
             issued := (issued w ++ [Rename from to])%list |}
      end
  | RenameReturns err =>
      match pending w with
      | [] => w
      | to :: rest =>
          {| file := snd (renamed P (file w) to err);
             pending := rest;
             issued := issued w |}
      end
  | CallDeleteTempFile =>
      match deleteTempFile (file w) with
      | inl _ => w
      | inr p =>
          {| file := file w;
             pending := pending w;
             issued := (issued w ++ [Unlink p])%list |}
      end
  end.

Definition after (P : PathLib) (w : World) (events : list Event) : World :=
  fold_left (step P) events w.

End UploadedFile.

(** ** The files of a parsed form *)

(** _files[key].push(uploaded) *)
Definition push (stored : JsObject.t (Input.Entry UploadedFile.t))
    (key : string) (uploaded : UploadedFile.t)
    : JsObject.t (Input.Entry UploadedFile.t) :=
  match JsObject.get stored key with
  | Some (Input.Multiple fs) =>
      JsObject.set stored key (Input.Multiple (fs ++ [uploaded])%list)
  | _ => stored
  end.

(** One turn of the loop of provideBodyParser over the files of a form,
    on the file input and the total upload size.  For an array of files the
    entry is set to a new array, and it is on this new array that forEach
    is called. *)
Definition collectStep (files : JsObject.t (Input.Entry Formidable.t))
    (state : JsObject.t (Input.Entry UploadedFile.t) * Z) (key : string)
    : JsObject.t (Input.Entry UploadedFile.t) * Z :=
  let (stored, totalUploadSize) := state in
  match JsObject.get files key with
  | Some (Input.Multiple _) =>
      let fresh : list Formidable.t := [] in
      let stored := JsObject.set stored key (Input.Multiple []) in
      fold_left
        (fun (st : JsObject.t (Input.Entry UploadedFile.t) * Z)
             (file : Formidable.t) =>
           let uploaded := UploadedFile.new file in
           (push (fst st) key uploaded,
            (snd st + UploadedFile.size uploaded)%Z))
        fresh (stored, totalUploadSize)
  | Some (Input.Single f) =>
      let uploaded := UploadedFile.new f in
      (JsObject.set stored key (Input.Single uploaded),
       (totalUploadSize + UploadedFile.size uploaded)%Z)
  | None => state
  end.

(** The loop. *)
Definition collectFiles (files : JsObject.t (Input.Entry Formidable.t))
    : JsObject.t (Input.Entry UploadedFile.t) * Z :=
  fold_left (collectStep files) (JsObject.keys files) (JsObject.empty, 0%Z).

(** The end of the callback of form.parse: the error passed to next, or the
    file input of the request. *)
Definition acceptFiles (uploadMaxSize : Z)
    (files : JsObject.t (Input.Entry Formidable.t))
    : string + JsObject.t (Input.Entry UploadedFile.t) :=
  let (stored, totalUploadSize) := collectFiles files in
  if (uploadMaxSize <? totalUploadSize)%Z
  then inl "Reached upload max size"
  else inr stored.

(** ** HttpError *)

Module HttpError.

Record t : Type := {
  statusCode : Z;
  message : string
}.

(** A value of the table is there and is not the empty string. *)
Definition truthyText (text : option string) : bool :=
  match text with
  | Some t => negb (String.eqb t EmptyString)
  | None => false
  end.

(** new HttpError(statusCode, message), given the table of the statuses
    package: the message of the error thrown, or the error. *)
Definition new (STATUSES : Z -> option string) (statusCode : Z)
    (message : option string) : string + t :=
  let text :=
    orElse message
      (match STATUSES statusCode with Some t => t | None => EmptyString end) in
  if (statusCode <? 400)%Z
  then inl "HttpError only accepts status codes greater than 400"
  else if negb (truthyText (STATUSES statusCode))
       then inl "HttpError invalid status code"
       else inr {| statusCode := statusCode; message := text |}.

End HttpError.

(** ** The error handler *)

(** The errors the handler tells apart, each with its name, message and
    stack. *)
Inductive Failure : Type :=
| OfValidation (e : FormValidationError.t)
| OfHttp (e : HttpError.t)
| OfOther (name message : string).

Record Details : Type := {
  name : string;
  message : string;
  stack : option string;
  fields : option FieldErrors
}.

(** How the handler answers: res.json of an object whose error is the
    details, res.render of a view with the same object, or res.send of the
    details as JSON text. *)
Inductive Reply : Type :=
| Json (error : Details)
| Render (view : string) (error : Details)
| Send (details : Details).

Definition failureName (err : Failure) : string :=
  match err with
  | OfValidation e => FormValidationError.name e
  | OfHttp _ => "Error"
  | OfOther n _ => n
  end.

Definition failureMessage (err : Failure) : string :=
  match err with
  | OfValidation e => FormValidationError.message e
  | OfHttp e => HttpError.message e
  | OfOther _ m => m
  end.

(** The handler of provideHttpErrorHandler: the status it sets and its
    answer, given the app.env setting, the stack of the error and what
    req.accepts says of json and of html. *)
Definition handleError (env : option string) (acceptsJson acceptsHtml : bool)
    (err : Failure) (errStack : string) : Z * Reply :=
  let details :=
    {| name := failureName err;
       message := failureMessage err;
       stack := match env with
                | Some e => if String.eqb e "production" then None
                            else Some errStack
                | None => Some errStack
                end;
       fields := match err with
                 | OfValidation e => Some (FormValidationError.fields e)
                 | _ => None
                 end |} in
  let status :=
    match err with
    | OfValidation _ => 400%Z
    | OfHttp e => HttpError.statusCode e
    | OfOther _ _ => 500%Z
    end in
  (status,
   if acceptsJson then Json details
   else if acceptsHtml
        then Render ("errors/" ++ numberToString status) details
        else Send details).

End Http.

(** * The environment (core/environment.ts) *)

Module Environment.
Import Js.

Definition isUndefined (v : Value) : bool :=
  match v with VUndefined => true | _ => false end.

(** eval of one of the texts null, true and false *)
Definition evalLiteral (text : string) : Value :=
  if String.eqb text "null" then VNull
  else if String.eqb text "true" then VBool true
  else VBool false.

(** What env returns: a value or, under a name process.env lacks and
    Object.prototype has, the inherited member. *)
Inductive Result : Type :=
| AValue (v : Value)
| AMember (m : JsObject.Member).

(** env(key, defaultVal), given the variables process.env holds; an
    argument left out is undefined. *)
Definition env (processEnv : JsObject.t string) (key : string)
    (defaultVal : Value) : Result :=
  let unset := match JsObject.read processEnv key with
               | JsObject.Missing => true
               | _ => false
               end in
  if unset && negb (isUndefined defaultVal) then AValue defaultVal
  else
    match JsObject.read processEnv key with
    | JsObject.Own text =>
        if existsb (String.eqb text) ["null"; "true"; "false"]
        then AValue (evalLiteral text)
        else AValue (VString text)
    | JsObject.Inherited m => AMember m
    | JsObject.Missing => AValue VUndefined
    end.

(** How a call of fs ends: it returns, or throws an error with a code (or
    without one). *)
Inductive FsOutcome : Type :=
| Succeeds
| Fails (code : option string).

(** The three functions of fs the set-up calls. *)
Record Fs : Type := {
  mkdirSync : string -> FsOutcome;
  unlinkSync : string -> FsOutcome;
  symlinkSync : string -> string -> FsOutcome
}.

Inductive FsStep : Type :=
| Mkdir (path : string)
| UnlinkPath (path : string)
| Symlink (target path : string).

(** e.code != c *)
Definition codeIsNot (code : option string) (c : string) : bool :=
  match code with
  | Some k => negb (String.eqb k c)
  | None => true
  end.

(** What a try statement lets through: the code of the error when the
    condition of the catch clause holds of it. *)
Definition rethrown (outcome : FsOutcome) (rethrow : option string -> bool)
    : option (option string) :=
  match outcome with
  | Fails code => if rethrow code then Some code else None
  | Succeeds => None
  end.

(** setupEnvironmentAndNamespace(directory), given _.trimEnd(_, '/') and
    fs, dotenv having read the file: the code of the error it throws, if it
    throws, and the calls it has made of fs. *)
Definition setupEnvironmentAndNamespace (trimEnd : string -> string)
    (fs : Fs) (directory : string)
    : option (option string) * list FsStep :=
  let directory := trimEnd directory in
  let modules := directory ++ "/node_modules" in
  let app := directory ++ "/node_modules/app" in
  match rethrown (mkdirSync fs modules) (fun _ => false) with
  | Some e => (Some e, [Mkdir modules])
  | None =>
      match rethrown (unlinkSync fs app)
              (fun code => codeIsNot code "ENOENT") with
      | Some e => (Some e, [Mkdir modules; UnlinkPath app])
      | None =>
          (rethrown (symlinkSync fs "../dist" app)
             (fun code => codeIsNot code "ENOENT" && codeIsNot code "EEXIST"),
           [Mkdir modules; UnlinkPath app; Symlink "../dist" app])
      end
  end.

End Environment.

(** ** Vocabulary of the statements *)

(** The order in which for-in visits properties of these names. *)
Definition forInOrder (names : list string) : list string :=
  JsObject.keys (map (fun n => (n, tt)) names).

(** The order of the array-index properties. *)
Definition byIndex {A : Type} (p q : N * A) : Prop := (fst p <= fst q)%N.

(** A field rule set without its failure records. *)
Definition rulesOnly (f : FieldValidator.t) : FieldValidator.t :=
  FieldValidator.setErrors f [].

(** The predicate of a rule throws: the call of the handle throws, or the
    rule is async and the promise it returns is rejected. *)
Definition raises (L : Library) (input : Input) (f : FieldValidator.t)
    (r : ValidationRule.t) (reason : Js.Value) : Prop :=
  ValidationRule.handle r L input (FieldValidator.fieldName f) = Throws reason
  \/ (ValidationRule.async r = true /\
      ValidationRule.handle r L input (FieldValidator.fieldName f)
      = Returns (Promised (Rejected reason))).

(** The record of a failure of the rule stored under [rule]. *)
Definition failureRecord (L : Library) (rule : string)
    (r : ValidationRule.t) : FieldValidationError.t :=
  {| FieldValidationError.rule := rule;
     FieldValidationError.message :=
       template L (ValidationRule.message r) (ValidationRule.attrs r) |}.

(** The predicate of a rule of a list completes: it gives a boolean. *)
Definition completes (L : Library) (input : Input) (f : FieldValidator.t)
    (e : string * ValidationRule.t) : Prop :=
  exists ok, FieldValidator.pass L input f (snd e) = Normal ok.

(** The rule fails: its predicate gives false. *)
Definition fails (L : Library) (input : Input) (f : FieldValidator.t)
    (r : ValidationRule.t) : bool :=
  match FieldValidator.pass L input f r with
  | Normal false => true
  | _ => false
  end.

(** The records of the rules of a list that fail, in the order of the
    list. *)
Definition ruleFailures (L : Library) (input : Input) (f : FieldValidator.t)
    (ran : list (string * ValidationRule.t)) : list FieldValidationError.t :=
  map (fun e => failureRecord L (fst e) (snd e))
    (filter (fun e => fails L input f (snd e)) ran).

(** A field rule set as check leaves it. *)
Definition checked (L : Library) (input : Input) (f : FieldValidator.t)
    : FieldValidator.t :=
  snd (FieldValidator.check L input f).

(** The entries, name and records, of the fields of a list whose check
    leaves records, in the order of the list. *)
Definition reported (L : Library) (input : Input)
    (fs : list (string * FieldValidator.t)) : FieldErrors :=
  map (fun e => (fst e, FieldValidator.getErrors (checked L input (snd e))))
    (filter (fun e => FieldValidator.hasErrors (checked L input (snd e))) fs).

(** The check of a field of a list returns. *)
Definition settles (L : Library) (input : Input)
    (e : string * FieldValidator.t) : Prop :=
  exists b, fst (FieldValidator.check L input (snd e)) = Normal b.

(** The fields of a validator once those of a list have been checked. *)
Definition rechecked (L : Library) (input : Input)
    (fs : list (string * FieldValidator.t))
    (fields : JsObject.t FieldValidator.t) : JsObject.t FieldValidator.t :=
  fold_left (fun o e => JsObject.set o (fst e) (checked L input (snd e)))
    fs fields.

(** The error map once the records of the fields of a list have been
    stored. *)
Definition stored (L : Library) (input : Input)
    (fs : list (string * FieldValidator.t)) (errs : FieldErrors)
    : FieldErrors :=
  fold_left
    (fun o e =>
       if FieldValidator.hasErrors (checked L input (snd e))
       then JsObject.set o (fst e)
              (FieldValidator.getErrors (checked L input (snd e)))
       else o)
    fs errs.

(** No field of a list is left with records by its check. *)
Definition allPass (L : Library) (input : Input)
    (fs : list (string * FieldValidator.t)) : bool :=
  forallb (fun e => negb (FieldValidator.hasErrors (checked L input (snd e))))
    fs.

(** An entry of the fields with the records of its field rule set taken
    away. *)
Definition bare (e : string * FieldValidator.t)
    : string * FieldValidator.t :=
  (fst e, rulesOnly (snd e)).

(** The predicates of the rules of a field answer the same at two
    times. *)
Definition agreeOn (L1 L2 : Library) (input : Input) (f : FieldValidator.t)
    : Prop :=
  Forall (fun re =>
            FieldValidator.pass L1 input f (snd re)
            = FieldValidator.pass L2 input f (snd re))
    (FieldValidator.rules f).

(** The libraries answer a validator the same at two times: the messages
    are rendered the same, and the predicates of the rules of every field
    answer the same. *)
Definition sameAnswers (L1 L2 : Library) (this : FormValidator.t) : Prop :=
  (forall message attrs, template L1 message attrs = template L2 message attrs)
  /\ Forall (fun e => agreeOn L1 L2 (FormValidator.input this) (snd e))
       (FormValidator.fields this).

(** A decision of [JsObject.WF]. *)
Fixpoint distinct (names : list string) : bool :=
  match names with
  | [] => true
  | n :: rest => negb (existsb (String.eqb n) rest) && distinct rest
  end.

(** A rule whose handle returns a boolean, whatever the input. *)
Definition plain (r : ValidationRule.t) : Prop :=
  forall L input fieldName,
    exists b, ValidationRule.handle r L input fieldName = Returns (Plain b).

(** A rule a rule method has stored. *)
Definition builtin (L : Library) (r : ValidationRule.t) : Prop :=
  exists f m,
    JsObject.get (FieldValidator.rules (invoke L f m)) (methodName m) = Some r.

(** What holds of a field of a validator a program has built: it goes by
    its name, its rules are those of the methods the program has called on
    it, in the order of their first call, its label is the one fixed at the
    first reference, and its rules are those the methods have stored. *)
Definition fieldInv (L : Library) (program : list Statement)
    (e : string * FieldValidator.t) : Prop :=
  FieldValidator.fieldName (snd e) = fst e
  /\ map fst (FieldValidator.rules (snd e)) = attached program (fst e)
  /\ (exists label,
        labelAtFirstReference program (fst e) = Some label
        /\ FieldValidator.fieldLabel (snd e)
           = orElse label (lowerCase L (fst e)))
  /\ Forall (fun re => builtin L (snd re)) (FieldValidator.rules (snd e)).

(** What holds of a validator a program has built. *)
Definition reachable (L : Library) (input : Input)
    (program : list Statement) (this : FormValidator.t) : Prop :=
  FormValidator.input this = input
  /\ map fst (FormValidator.fields this) = firstReferenced program
  /\ Forall (fieldInv L program) (FormValidator.fields this).

(** The check of a field of a validator leaves records. *)
Definition hasRecords (L : Library) (this : FormValidator.t)
    (fieldName : string) : bool :=
  match JsObject.get (FormValidator.fields this) fieldName with
  | Some f =>
      FieldValidator.hasErrors (checked L (FormValidator.input this) f)
  | None => false
  end.

(** A rule of a field of a validator fails. *)
Definition failing (L : Library) (this : FormValidator.t)
    (fieldName ruleName : string) : bool :=
  match JsObject.get (FormValidator.fields this) fieldName with
  | Some f =>
      match JsObject.get (FieldValidator.rules f) ruleName with
      | Some r => fails L (FormValidator.input this) f r
      | None => false
      end
  | None => false
  end.

(** The spellings of yes. *)
Definition yesSpellings : list string :=
  ["yes"; "yeS"; "yEs"; "yES"; "Yes"; "YeS"; "YEs"; "YES"].

(** Every character of a string satisfies a test. *)
Fixpoint allChars (p : ascii -> bool) (s : string) : bool :=
  match s with
  | EmptyString => true
  | String c rest => p c && allChars p rest
  end.

Definition isLetter (c : ascii) : bool :=
  Js.inRange "a"%char "z"%char c || Js.inRange "A"%char "Z"%char c.

Definition isLetterOrDigit (c : ascii) : bool :=
  isLetter c || Js.inRange "0"%char "9"%char c.

Definition isWordOrDash (c : ascii) : bool :=
  isLetterOrDigit c || Ascii.eqb c "_"%char || Ascii.eqb c "-"%char.

Definition nonEmpty (s : string) : bool := negb (String.eqb s EmptyString).

(** The value of pass for the rule a method stores, on the field rule set
    the method leaves: [L0] is the library of the time the method is called
    at, [L] that of the time the rule is checked at. *)
Definition passOf (L0 L : Library) (input : Input) (f : FieldValidator.t)
    (m : Method) : option (Completion bool) :=
  match JsObject.get (FieldValidator.rules (invoke L0 f m)) (methodName m) with
  | Some r => Some (FieldValidator.pass L input (invoke L0 f m) r)
  | None => None
  end.

(** Instances to evaluate the request classes with. *)
Module SampleHttp.

Definition paths : Http.PathLib :=
  {| Http.join := fun a b => (a ++ "/" ++ b)%string;
     Http.basename := fun p => p;
     Http.resolve := fun p => p |}.

Definition upload : Http.Formidable.t :=
  {| Http.Formidable.name := "a.png";
     Http.Formidable.path := "/tmp/upload_1";
     Http.Formidable.type := "image/png";
     Http.Formidable.hash := EmptyString;
     Http.Formidable.size := 10;
     Http.Formidable.lastModifiedDate := Js.VNull |}.

Definition statuses (code : Z) : option string :=
  if (code =? 404)%Z then Some "Not Found"
  else if (code =? 200)%Z then Some "OK"
  else None.

(** The files of a form: one file under avatar, two under photos. *)
Definition form : JsObject.t (Http.Input.Entry Http.Formidable.t) :=
  [("avatar", Http.Input.Single upload);
   ("photos", Http.Input.Multiple [upload; upload])].

End SampleHttp.

(** The size of the files of an entry that is one file; nothing for an
    array. *)
Definition countedSize (e : Http.Input.Entry Http.Formidable.t) : Z :=
  match e with
  | Http.Input.Single f => Http.Formidable.size f
  | Http.Input.Multiple _ => 0%Z
  end.

Definition countedTotal
    (files : JsObject.t (Http.Input.Entry Http.Formidable.t)) : Z :=
  fold_right Z.add 0%Z (map (fun e => countedSize (snd e)) files).

(** The entry of the file input for an entry of the parsed files. *)
Definition storedEntry (e : Http.Input.Entry Http.Formidable.t)
    : Http.Input.Entry Http.UploadedFile.t :=
  match e with
  | Http.Input.Single f => Http.Input.Single (Http.UploadedFile.new f)
  | Http.Input.Multiple _ => Http.Input.Multiple []
  end.

(** An error that is an HttpError is one its constructor has returned. *)
Definition madeBy (STATUSES : Z -> option string) (err : Http.Failure)
    : Prop :=
  match err with
  | Http.OfHttp e =>
      exists message,
        Http.HttpError.new STATUSES (Http.HttpError.statusCode e) message
        = inr e
  | _ => True
  end.

(** What holds of an uploaded file at every moment of its life, the path
    it was uploaded to being [temp]: a rename is in flight exactly when the
    file is in process, there is never more than one, and never one for a
    file that has moved; a file that has not moved is where it was uploaded;
    fs has only been called on that path. *)
Definition onPath (temp : string) (c : Http.UploadedFile.FsCall) : Prop :=
  match c with
  | Http.UploadedFile.Rename from _ => from = temp
  | Http.UploadedFile.Unlink p => p = temp
  end.

Definition lifeInv (temp : string) (w : Http.UploadedFile.World) : Prop :=
  ((Http.UploadedFile.pending w = []
    /\ Http.UploadedFile.processing (Http.UploadedFile.file w) = false)
   \/ (exists to,
         Http.UploadedFile.pending w = [to]
         /\ Http.UploadedFile.processing (Http.UploadedFile.file w) = true
         /\ Http.UploadedFile.moved (Http.UploadedFile.file w) = false))
  /\ (Http.UploadedFile.moved (Http.UploadedFile.file w) = false ->
      Http.UploadedFile.path (Http.UploadedFile.file w) = temp)
  /\ Forall (onPath temp) (Http.UploadedFile.issued w).

(** The details a reply carries. *)
Definition detailsOf (r : Http.Reply) : Http.Details :=
  match r with
  | Http.Json d => d
  | Http.Render _ d => d
  | Http.Send d => d
  end.

(** * Properties *)

Import Js.

(** ** Objects *)

Section ObjectFacts.
Context {V : Type}.
Implicit Types (o : JsObject.t V) (k : string) (v : V).

Lemma get_set_same o k v : JsObject.get (JsObject.set o k v) k = Some v.
Proof.
  induction o as [|[k' v'] rest IH]; simpl.
  - now rewrite String.eqb_refl.
  - destruct (String.eqb k' k) eqn:E; simpl; rewrite E; [reflexivity | exact IH].
Qed.

Lemma get_set_other o k k' v :
  k <> k' -> JsObject.get (JsObject.set o k v) k' = JsObject.get o k'.
Proof.
  intros Hne. induction o as [|[k0 v0] rest IH]; simpl.
  - destruct (String.eqb k k') eqn:E; [apply String.eqb_eq in E; contradiction | reflexivity].
  - destruct (String.eqb k0 k) eqn:E; simpl.
    + apply String.eqb_eq in E. subst k0.
      destruct (String.eqb k k') eqn:E'; [apply String.eqb_eq in E'; contradiction | reflexivity].
    + destruct (String.eqb k0 k'); [reflexivity | exact IH].
Qed.

Lemma get_none_not_in o k :
  JsObject.get o k = None <-> ~ In k (map fst o).
Proof.
  induction o as [|[k' v'] rest IH]; simpl.
  - tauto.
  - destruct (String.eqb k' k) eqn:E.
    + apply String.eqb_eq in E. split; [discriminate | intros H; exfalso; apply H; now left].
    + apply String.eqb_neq in E. rewrite IH. tauto.
Qed.

Lemma set_keys_present o k v :
  In k (map fst o) -> map fst (JsObject.set o k v) = map fst o.
Proof.
  induction o as [|[k' v'] rest IH]; simpl; [tauto|].
  intros Hin. destruct (String.eqb k' k) eqn:E; simpl; [reflexivity|].
  apply String.eqb_neq in E. f_equal. apply IH. destruct Hin; [contradiction | assumption].
Qed.

Lemma set_keys_absent o k v :
  ~ In k (map fst o) -> JsObject.set o k v = (o ++ [(k, v)])%list.
Proof.
  induction o as [|[k' v'] rest IH]; simpl; [reflexivity|].
  intros Hnin. destruct (String.eqb k' k) eqn:E.
  - apply String.eqb_eq in E. exfalso. apply Hnin. now left.
  - f_equal. apply IH. tauto.
Qed.

Lemma get_in o k v : JsObject.get o k = Some v -> In (k, v) o.
Proof.
  induction o as [|[k' v'] rest IH]; simpl; [discriminate|].
  destruct (String.eqb k' k) eqn:E.
  - apply String.eqb_eq in E. intros [= ->]. left. now subst.
  - intros H. right. now apply IH.
Qed.

Lemma in_get o k v :
  JsObject.WF o -> In (k, v) o -> JsObject.get o k = Some v.
Proof.
  unfold JsObject.WF. induction o as [|[k' v'] rest IH]; simpl; [tauto|].
  intros Hnd [Heq | Hin].
  - injection Heq as -> ->. now rewrite String.eqb_refl.
  - inversion Hnd as [|? ? Hnotin Hnd']; subst.
    destruct (String.eqb k' k) eqn:E.
    + apply String.eqb_eq in E. subst k'. exfalso. apply Hnotin.
      change k with (fst (k, v)). now apply in_map.
    + now apply IH.
Qed.

End ObjectFacts.

(** ** The order of for-in *)

Section ObjectOrder.
Import JsObject.

Lemma insertIndexed_perm {A : Type} (n : N) (a : A) (l : list (N * A)) :
  Permutation (insertIndexed n a l) ((n, a) :: l).
Proof.
  induction l as [|[m b] rest IH]; simpl; [reflexivity|].
  destruct (n <=? m)%N; [reflexivity|].
  rewrite IH. apply perm_swap.
Qed.

Lemma entries_perm {V : Type} (o : t V) : Permutation (entries o) o.
Proof.
  unfold entries, named. induction o as [|[k v] rest IH]; simpl; [reflexivity|].
  unfold isArrayIndex. destruct (arrayIndex k) as [n|]; simpl.
  - rewrite (Permutation_map snd (insertIndexed_perm n (k, v) (indexed rest))).
    simpl. now apply perm_skip.
  - rewrite <- Permutation_middle. now apply perm_skip.
Qed.

Lemma entries_in {V : Type} (o : t V) (e : string * V) :
  In e (entries o) <-> In e o.
Proof.
  split; apply Permutation_in; [apply entries_perm | symmetry; apply entries_perm].
Qed.

Lemma entries_WF {V : Type} (o : t V) : WF o -> WF (entries o).
Proof.
  unfold WF. intros H. eapply Permutation_NoDup; [|exact H].
  apply Permutation_map. symmetry. apply entries_perm.
Qed.

(** The order depends on the names alone. *)
Lemma insertIndexed_map {A B : Type} (h : A -> B) (n : N) (a : A)
    (l : list (N * A)) :
  insertIndexed n (h a) (map (fun p => (fst p, h (snd p))) l)
  = map (fun p => (fst p, h (snd p))) (insertIndexed n a l).
Proof.
  induction l as [|[m b] rest IH]; simpl; [reflexivity|].
  destruct (n <=? m)%N; simpl; [reflexivity | now rewrite IH].
Qed.

Lemma indexed_map {V W : Type} (h : string * V -> W) (o : t V) :
  indexed (map (fun e => (fst e, h e)) o)
  = map (fun p => (fst p, (fst (snd p), h (snd p)))) (indexed o).
Proof.
  induction o as [|[k v] rest IH]; simpl; [reflexivity|].
  destruct (arrayIndex k) as [n|]; [|exact IH].
  rewrite IH.
  apply (insertIndexed_map (fun e => (fst e, h e)) n (k, v)).
Qed.

Lemma entries_map {V W : Type} (h : string * V -> W) (o : t V) :
  entries (map (fun e => (fst e, h e)) o)
  = map (fun e => (fst e, h e)) (entries o).
Proof.
  unfold entries, named. rewrite indexed_map, map_app, !map_map. f_equal.
  induction o as [|[k v] rest IH]; simpl; [reflexivity|].
  destruct (isArrayIndex k); simpl; now rewrite IH.
Qed.

Lemma keys_by_names {V : Type} (o : t V) : keys o = forInOrder (map fst o).
Proof.
  unfold forInOrder, keys. rewrite map_map.
  rewrite (entries_map (fun _ => tt) o), map_map. reflexivity.
Qed.

(** The array-index properties come out sorted. *)
Lemma insertIndexed_first {A : Type} (n : N) (a : A) (l : list (N * A)) :
  Forall (fun q => (n <= fst q)%N) l -> insertIndexed n a l = (n, a) :: l.
Proof.
  destruct l as [|[m b] rest]; simpl; [reflexivity|].
  intros H. inversion H as [|? ? Hm _]; subst. simpl in Hm.
  apply N.leb_le in Hm. now rewrite Hm.
Qed.

Lemma insertIndexed_sorted {A : Type} (n : N) (a : A) (l : list (N * A)) :
  StronglySorted byIndex l -> StronglySorted byIndex (insertIndexed n a l).
Proof.
  induction 1 as [|[m b] rest Hs IH Hall]; simpl.
  - repeat constructor.
  - destruct (n <=? m)%N eqn:E.
    + apply N.leb_le in E. constructor; [now constructor|].
      constructor; [exact E|].
      eapply Forall_impl; [|exact Hall]. unfold byIndex. simpl. intros; lia.
    + apply N.leb_gt in E. constructor; [exact IH|].
      eapply Permutation_Forall; [symmetry; apply insertIndexed_perm|].
      constructor; [unfold byIndex; simpl; lia | exact Hall].
Qed.

Lemma indexed_sorted {V : Type} (o : t V) : StronglySorted byIndex (indexed o).
Proof.
  induction o as [|[k v] rest IH]; simpl; [constructor|].
  destruct (arrayIndex k); [now apply insertIndexed_sorted | exact IH].
Qed.

Lemma indexed_names {V : Type} (o : t V) :
  Forall (fun p => arrayIndex (fst (snd p)) = Some (fst p)) (indexed o).
Proof.
  induction o as [|[k v] rest IH]; simpl; [constructor|].
  destruct (arrayIndex k) as [n|] eqn:E; [|exact IH].
  eapply Permutation_Forall; [symmetry; apply insertIndexed_perm|].
  constructor; [exact E | exact IH].
Qed.

Lemma filter_insertIndexed {A : Type} (keep : N * A -> bool) (n : N) (a : A)
    (l : list (N * A)) :
  StronglySorted byIndex l ->
  filter keep (insertIndexed n a l)
  = if keep (n, a) then insertIndexed n a (filter keep l) else filter keep l.
Proof.
  induction 1 as [|[m b] rest Hs IH Hall]; simpl.
  - destruct (keep (n, a)); reflexivity.
  - destruct (n <=? m)%N eqn:E; simpl.
    + apply N.leb_le in E. destruct (keep (n, a)); [|reflexivity].
      symmetry. apply insertIndexed_first.
      destruct (keep (m, b)).
      * constructor; [exact E|]. apply incl_Forall with (l1 := rest);
          [intros x Hx; apply filter_In in Hx; tauto|].
        eapply Forall_impl; [|exact Hall]. unfold byIndex. simpl. intros; lia.
      * apply incl_Forall with (l1 := rest);
          [intros x Hx; apply filter_In in Hx; tauto|].
        eapply Forall_impl; [|exact Hall]. unfold byIndex. simpl. intros; lia.
    + rewrite IH. destruct (keep (m, b)), (keep (n, a)); simpl;
        rewrite ?E; reflexivity.
Qed.

Lemma indexed_filter {V : Type} (keep : string * V -> bool) (o : t V) :
  indexed (filter keep o) = filter (fun p => keep (snd p)) (indexed o).
Proof.
  induction o as [|[k v] rest IH]; simpl; [reflexivity|].
  destruct (arrayIndex k) as [n|] eqn:E.
  - rewrite filter_insertIndexed by apply indexed_sorted. simpl.
    destruct (keep (k, v)); simpl; rewrite ?E, IH; reflexivity.
  - destruct (keep (k, v)); simpl; rewrite ?E; exact IH.
Qed.

(** Deleting properties does not reorder the others. *)
Lemma entries_filter {V : Type} (keep : string * V -> bool) (o : t V) :
  entries (filter keep o) = filter keep (entries o).
Proof.
  unfold entries, named. rewrite indexed_filter, filter_app. f_equal.
  - induction (indexed o) as [|p rest IH]; simpl; [reflexivity|].
    destruct (keep (snd p)); simpl; now rewrite IH.
  - induction o as [|e rest IH]; simpl; [reflexivity|].
    destruct (keep e) eqn:K, (isArrayIndex (fst e)) eqn:I; simpl;
      rewrite ?K, ?I; simpl; rewrite ?IH; reflexivity.
Qed.

Lemma indexed_app_named {V : Type} (a b : t V) :
  Forall (fun e => isArrayIndex (fst e) = false) b ->
  indexed (a ++ b)%list = indexed a.
Proof.
  intros Hb. induction a as [|[k v] rest IH]; simpl.
  - induction Hb as [|[k v] rest Hk _ IH]; simpl; [reflexivity|].
    unfold isArrayIndex in Hk. simpl in Hk.
    destruct (arrayIndex k); [discriminate | exact IH].
  - now rewrite IH.
Qed.

Lemma indexed_of_sorted {V : Type} (l : list (N * (string * V))) :
  StronglySorted byIndex l ->
  Forall (fun p => arrayIndex (fst (snd p)) = Some (fst p)) l ->
  indexed (map snd l) = l.
Proof.
  induction 1 as [|[n [k v]] rest Hs IH Hall]; simpl; [reflexivity|].
  intros Hn. inversion Hn as [|? ? Hk Hrest]; subst. simpl in Hk.
  rewrite Hk, (IH Hrest). apply insertIndexed_first.
  eapply Forall_impl; [|exact Hall]. unfold byIndex. simpl. auto.
Qed.

(** What for-in gives is already in the order of for-in. *)
Lemma entries_idem {V : Type} (o : t V) : entries (entries o) = entries o.
Proof.
  assert (Hnamed : Forall (fun e : string * V => isArrayIndex (fst e) = false)
                     (named o)).
  { apply Forall_forall. intros e He. apply filter_In in He as [_ He].
    now apply negb_true_iff in He. }
  unfold entries at 1. unfold entries at 1.
  rewrite indexed_app_named by exact Hnamed.
  rewrite indexed_of_sorted by (apply indexed_sorted || apply indexed_names).
  unfold entries. f_equal.
  unfold named at 1. rewrite filter_app.
  replace (filter _ (map snd (indexed o))) with (@nil (string * V)).
  - simpl. apply forallb_filter_id. apply forallb_forall.
    intros e He. apply filter_In in He. tauto.
  - symmetry. pose proof (indexed_names o) as Hall.
    induction Hall as [|p rest Hp _ IH]; simpl; [reflexivity|].
    unfold isArrayIndex at 1. rewrite Hp. simpl. exact IH.
Qed.

(** Without array indices, for-in follows the order of creation. *)
Lemma entries_named {V : Type} (o : t V) :
  forallb (fun e => negb (isArrayIndex (fst e))) o = true -> entries o = o.
Proof.
  intros H. unfold entries, named. rewrite (forallb_filter_id _ _ H).
  replace (indexed o) with (@nil (N * (string * V))); [reflexivity|].
  induction o as [|[k v] rest IH]; simpl; [reflexivity|].
  simpl in H. apply andb_true_iff in H as [Hk Hrest].
  unfold isArrayIndex in Hk. destruct (arrayIndex k); [discriminate | auto].
Qed.

Lemma forInOrder_named (names : list string) :
  forallb (fun n => negb (isArrayIndex n)) names = true ->
  forInOrder names = names.
Proof.
  intros H. unfold forInOrder, keys. rewrite entries_named.
  - rewrite map_map. simpl. apply map_id.
  - rewrite forallb_forall in *. intros e He.
    apply in_map_iff in He as (n & <- & Hn). simpl. now apply H.
Qed.

End ObjectOrder.

(** ** The matcher decides the language *)

Section Matcher.
Import RegExp.

Create HintDb re.
Local Hint Constructors Matches : re.

Lemma append_empty_inv (s t : string) :
  (s ++ t)%string = EmptyString -> s = EmptyString /\ t = EmptyString.
Proof. destruct s; simpl; [auto | discriminate]. Qed.

Lemma append_empty_r (s : string) : (s ++ EmptyString)%string = s.
Proof. induction s; simpl; congruence. Qed.

Lemma matches_cat_inv a b s :
  Matches (Cat a b) s ->
  exists s1 s2, s = (s1 ++ s2)%string /\ Matches a s1 /\ Matches b s2.
Proof. inversion 1; subst; eauto. Qed.

Lemma matches_or_inv a b s :
  Matches (Or a b) s -> Matches a s \/ Matches b s.
Proof. inversion 1; subst; auto. Qed.

Lemma matches_sym_inv p s :
  Matches (Sym p) s -> exists c, s = String c EmptyString /\ p c = true.
Proof. inversion 1; subst; eauto. Qed.

Lemma nullable_matches r : nullable r = true <-> Matches r EmptyString.
Proof.
  induction r; simpl.
  - split; [discriminate | inversion 1].
  - split; auto with re.
  - split; [discriminate | inversion 1].
  - rewrite andb_true_iff, IHr1, IHr2. split.
    + intros [H1 H2]. change EmptyString with (EmptyString ++ EmptyString)%string.
      auto with re.
    + intros H. apply matches_cat_inv in H as (s1 & s2 & E & H1 & H2).
      symmetry in E. apply append_empty_inv in E as [-> ->]. auto.
  - rewrite orb_true_iff, IHr1, IHr2. split.
    + intros [H | H]; auto with re.
    + apply matches_or_inv.
  - split; auto with re.
Qed.

Lemma cat_matches a b s : Matches (cat a b) s <-> Matches (Cat a b) s.
Proof.
  assert (Hvoid_l : forall x, Matches (Cat Void x) s -> False).
  { intros x H. apply matches_cat_inv in H as (? & ? & _ & H & _). inversion H. }
  assert (Hvoid_r : forall x, Matches (Cat x Void) s -> False).
  { intros x H. apply matches_cat_inv in H as (? & ? & _ & _ & H). inversion H. }
  assert (Heps_l : forall x, Matches x s <-> Matches (Cat Eps x) s).
  { intros x. split.
    - intros H. change s with (EmptyString ++ s)%string. auto with re.
    - intros H. apply matches_cat_inv in H as (s1 & s2 & -> & H1 & H2).
      inversion H1; subst. exact H2. }
  assert (Heps_r : forall x, Matches x s <-> Matches (Cat x Eps) s).
  { intros x. split.
    - intros H. rewrite <- (append_empty_r s). auto with re.
    - intros H. apply matches_cat_inv in H as (s1 & s2 & -> & H1 & H2).
      inversion H2; subst. now rewrite append_empty_r. }
  destruct a, b; simpl; try tauto; try apply Heps_l; try apply Heps_r;
    (split; [inversion 1 | intros H; exfalso; eauto]).
Qed.

Lemma or_matches a b s : Matches (or a b) s <-> Matches (Or a b) s.
Proof.
  assert (Hl : forall x, Matches x s <-> Matches (Or Void x) s).
  { intros x. split; auto with re. intros H. apply matches_or_inv in H as [H | H]; [inversion H | exact H]. }
  assert (Hr : forall x, Matches x s <-> Matches (Or x Void) s).
  { intros x. split; auto with re. intros H. apply matches_or_inv in H as [H | H]; [exact H | inversion H]. }
  destruct a, b; simpl; try tauto; try apply Hl; try apply Hr.
Qed.

Lemma matches_iter_cons a c s :
  Matches (Iter a) (String c s) ->
  exists s1 s2, s = (s1 ++ s2)%string /\ Matches a (String c s1)
                /\ Matches (Iter a) s2.
Proof.
  intros H. remember (Iter a) as r eqn:Er. remember (String c s) as w eqn:Ew.
  revert Er Ew. induction H; intros Er Ew; try discriminate.
  injection Er as ->. destruct s0 as [|c0 s0]; simpl in Ew.
  - apply IHMatches2; auto.
  - injection Ew as -> <-. eauto.
Qed.

Lemma deriv_matches r : forall c s,
  Matches (deriv c r) s <-> Matches r (String c s).
Proof.
  induction r; intros c s; simpl.
  - split; inversion 1.
  - split; inversion 1.
  - destruct (p c) eqn:E; split; intros H; inversion H; subst; auto with re.
    congruence.
  - rewrite or_matches. split.
    + intros H. apply matches_or_inv in H as [H | H].
      * apply cat_matches, matches_cat_inv in H as (s1 & s2 & -> & H1 & H2).
        apply IHr1 in H1. change (String c (s1 ++ s2)) with (String c s1 ++ s2)%string.
        auto with re.
      * destruct (nullable r1) eqn:N; [|inversion H].
        apply nullable_matches in N. apply IHr2 in H.
        change (String c s) with (EmptyString ++ String c s)%string. auto with re.
    + intros H. apply matches_cat_inv in H as (s1 & s2 & E & H1 & H2).
      destruct s1 as [|c1 s1]; simpl in E.
      * subst s2. apply MOrR. apply nullable_matches in H1. rewrite H1.
        now apply IHr2.
      * injection E as <- ->. apply MOrL, cat_matches. apply IHr1 in H1.
        auto with re.
  - rewrite or_matches. split.
    + intros H. apply matches_or_inv in H as [H | H];
        [apply IHr1 in H | apply IHr2 in H]; auto with re.
    + intros H. apply matches_or_inv in H as [H | H];
        [apply IHr1 in H | apply IHr2 in H]; auto with re.
  - rewrite cat_matches. split.
    + intros H. apply matches_cat_inv in H as (s1 & s2 & -> & H1 & H2).
      apply IHr in H1. change (String c (s1 ++ s2)) with (String c s1 ++ s2)%string.
      auto with re.
    + intros H. apply matches_iter_cons in H as (s1 & s2 & -> & H1 & H2).
      apply IHr in H1. auto with re.
Qed.

(** The matcher accepts exactly the strings of the language. *)
Lemma accepts_matches s : forall r, accepts r s = true <-> Matches r s.
Proof.
  induction s as [|c s IH]; intros r; simpl.
  - apply nullable_matches.
  - rewrite IH. apply deriv_matches.
Qed.

(** test holds exactly of the strings of the language of the pattern. *)
Lemma test_matches r s :
  test (Anchored r) s = true <-> Matches (compile r) s.
Proof. apply accepts_matches. Qed.

End Matcher.

(** ** The predicates *)

(** The pattern [emailRegExp] is the one its source text denotes, and the
    pattern [emailWritten] is the one the text between the backquotes
    denotes. *)
Lemma emailRegExp_source :
  RegExp.printPattern Validation.emailRegExp = Validation.emailSource.
Proof. vm_compute. reflexivity. Qed.

Lemma emailWritten_text :
  RegExp.printPattern Validation.emailWritten
  = (Validation.emailText1 ++ Validation.emailText2)%string.
Proof. vm_compute. reflexivity. Qed.

(** The pattern as written accepts the two addresses and rejects the text
    without an at sign. *)
Lemma emailWritten_examples :
  RegExp.test Validation.emailWritten "user@example.com" = true /\
  RegExp.test Validation.emailWritten "a.b@sub.domain.co" = true /\
  RegExp.test Validation.emailWritten "not-an-email" = false.
Proof. vm_compute. auto. Qed.

(** A string isEmail accepts: an opening character, the characters
    . , ; : s @ and a double quote, a closing bracket, and a domain where
    any character separates the labels. *)
Lemma isEmail_accepts_oddity :
  Validation.isEmail (VString ("x.,;:s@" ++ dq ++ "]@examplexcom")) = true.
Proof. vm_compute. reflexivity. Qed.

(** Whatever isEmail accepts begins with a double quote, or has after its
    first character the characters . , ; : s @, a double quote and a closing
    bracket. *)
Lemma isEmail_shape (s : string) :
  Validation.isEmail (VString s) = true ->
  (exists rest, s = String dquoteChar rest)
  \/ (exists c rest, s = String c (".,;:s@" ++ dq ++ "]" ++ rest)%string).
Proof.
  unfold Validation.isEmail. simpl toString. intros H.
  apply test_matches in H. simpl in H.
  apply matches_cat_inv in H as (local & rest & -> & Hlocal & _).
  apply matches_or_inv in Hlocal as [H | H].
  - right.
    repeat (apply matches_cat_inv in H as (? & ? & -> & ?H & H));
    repeat match goal with
           | M : RegExp.Matches (RegExp.Sym _) _ |- _ =>
               apply matches_sym_inv in M as (? & -> & ?E)
           end.
    apply matches_cat_inv in H8 as (? & ? & -> & H8 & _).
    apply matches_sym_inv in H8 as (? & -> & ?E).
    repeat match goal with
           | E : (_ =? _)%char = true |- _ => apply Ascii.eqb_eq in E; subst
           end.
    simpl. eauto.
  - left. apply matches_cat_inv in H as (? & ? & -> & H & _).
    apply matches_sym_inv in H as (? & -> & E).
    apply Ascii.eqb_eq in E. subst. simpl. eauto.
Qed.

(** C1.  isEmail at the three strings of the claim: user@example.com and
    a.b@sub.domain.co, which the claim has accepted, are rejected, as
    not-an-email is.  The pattern the RegExp constructor builds is not the
    one of the claim: the template literals have taken the backslashes of
    the text away. *)
Theorem isEmail_rejects_addresses :
  Validation.isEmail (VString "user@example.com") = false /\
  Validation.isEmail (VString "a.b@sub.domain.co") = false /\
  Validation.isEmail (VString "not-an-email") = false.
Proof. vm_compute. auto. Qed.

Lemma get_required (this : FieldValidator.t) (message : option string) :
  JsObject.get (FieldValidator.rules (FieldValidator.required this message))
    "required"
  = Some (FieldValidator.predicateRule this "required"
            (fun _ val => negb (Validation.isEmpty val))
            (orElse message Validation.RULE_MESSAGES.required)
            (FieldValidator.labelOnly this)).
Proof. unfold FieldValidator.required. simpl. apply get_set_same. Qed.

Lemma isEmpty_spec (val : Value) :
  Validation.isEmpty val
  = Validation.isNone val
    || (String.length (removeWhiteSpace (toString val)) =? 0)%nat.
Proof.
  unfold Validation.isEmpty. destruct (Validation.isNone val); simpl; [reflexivity|].
  destruct (String.length (removeWhiteSpace (toString val))); reflexivity.
Qed.

(** C2.  The required rule of a field passes exactly when the value of the
    field is neither null nor undefined and its string, all white space
    removed, is not of length zero; a check that runs this rule alone
    reports errors exactly when the rule fails.  The empty string and the
    string of two spaces fail, the string a passes. *)
Theorem required_rule (L : Library) (this : FieldValidator.t)
    (message : option string) (input : Input) :
  let f := FieldValidator.required this message in
  let val := getInput input (FieldValidator.fieldName f) in
  let blank :=
    (String.length (removeWhiteSpace (toString val)) =? 0)%nat in
  (exists r,
      JsObject.get (FieldValidator.rules f) "required" = Some r /\
      FieldValidator.pass L input f r
      = Normal (negb (Validation.isNone val || blank))) /\
  fst (FieldValidator.check L input
         (FieldValidator.required
            (FieldValidator.new L (FieldValidator.fieldName this) None)
            message))
  = Normal (Validation.isNone val || blank) /\
  Validation.isEmpty VUndefined = true /\
  Validation.isEmpty VNull = true /\
  Validation.isEmpty (VString EmptyString) = true /\
  Validation.isEmpty (VString "  ") = true /\
  Validation.isEmpty (VString "a") = false.
Proof.
  intros f val blank. split; [|split].
  - eexists. split; [apply get_required|].
    unfold FieldValidator.pass. simpl. rewrite isEmpty_spec. reflexivity.
  - unfold FieldValidator.check, FieldValidator.required, FieldValidator.setRule.
    simpl. unfold FieldValidator.pass. simpl.
    rewrite isEmpty_spec. subst val blank f. simpl.
    match goal with |- context [negb (negb ?b)] => destruct b end; reflexivity.
  - vm_compute. auto 6.
Qed.

(** toLowerCase gives yes for the eight spellings of yes and for nothing
    else. *)
Lemma lowerChar_inv (c : ascii) (target : ascii) :
  In target ["y"%char; "e"%char; "s"%char] ->
  lowerChar c = target ->
  c = target \/ c = ascii_of_nat (nat_of_ascii target - 32).
Proof.
  intros Ht H.
  destruct Ht as [<- | [<- | [<- | []]]];
    destruct c as [[] [] [] [] [] [] [] []]; vm_compute in H;
    try discriminate; vm_compute; auto.
Qed.

Lemma toLowerCase_yes (s : string) :
  toLowerCase s = "yes" <-> In s yesSpellings.
Proof.
  split.
  - destruct s as [|c1 [|c2 [|c3 [|c4 s]]]]; simpl; try discriminate.
    intros [= H1 H2 H3].
    apply (lowerChar_inv _ "y"%char) in H1; [|simpl; auto].
    apply (lowerChar_inv _ "e"%char) in H2; [|simpl; auto].
    apply (lowerChar_inv _ "s"%char) in H3; [|simpl; auto].
    destruct H1 as [-> | ->], H2 as [-> | ->], H3 as [-> | ->];
      vm_compute; auto 9.
  - intros H. repeat (destruct H as [<- | H]; [reflexivity|]). destruct H.
Qed.

(** C3.  isAccepted is true for a string that is yes in any mix of upper
    and lower case, for the boolean true and for the number 1, and false
    for every other value; on and 0 fail. *)
Theorem isAccepted_exactly (val : Value) :
  (Validation.isAccepted val = true <->
     (exists s, val = VString s /\ In s yesSpellings)
     \/ val = VBool true \/ val = VNumber 1) /\
  Validation.isAccepted (VString "yes") = true /\
  Validation.isAccepted (VString "Yes") = true /\
  Validation.isAccepted (VBool true) = true /\
  Validation.isAccepted (VNumber 1) = true /\
  Validation.isAccepted (VString "on") = false /\
  Validation.isAccepted (VNumber 0) = false.
Proof.
  split; [|vm_compute; auto 7].
  split.
  - destruct val; simpl; try discriminate.
    + destruct b; [auto | discriminate].
    + intros H. apply Z.eqb_eq in H. subst. auto.
    + intros H. apply String.eqb_eq in H. left. exists s. split; [reflexivity|].
      now apply toLowerCase_yes.
  - intros [(s & -> & H) | [-> | ->]]; simpl; auto.
    apply String.eqb_eq. now apply toLowerCase_yes.
Qed.

(** ** A check of one field *)

Section FieldChecks.
Context (L : Library) (input : Input).
Import FieldValidator.

Lemma setErrors_same (f : FieldValidator.t) : setErrors f (errors f) = f.
Proof. now destruct f. Qed.

Lemma raises_pass f r reason :
  raises L input f r reason <-> pass L input f r = Throw (Thrown reason).
Proof.
  unfold raises, pass. split.
  - intros [H | [Ha H]]; rewrite H; [reflexivity | now rewrite Ha].
  - destruct (ValidationRule.handle r L input (fieldName f)) as [res|v].
    + destruct (ValidationRule.async r), res as [b|[b|v]]; try discriminate.
      intros [= ->]. right. auto.
    + intros [= ->]. now left.
Qed.

(** A rule that is not async and returns a promise counts as passing,
    however the promise settles: its rejection is no throw of the call. *)
Lemma unmarked_promise_passes f r p :
  ValidationRule.async r = false ->
  ValidationRule.handle r L input (fieldName f) = Returns (Promised p) ->
  pass L input f r = Normal true.
Proof. intros Ha Hh. unfold pass. now rewrite Hh, Ha. Qed.


(** The loop of check over rules whose predicates complete: the records of
    those that fail are added, in order. *)
Lemma checkRules_prefix ran : forall rest this,
  Forall (completes L input this) ran ->
  checkRules L input (ran ++ rest)%list this
  = checkRules L input rest
      (setErrors this (errors this ++ ruleFailures L input this ran)%list).
Proof.
  induction ran as [|[rule r] ran IH]; intros rest this Hall; simpl.
  - unfold ruleFailures. simpl. now rewrite app_nil_r, setErrors_same.
  - inversion Hall as [|? ? [ok Hok] Hran]; subst. simpl in Hok.
    rewrite Hok. unfold ruleFailures. simpl. unfold fails at 1. rewrite Hok.
    destruct ok; simpl.
    + apply IH. exact Hran.
    + rewrite IH by exact Hran. simpl. unfold addError, failureRecord.
      simpl. rewrite <- app_assoc. reflexivity.
Qed.

Lemma check_completes f :
  Forall (completes L input f) (JsObject.entries (rules f)) ->
  FieldValidator.check L input f
  = (Normal (hasErrors (checked L input f)),
     setErrors f (ruleFailures L input f (JsObject.entries (rules f)))).
Proof.
  intros Hall. unfold checked, FieldValidator.check. simpl.
  assert (E : checkRules L input (JsObject.entries (rules f)) (setErrors f [])
              = (Normal tt,
                 setErrors f
                   (ruleFailures L input f (JsObject.entries (rules f))))).
  { rewrite <- (app_nil_r (JsObject.entries (rules f))) at 1.
    rewrite checkRules_prefix by exact Hall. reflexivity. }
  rewrite E. reflexivity.
Qed.

Lemma check_throws f ran rule r notRun e :
  JsObject.entries (rules f) = (ran ++ (rule, r) :: notRun)%list ->
  Forall (completes L input f) ran ->
  pass L input f r = Throw e ->
  FieldValidator.check L input f
  = (Throw e, setErrors f (ruleFailures L input f ran)).
Proof.
  intros Hsplit Hall Hthrow. unfold FieldValidator.check. simpl.
  rewrite Hsplit, checkRules_prefix by exact Hall. simpl.
  unfold pass in *. simpl. now rewrite Hthrow.
Qed.

(** check reads nothing of the records of an earlier check. *)
Lemma check_rulesOnly f :
  FieldValidator.check L input (rulesOnly f) = FieldValidator.check L input f.
Proof. reflexivity. Qed.

Lemma checkRules_keeps todo : forall this,
  rulesOnly (snd (checkRules L input todo this)) = rulesOnly this.
Proof.
  induction todo as [|[rule r] todo IH]; intros this; simpl; [reflexivity|].
  destruct (pass L input this r) as [ok|e]; [|reflexivity].
  rewrite IH. now destruct ok.
Qed.

(** check changes nothing of a field rule set but its records. *)
Lemma checked_rulesOnly f : rulesOnly (checked L input f) = rulesOnly f.
Proof.
  unfold checked, FieldValidator.check.
  pose proof (checkRules_keeps (JsObject.entries (rules (setErrors f [])))
                (setErrors f [])) as H.
  destruct (checkRules L input _ _) as [[u|e] this']; simpl in *; exact H.
Qed.



End FieldChecks.

(** ** A validation pass *)

Section FormChecks.
Context (L : Library).
Import FormValidator.

(** The loop of validate over fields whose checks return. *)
Lemma validateFields_prefix done : forall rest valid this,
  Forall (settles L (input this)) done ->
  validateFields L (done ++ rest)%list valid this
  = validateFields L rest (valid && allPass L (input this) done)
      {| input := input this;
         fields := rechecked L (input this) done (fields this);
         fieldErrors := stored L (input this) done (fieldErrors this) |}.
Proof.
  induction done as [|[k f] done IH]; intros rest valid this Hall; simpl.
  - rewrite andb_true_r. now destruct this.
  - inversion Hall as [|? ? [b Hb] Hdone]; subst. simpl in Hb.
    assert (Ef : checked L (input this) f
                 = snd (FieldValidator.check L (input this) f)) by reflexivity.
    destruct (FieldValidator.check L (input this) f) as [result f'].
    simpl in Hb, Ef. subst result. rewrite Ef.
    destruct (FieldValidator.hasErrors f') eqn:H; simpl;
      rewrite IH by exact Hdone; simpl.
    + now rewrite andb_false_r.
    + reflexivity.
Qed.

Lemma stored_reported input fs : forall errs,
  NoDup (map fst fs) ->
  (forall k, In k (map fst fs) -> ~ In k (map fst errs)) ->
  stored L input fs errs = (errs ++ reported L input fs)%list.
Proof.
  unfold reported, stored.
  induction fs as [|[k f] fs IH]; intros errs Hnd Hfresh; simpl.
  - now rewrite app_nil_r.
  - inversion Hnd as [|? ? Hk Hnd']; subst.
    destruct (FieldValidator.hasErrors (checked L input f)); simpl.
    + rewrite set_keys_absent by (apply Hfresh; now left).
      rewrite IH; [now rewrite <- app_assoc | exact Hnd' |].
      intros k' Hin. rewrite map_app, in_app_iff. simpl.
      intros [H | [<- | []]]; [|contradiction].
      apply (Hfresh k'); [now right | exact H].
    + apply IH; [exact Hnd'|]. intros k' Hin. apply Hfresh. now right.
Qed.

Lemma rechecked_other input fs k : forall o,
  ~ In k (map fst fs) ->
  JsObject.get (rechecked L input fs o) k = JsObject.get o k.
Proof.
  induction fs as [|[k' f] fs IH]; intros o Hnot; simpl; [reflexivity|].
  unfold rechecked in *. simpl. rewrite IH.
  - apply get_set_other. intros ->. apply Hnot. now left.
  - intros H. apply Hnot. now right.
Qed.

(** A pass in which every check returns: the result is true exactly when
    no field is left with records, and the error map is made of the entries
    of the fields with records, whatever it was before. *)
Lemma validate_completes this :
  JsObject.WF (fields this) ->
  Forall (settles L (input this)) (JsObject.entries (fields this)) ->
  validate L this
  = (Normal (allPass L (input this) (JsObject.entries (fields this))),
     {| input := input this;
        fields := rechecked L (input this) (JsObject.entries (fields this))
                    (fields this);
        fieldErrors := reported L (input this)
                         (JsObject.entries (fields this)) |}).
Proof.
  intros Hwf Hall. unfold validate. simpl.
  rewrite <- (app_nil_r (JsObject.entries (fields this))) at 1.
  rewrite validateFields_prefix by exact Hall. simpl.
  rewrite stored_reported; [reflexivity | apply entries_WF, Hwf | simpl; tauto].
Qed.

(** A pass in which the check of a field throws. *)
Lemma validate_throws this done k f rest e :
  JsObject.WF (fields this) ->
  JsObject.entries (fields this) = (done ++ (k, f) :: rest)%list ->
  Forall (settles L (input this)) done ->
  fst (FieldValidator.check L (input this) f) = Throw e ->
  validate L this
  = (Throw e,
     {| input := input this;
        fields := JsObject.set (rechecked L (input this) done (fields this))
                    k (checked L (input this) f);
        fieldErrors := reported L (input this) done |}).
Proof.
  intros Hwf Hsplit Hall Hthrow. unfold validate. simpl.
  rewrite Hsplit, validateFields_prefix by exact Hall. simpl.
  assert (Ef : checked L (input this) f
               = snd (FieldValidator.check L (input this) f)) by reflexivity.
  destruct (FieldValidator.check L (input this) f) as [result f'].
  simpl in Hthrow, Ef. subst result. rewrite Ef. simpl.
  rewrite stored_reported; [reflexivity | | simpl; tauto].
  apply entries_WF in Hwf. unfold JsObject.WF in Hwf.
  rewrite Hsplit, map_app in Hwf. now apply NoDup_app_remove_r in Hwf.
Qed.



End FormChecks.

(** ** validate and validateAndThrow *)

Lemma NoDup_app_apart {A : Type} (l1 l2 : list A) (a : A) :
  NoDup (l1 ++ l2)%list -> In a l1 -> ~ In a l2.
Proof.
  induction l1 as [|x l1 IH]; simpl; [tauto|].
  intros Hnd Hin Hin2. inversion Hnd as [|? ? Hx Hnd']; subst.
  destruct Hin as [-> | Hin].
  - apply Hx, in_or_app. now right.
  - exact (IH Hnd' Hin Hin2).
Qed.

Lemma distinct_NoDup (names : list string) :
  distinct names = true -> NoDup names.
Proof.
  induction names as [|n rest IH]; simpl; [constructor|].
  intros H. apply andb_true_iff in H as [Hn Hrest]. constructor; [|auto].
  intros Hin. apply negb_true_iff in Hn.
  assert (existsb (String.eqb n) rest = true); [|congruence].
  apply existsb_exists. exists n. split; [exact Hin | apply String.eqb_refl].
Qed.

Lemma distinct_WF {V : Type} (o : JsObject.t V) :
  distinct (map fst o) = true -> JsObject.WF o.
Proof. apply distinct_NoDup. Qed.


(** ** Predicates that throw *)

(** C8.  When the predicate of a rule throws, or is async and rejects,
    while validate is checking a field, validate raises what was thrown.
    The field is left with the records of the rules that ran before and
    none for the rule that threw, the fields that come after keep what they
    had, and the error map holds the entries of the fields checked
    before. *)
Theorem predicate_exception_aborts (L : Library) (this : FormValidator.t)
    (done : list (string * FieldValidator.t)) (fieldName : string)
    (f : FieldValidator.t) (notChecked : list (string * FieldValidator.t))
    (ran : list (string * ValidationRule.t)) (rule : string)
    (r : ValidationRule.t) (notRun : list (string * ValidationRule.t))
    (reason : Value) :
  JsObject.WF (FormValidator.fields this) ->
  JsObject.entries (FormValidator.fields this)
  = (done ++ (fieldName, f) :: notChecked)%list ->
  Forall (settles L (FormValidator.input this)) done ->
  JsObject.entries (FieldValidator.rules f)
  = (ran ++ (rule, r) :: notRun)%list ->
  Forall (completes L (FormValidator.input this) f) ran ->
  raises L (FormValidator.input this) f r reason ->
  FieldValidator.check L (FormValidator.input this) f
  = (Throw (Thrown reason),
     FieldValidator.setErrors f
       (ruleFailures L (FormValidator.input this) f ran))
  /\ fst (FormValidator.validate L this) = Throw (Thrown reason)
  /\ JsObject.get (FormValidator.fields (snd (FormValidator.validate L this)))
       fieldName
     = Some (FieldValidator.setErrors f
               (ruleFailures L (FormValidator.input this) f ran))
  /\ Forall (fun e =>
               JsObject.get
                 (FormValidator.fields (snd (FormValidator.validate L this)))
                 (fst e)
               = Some (snd e)) notChecked
  /\ FormValidator.getErrors (snd (FormValidator.validate L this))
     = reported L (FormValidator.input this) done.
Proof.
  intros Hwf Hfields Hdone Hrules Hran Hraises.
  apply raises_pass in Hraises.
  pose proof (check_throws L _ f ran rule r notRun _ Hrules Hran Hraises) as Hcheck.
  assert (Hfst : fst (FieldValidator.check L (FormValidator.input this) f)
                 = Throw (Thrown reason)) by now rewrite Hcheck.
  rewrite (validate_throws L this done fieldName f notChecked _ Hwf Hfields Hdone Hfst).
  simpl. unfold checked. rewrite Hcheck. simpl.
  pose proof (entries_WF _ Hwf) as Hnd. unfold JsObject.WF in Hnd.
  rewrite Hfields, map_app in Hnd. simpl in Hnd.
  split; [reflexivity|]. split; [reflexivity|]. split; [apply get_set_same|].
  split; [|reflexivity].
  apply Forall_forall. intros [k g] Hin. simpl.
  assert (Hk : In k (map fst notChecked)).
  { change k with (fst (k, g)). now apply in_map. }
  rewrite get_set_other.
  - rewrite rechecked_other.
    + apply in_get; [exact Hwf|]. apply entries_in. rewrite Hfields.
      apply in_or_app. right. now right.
    + intros Hdup. apply NoDup_remove_1 in Hnd.
      exact (NoDup_app_apart _ _ _ Hnd Hdup Hk).
  - intros <-. apply NoDup_remove_2 in Hnd. apply Hnd.
    apply in_or_app. now right.
Qed.

Lemma predicate_exception_aborts_witness :
  let this := Sample.guarded in
  let reason := VString "store closed" in
  let ran := [("email",
               FieldValidator.predicateRule
                 (FieldValidator.new Sample.library "email" None) "email"
                 (fun _ => Validation.isEmail) Validation.RULE_MESSAGES.email
                 [("label", "email")])] in
  JsObject.WF (FormValidator.fields this) /\
  JsObject.entries (FormValidator.fields this)
  = ([("name", Sample.nameField)] ++ ("email", Sample.emailField)
       :: [("age", Sample.ageField)])%list /\
  Forall (settles Sample.library (FormValidator.input this))
    [("name", Sample.nameField)] /\
  JsObject.entries (FieldValidator.rules Sample.emailField)
  = (ran ++ ("unique", Sample.unique) :: [])%list /\
  Forall (completes Sample.library (FormValidator.input this)
            Sample.emailField) ran /\
  raises Sample.library (FormValidator.input this) Sample.emailField
    Sample.unique reason /\
  fst (FormValidator.validate Sample.library this) = Throw (Thrown reason) /\
  FormValidator.getErrors (snd (FormValidator.validate Sample.library this))
  = reported Sample.library (FormValidator.input this)
      [("name", Sample.nameField)].
Proof.
  intros this reason ran.
  assert (H1 : JsObject.WF (FormValidator.fields this))
    by (apply distinct_WF; reflexivity).
  assert (H2 : JsObject.entries (FormValidator.fields this)
               = ([("name", Sample.nameField)] ++ ("email", Sample.emailField)
                    :: [("age", Sample.ageField)])%list) by reflexivity.
  assert (H3 : Forall (settles Sample.library (FormValidator.input this))
                 [("name", Sample.nameField)])
    by (repeat constructor; eexists; vm_compute; reflexivity).
  assert (H4 : JsObject.entries (FieldValidator.rules Sample.emailField)
               = (ran ++ ("unique", Sample.unique) :: [])%list) by reflexivity.
  assert (H5 : Forall (completes Sample.library (FormValidator.input this)
                         Sample.emailField) ran)
    by (repeat constructor; eexists; vm_compute; reflexivity).
  assert (H6 : raises Sample.library (FormValidator.input this)
                 Sample.emailField Sample.unique reason)
    by (right; split; reflexivity).
  pose proof (predicate_exception_aborts Sample.library this _ _ _ _ _ _ _ _ _
                H1 H2 H3 H4 H5 H6) as (_ & Hthrow & _ & _ & Herrs).
  repeat split; assumption.
Defined.

(** ** The date rules *)

Lemma get_after (L : Library) this date message :
  JsObject.get (FieldValidator.rules (FieldValidator.after L this date message))
    "after"
  = Some (FieldValidator.predicateRule this "after"
            (fun now val => Validation.isAfter now (Moment.OfValue val)
                              (FieldValidator.coerce L date))
            (orElse message Validation.RULE_MESSAGES.after)
            (FieldValidator.datedAttrs L this (FieldValidator.coerce L date))).
Proof. unfold FieldValidator.after. simpl. apply get_set_same. Qed.

Lemma get_afterOrEqual (L : Library) this date message :
  JsObject.get
    (FieldValidator.rules (FieldValidator.afterOrEqual L this date message))
    "afterOrEqual"
  = Some (FieldValidator.predicateRule this "afterOrEqual"
            (fun now val => Validation.isAfterOrEqual now (Moment.OfValue val)
                              (FieldValidator.coerce L date))
            (orElse message Validation.RULE_MESSAGES.afterOrEqual)
            (FieldValidator.datedAttrs L this (FieldValidator.coerce L date))).
Proof. unfold FieldValidator.afterOrEqual. simpl. apply get_set_same. Qed.

(** C9.  When the value of the field parses to the date [d], at the time
    the rule is checked, and the bound is, or parses to, the date [b], at
    the time the rule method is called: the after rule passes exactly when
    d is greater than b, so that equal dates fail, and the afterOrEqual
    rule passes exactly when d is greater than or equal to b, so that equal
    dates pass.  The rule holds the bound as a moment: a bound that is not
    one is parsed when the rule is attached, and the date attribute of the
    message is the string of that moment. *)
Theorem after_rules (L0 L : Library) (this : FieldValidator.t)
    (date : Moment.Input) (message : option string) (input : Input)
    (d b : Z) :
  parseDate L (getInput input (FieldValidator.fieldName this)) = Some d ->
  Moment.create (parseDate L0) date = Some b ->
  (exists r,
      JsObject.get
        (FieldValidator.rules (FieldValidator.after L0 this date message))
        "after" = Some r /\
      FieldValidator.pass L input
        (FieldValidator.after L0 this date message) r
      = Normal (b <? d)%Z /\
      JsObject.get (ValidationRule.attrs r) "date"
      = Some (formatDate L0 (Some b))) /\
  (exists r,
      JsObject.get
        (FieldValidator.rules
           (FieldValidator.afterOrEqual L0 this date message))
        "afterOrEqual" = Some r /\
      FieldValidator.pass L input
        (FieldValidator.afterOrEqual L0 this date message) r
      = Normal (b <=? d)%Z /\
      JsObject.get (ValidationRule.attrs r) "date"
      = Some (formatDate L0 (Some b))) /\
  FieldValidator.coerce L0 date = Moment.OfMoment (Some b) /\
  (forall v, FieldValidator.coerce L0 (Moment.OfValue v)
             = Moment.OfMoment (parseDate L0 v)) /\
  (forall m, FieldValidator.coerce L0 (Moment.OfMoment m) = Moment.OfMoment m).
Proof.
  intros Hd Hb.
  assert (Hc : FieldValidator.coerce L0 date = Moment.OfMoment (Some b)).
  { destruct date as [m|v]; simpl in *; unfold FieldValidator.coerce; simpl;
      now rewrite Hb. }
  repeat split; try reflexivity; try exact Hc.
  - eexists. split; [apply get_after|]. rewrite Hc. split; [|reflexivity].
    unfold FieldValidator.pass. simpl.
    unfold Validation.isAfter, Moment.isAfter, Moment.compareWith. simpl.
    rewrite Hd. now rewrite Z.gtb_ltb.
  - eexists. split; [apply get_afterOrEqual|]. rewrite Hc. split; [|reflexivity].
    unfold FieldValidator.pass. simpl.
    unfold Validation.isAfterOrEqual, Moment.isSameOrAfter, Moment.isSame,
      Moment.isAfter, Moment.compareWith. simpl.
    rewrite Hd. f_equal.
    destruct (Z.eqb_spec d b), (Z.gtb_spec d b), (Z.leb_spec b d);
      simpl; try reflexivity; lia.
Qed.

Lemma after_rules_witness :
  let input := [("when", VNumber 7)] in
  let date := Moment.OfValue (VNumber 5) in
  parseDate Sample.library
    (getInput input (FieldValidator.fieldName Sample.whenField)) = Some 7%Z /\
  Moment.create (parseDate Sample.library) date = Some 5%Z /\
  (exists r,
      JsObject.get
        (FieldValidator.rules
           (FieldValidator.after Sample.library Sample.whenField date None))
        "after" = Some r /\
      FieldValidator.pass Sample.library input
        (FieldValidator.after Sample.library Sample.whenField date None) r
      = Normal true /\
      JsObject.get (ValidationRule.attrs r) "date" = Some "5").
Proof.
  intros input date.
  split; [reflexivity|]. split; [reflexivity|].
  exact (proj1 (after_rules Sample.library Sample.library Sample.whenField
                  date None input 7%Z 5%Z eq_refl eq_refl)).
Defined.

(** ** Validating twice *)

Section Twice.
Context (L : Library).
Import FormValidator.

Lemma validateFields_input todo : forall valid this,
  input (snd (validateFields L todo valid this)) = input this.
Proof.
  induction todo as [|[k f] todo IH]; intros valid this; simpl; [reflexivity|].
  destruct (FieldValidator.check L (input this) f) as [[b|e] f']; simpl;
    [|reflexivity].
  destruct (FieldValidator.hasErrors f'); now rewrite IH.
Qed.

(** The result and the error map of the loop depend on the fields as they
    are without their records. *)
Lemma validateFields_bare todo : forall todo' valid this this',
  map bare todo = map bare todo' ->
  input this = input this' ->
  fieldErrors this = fieldErrors this' ->
  fst (validateFields L todo valid this)
  = fst (validateFields L todo' valid this')
  /\ fieldErrors (snd (validateFields L todo valid this))
     = fieldErrors (snd (validateFields L todo' valid this')).
Proof.
  induction todo as [|[k f] todo IH]; intros [|[k' f'] todo'] valid this this';
    simpl; try discriminate; [auto|].
  intros Hmap Hin Herrs. injection Hmap as <- Hn Hl Hr Htodo.
  assert (Hf : rulesOnly f = rulesOnly f')
    by (unfold rulesOnly, FieldValidator.setErrors; congruence).
  rewrite <- Hin.
  change (FieldValidator.check L (input this) f)
    with (FieldValidator.check L (input this) (rulesOnly f)).
  change (FieldValidator.check L (input this) f')
    with (FieldValidator.check L (input this) (rulesOnly f')).
  rewrite <- Hf.
  destruct (FieldValidator.check L (input this) (rulesOnly f)) as [[b|e] g];
    simpl; [|auto].
  destruct (FieldValidator.hasErrors g); apply IH; simpl; congruence.
Qed.

Lemma bare_set (o : JsObject.t FieldValidator.t) k g v :
  JsObject.get o k = Some g -> rulesOnly g = rulesOnly v ->
  map bare (JsObject.set o k v) = map bare o.
Proof.
  induction o as [|[k' v'] rest IH]; simpl; [discriminate|].
  destruct (String.eqb k' k); simpl.
  - intros [= ->] H. unfold bare. simpl. now rewrite H.
  - intros Hg H. now rewrite IH.
Qed.

(** The loop leaves the fields as they are, but for their records. *)
Lemma validateFields_fields todo : forall valid this,
  (forall e, In e todo ->
     exists g, JsObject.get (fields this) (fst e) = Some g
               /\ rulesOnly g = rulesOnly (snd e)) ->
  map bare (fields (snd (validateFields L todo valid this)))
  = map bare (fields this).
Proof.
  induction todo as [|[k f] todo IH]; intros valid this Hall; simpl;
    [reflexivity|].
  pose proof (checked_rulesOnly L (input this) f) as Hkeep. unfold checked in Hkeep.
  destruct (Hall (k, f) (or_introl eq_refl)) as (g & Hg & Hgf). simpl in Hg, Hgf.
  destruct (FieldValidator.check L (input this) f) as [result f']. simpl in Hkeep.
  assert (Hset : map bare (JsObject.set (fields this) k f')
                 = map bare (fields this)).
  { apply (bare_set _ _ g); congruence. }
  assert (Hrest : forall e, In e todo ->
            exists g', JsObject.get (JsObject.set (fields this) k f') (fst e)
                       = Some g' /\ rulesOnly g' = rulesOnly (snd e)).
  { intros [k2 f2] He. destruct (Hall _ (or_intror He)) as (g' & Hg' & Hge).
    simpl in *. destruct (String.eqb_spec k k2) as [<- | Hne].
    - rewrite get_set_same. exists f'. split; [reflexivity|].
      rewrite Hg in Hg'. injection Hg' as <-. congruence.
    - rewrite get_set_other by exact Hne. eauto. }
  destruct result as [b|e]; simpl; [|exact Hset].
  destruct (FieldValidator.hasErrors f'); rewrite IH; simpl; auto.
Qed.

Lemma validate_fields this :
  JsObject.WF (fields this) ->
  map bare (fields (snd (validate L this))) = map bare (fields this).
Proof.
  intros Hwf. unfold validate. rewrite validateFields_fields; [reflexivity|].
  simpl. intros [k f] Hin. exists f. split; [|reflexivity].
  apply in_get; [exact Hwf | now apply entries_in].
Qed.

Lemma validate_names this :
  JsObject.WF (fields this) ->
  map fst (fields (snd (validate L this))) = map fst (fields this).
Proof.
  intros Hwf. pose proof (validate_fields this Hwf) as H.
  apply (f_equal (map fst)) in H. now rewrite !map_map in H.
Qed.

Lemma validate_bare this this' :
  map bare (fields this) = map bare (fields this') ->
  input this = input this' ->
  fst (validate L this) = fst (validate L this')
  /\ fieldErrors (snd (validate L this)) = fieldErrors (snd (validate L this')).
Proof.
  intros Hfields Hinput. unfold validate.
  apply validateFields_bare; simpl; [|exact Hinput | reflexivity].
  change bare with (fun e : string * FieldValidator.t =>
                      (fst e, (fun e => rulesOnly (snd e)) e)) in *.
  rewrite <- !entries_map. f_equal. exact Hfields.
Qed.

End Twice.

Section TwoTimes.
Context (L1 L2 : Library).
Hypothesis template_same :
  forall message attrs, template L1 message attrs = template L2 message attrs.

Lemma pass_fieldName (L : Library) (input : Input) (a b : FieldValidator.t)
    (r : ValidationRule.t) :
  FieldValidator.fieldName a = FieldValidator.fieldName b ->
  FieldValidator.pass L input a r = FieldValidator.pass L input b r.
Proof. unfold FieldValidator.pass. now intros ->. Qed.

Lemma checkRules_agree (input : Input) (f : FieldValidator.t) todo :
  forall this,
  FieldValidator.fieldName this = FieldValidator.fieldName f ->
  Forall (fun re => FieldValidator.pass L1 input f (snd re)
                    = FieldValidator.pass L2 input f (snd re)) todo ->
  FieldValidator.checkRules L1 input todo this
  = FieldValidator.checkRules L2 input todo this.
Proof.
  induction todo as [|[rule r] todo IH]; intros this Hname Hall; simpl;
    [reflexivity|].
  inversion Hall as [|? ? Hr Hrest]; subst. simpl in Hr.
  rewrite (pass_fieldName L1 input this f r Hname),
          (pass_fieldName L2 input this f r Hname), Hr.
  destruct (FieldValidator.pass L2 input f r) as [ok|e]; [|reflexivity].
  destruct ok; simpl; [now apply IH|].
  unfold FieldValidator.addError. rewrite template_same.
  apply IH; [exact Hname | exact Hrest].
Qed.

Lemma check_agree (input : Input) (f : FieldValidator.t) :
  agreeOn L1 L2 input f ->
  FieldValidator.check L1 input f = FieldValidator.check L2 input f.
Proof.
  intros Hall. unfold FieldValidator.check.
  rewrite (checkRules_agree input f); [reflexivity | reflexivity |].
  unfold agreeOn in Hall. rewrite Forall_forall in *. intros re Hre.
  apply Hall. exact (proj1 (entries_in _ _) Hre).
Qed.

Lemma validateFields_agree todo : forall valid this,
  Forall (fun e => agreeOn L1 L2 (FormValidator.input this) (snd e)) todo ->
  FormValidator.validateFields L1 todo valid this
  = FormValidator.validateFields L2 todo valid this.
Proof.
  induction todo as [|[k f] todo IH]; intros valid this Hall; simpl;
    [reflexivity|].
  inversion Hall as [|? ? Hf Hrest]; subst. simpl in Hf.
  rewrite (check_agree _ f Hf).
  destruct (FieldValidator.check L2 (FormValidator.input this) f)
    as [[b|e] f']; simpl; [|reflexivity].
  destruct (FieldValidator.hasErrors f'); apply IH; exact Hrest.
Qed.

(** A validator the libraries answer the same at two times is validated
    the same at both. *)
Lemma validate_agree (this : FormValidator.t) :
  Forall (fun e => agreeOn L1 L2 (FormValidator.input this) (snd e))
    (FormValidator.fields this) ->
  FormValidator.validate L1 this = FormValidator.validate L2 this.
Proof.
  intros Hall. unfold FormValidator.validate.
  apply validateFields_agree. simpl.
  rewrite Forall_forall in *. intros e He. apply Hall.
  exact (proj1 (entries_in _ _) He).
Qed.

End TwoTimes.

(** A rule a rule method has stored answers the same at two times when
    the value it is asked about parses to the same date at both: the bound
    was parsed when the method was called. *)
Lemma builtin_agree (L0 L1 L2 : Library) (input : Input) (name : string)
    (r : ValidationRule.t) :
  builtin L0 r ->
  parseDate L1 (getInput input name) = parseDate L2 (getInput input name) ->
  ValidationRule.handle r L1 input name = ValidationRule.handle r L2 input name.
Proof.
  intros (f & m & Hget) Hparse.
  destruct m; simpl in Hget; rewrite get_set_same in Hget;
    injection Hget as <-; simpl; try reflexivity;
    unfold Validation.isAfter, Validation.isAfterOrEqual, Validation.isBefore,
      Validation.isBeforeOrEqual, Validation.isDate, Moment.isSameOrAfter,
      Moment.isSameOrBefore, Moment.isSame, Moment.isAfter, Moment.isBefore,
      Moment.compareWith, FieldValidator.coerce; simpl; rewrite Hparse;
    try reflexivity; destruct date; reflexivity.
Qed.

(** C5, amended.  Two calls of validate in a row, nothing touched in
    between, give the same result, be it a boolean or a throw, and leave
    the same error map, when the libraries answer the validator the same at
    the times of the two calls: the second call reads nothing of what the
    first has left. *)
Theorem validate_twice (L1 L2 : Library) (this : FormValidator.t) :
  JsObject.WF (FormValidator.fields this) ->
  sameAnswers L1 L2 this ->
  let first := FormValidator.validate L1 this in
  let second := FormValidator.validate L2 (snd first) in
  fst second = fst first
  /\ FormValidator.getErrors (snd second)
     = FormValidator.getErrors (snd first).
Proof.
  intros Hwf [Htemplate Hsame] first second.
  pose proof (validate_fields L1 this Hwf) as Hfields. fold first in Hfields.
  assert (Hinput : FormValidator.input (snd first) = FormValidator.input this)
    by (unfold first, FormValidator.validate;
        now rewrite validateFields_input).
  destruct (validate_bare L2 (snd first) this Hfields Hinput) as [Hres Herrs].
  change (fst (FormValidator.validate L2 (snd first)) = fst first
          /\ FormValidator.fieldErrors
               (snd (FormValidator.validate L2 (snd first)))
             = FormValidator.fieldErrors (snd first)).
  rewrite Hres, Herrs. unfold first.
  rewrite (validate_agree L1 L2 Htemplate this Hsame).
  split; reflexivity.
Qed.

Lemma validate_twice_witness :
  let this :=
    run (Sample.libraryAt 0) [("when", VNumber 7)]
      [OnField "when" None
         [After (Moment.OfValue (VNumber 9)) None; Required None]] in
  JsObject.WF (FormValidator.fields this)
  /\ sameAnswers (Sample.libraryAt 0) (Sample.libraryAt 10) this
  /\ fst (FormValidator.validate (Sample.libraryAt 10)
            (snd (FormValidator.validate (Sample.libraryAt 0) this)))
     = fst (FormValidator.validate (Sample.libraryAt 0) this).
Proof.
  intros this.
  assert (H : JsObject.WF (FormValidator.fields this))
    by (apply distinct_WF; reflexivity).
  assert (Hsame : sameAnswers (Sample.libraryAt 0) (Sample.libraryAt 10) this)
    by (split; [intros; reflexivity | repeat constructor]).
  split; [exact H|]. split; [exact Hsame|].
  exact (proj1 (validate_twice (Sample.libraryAt 0) (Sample.libraryAt 10)
                  this H Hsame)).
Defined.

(** The claim as it stands fails: a field the input lacks, with the rule
    after, is checked against the time of the call; validate returns false
    when the clock reads 0 and true when it reads 10, the input and the
    rules being the same. *)
Lemma validate_twice_counterexample :
  let this :=
    run (Sample.libraryAt 0) []
      [OnField "when" None [After (Moment.OfValue (VNumber 5)) None]] in
  let first := FormValidator.validate (Sample.libraryAt 0) this in
  let second := FormValidator.validate (Sample.libraryAt 10) (snd first) in
  FormValidator.input (snd first) = FormValidator.input this
  /\ map bare (FormValidator.fields (snd first))
     = map bare (FormValidator.fields this)
  /\ fst first = Normal false
  /\ fst second = Normal true
  /\ FormValidator.getErrors (snd first)
     = [("when",
         [{| FieldValidationError.rule := "after";
             FieldValidationError.message :=
               "The when must be a date after 5." |}])]
  /\ FormValidator.getErrors (snd second) = [].
Proof. repeat split. Qed.

(** ** The validators programs build *)

Section FirstOccurrences.

Lemma existsb_eqb_in (n : string) (l : list string) :
  existsb (String.eqb n) l = true <-> In n l.
Proof.
  rewrite existsb_exists. split.
  - intros (x & Hin & E). apply String.eqb_eq in E. now subst.
  - intros H. exists n. split; [exact H | apply String.eqb_refl].
Qed.

Lemma addOnce_in (seen : list string) (n x : string) :
  In x (addOnce seen n) <-> In x seen \/ x = n.
Proof.
  unfold addOnce. destruct (existsb (String.eqb n) seen) eqn:E.
  - apply existsb_eqb_in in E. split; [auto | intros [H | ->]; auto].
  - rewrite in_app_iff. simpl. intuition.
Qed.

Lemma addOnce_NoDup (seen : list string) (n : string) :
  NoDup seen -> NoDup (addOnce seen n).
Proof.
  intros H. unfold addOnce. destruct (existsb (String.eqb n) seen) eqn:E;
    [exact H|].
  apply NoDup_app; [exact H | repeat constructor; auto | ].
  intros a Ha [<- | []].
  apply existsb_eqb_in in Ha. congruence.
Qed.

Lemma fold_addOnce_NoDup (l : list string) : forall seen,
  NoDup seen -> NoDup (fold_left addOnce l seen).
Proof.
  induction l as [|n l IH]; intros seen H; simpl; [exact H|].
  apply IH, addOnce_NoDup, H.
Qed.

Lemma fold_addOnce_in (l : list string) (x : string) : forall seen,
  In x (fold_left addOnce l seen) <-> In x seen \/ In x l.
Proof.
  induction l as [|n l IH]; intros seen; simpl; [tauto|].
  rewrite IH, addOnce_in. intuition.
Qed.

Lemma firstOccurrences_NoDup (l : list string) : NoDup (firstOccurrences l).
Proof. apply fold_addOnce_NoDup. constructor. Qed.

Lemma firstOccurrences_in (l : list string) (x : string) :
  In x (firstOccurrences l) <-> In x l.
Proof. unfold firstOccurrences. rewrite fold_addOnce_in. simpl. tauto. Qed.

Lemma firstOccurrences_app (l1 l2 : list string) :
  firstOccurrences (l1 ++ l2)%list
  = fold_left addOnce l2 (firstOccurrences l1).
Proof. apply fold_left_app. Qed.

Lemma set_names {V : Type} (o : JsObject.t V) (k : string) (v : V) :
  map fst (JsObject.set o k v) = addOnce (map fst o) k.
Proof.
  unfold addOnce. destruct (existsb (String.eqb k) (map fst o)) eqn:E.
  - apply set_keys_present. now apply existsb_eqb_in.
  - rewrite set_keys_absent, map_app; [reflexivity|].
    intros H. apply existsb_eqb_in in H. congruence.
Qed.

End FirstOccurrences.

Section Programs.
Context (L : Library).

Lemma run_snoc input program s :
  run L input (program ++ [s])%list = exec L (run L input program) s.
Proof. unfold run. now rewrite fold_left_app. Qed.

Lemma read_own {V : Type} (o : JsObject.t V) (k : string) :
  JsObject.isInherited k = false ->
  JsObject.read o k
  = match JsObject.get o k with
    | Some v => JsObject.Own v
    | None => JsObject.Missing
    end.
Proof.
  unfold JsObject.isInherited, JsObject.read. intros H.
  destruct (JsObject.get o k); [reflexivity|].
  now destruct (JsObject.inherited k).
Qed.

Lemma read_inherited {V : Type} (o : JsObject.t V) (k : string) :
  JsObject.get o k = None ->
  JsObject.read o k
  = match JsObject.inherited k with
    | Some m => JsObject.Inherited m
    | None => JsObject.Missing
    end.
Proof. unfold JsObject.read. now intros ->. Qed.

Lemma referenced_snoc program s :
  referenced (program ++ [s])%list
  = (referenced program
       ++ match s with
          | OnField n _ _ => if JsObject.isInherited n then [] else [n]
          | Validate => []
          end)%list.
Proof.
  unfold referenced. rewrite flat_map_app. simpl. now rewrite app_nil_r.
Qed.

Lemma firstReferenced_snoc program s :
  firstReferenced (program ++ [s])%list
  = match s with
    | OnField n _ _ =>
        if JsObject.isInherited n then firstReferenced program
        else addOnce (firstReferenced program) n
    | Validate => firstReferenced program
    end.
Proof.
  unfold firstReferenced. rewrite referenced_snoc, firstOccurrences_app.
  destruct s as [n l ms|]; [|reflexivity].
  now destruct (JsObject.isInherited n).
Qed.

(** No name inherited from Object.prototype is the name of a field. *)
Lemma referenced_own program n :
  In n (referenced program) -> JsObject.isInherited n = false.
Proof.
  unfold referenced. intros H. apply in_flat_map in H as (s & _ & H).
  destruct s as [k l ms|]; [|destruct H].
  destruct (JsObject.isInherited k) eqn:E; [destruct H|].
  destruct H as [<- | []]. exact E.
Qed.

Lemma attached_snoc program s k :
  attached (program ++ [s])%list k
  = match s with
    | OnField n _ methods =>
        if String.eqb n k
        then fold_left addOnce (map methodName methods) (attached program k)
        else attached program k
    | Validate => attached program k
    end.
Proof.
  unfold attached. rewrite flat_map_app, firstOccurrences_app. simpl.
  rewrite app_nil_r. destruct s as [n l ms|]; [|reflexivity].
  now destruct (String.eqb n k).
Qed.

Lemma label_app program rest k :
  labelAtFirstReference (program ++ rest)%list k
  = match labelAtFirstReference program k with
    | Some label => Some label
    | None => labelAtFirstReference rest k
    end.
Proof.
  induction program as [|[n l ms|] program IH]; simpl; try exact IH; [reflexivity|].
  now destruct (String.eqb n k).
Qed.

Lemma unreferenced program k :
  JsObject.isInherited k = false ->
  ~ In k (referenced program) ->
  labelAtFirstReference program k = None /\ attached program k = [].
Proof.
  intros Hown.
  unfold attached. induction program as [|[n l ms|] program IH]; simpl.
  - auto.
  - intros H. destruct (String.eqb_spec n k) as [-> | Hne].
    + rewrite Hown in H. exfalso. apply H. now left.
    + apply IH. intros Hin. apply H. apply in_or_app. now right.
  - exact IH.
Qed.

(** The rule methods. *)
Lemma invoke_fieldName f m :
  FieldValidator.fieldName (invoke L f m) = FieldValidator.fieldName f.
Proof. now destruct m. Qed.

Lemma invoke_fieldLabel f m :
  FieldValidator.fieldLabel (invoke L f m) = FieldValidator.fieldLabel f.
Proof. now destruct m. Qed.

Lemma invoke_names f m :
  map fst (FieldValidator.rules (invoke L f m))
  = addOnce (map fst (FieldValidator.rules f)) (methodName m).
Proof. destruct m; simpl; apply set_names. Qed.

Lemma Forall_set {V : Type} (holds : string * V -> Prop) (o : JsObject.t V)
    (k : string) (v : V) :
  Forall holds o -> (forall k', holds (k', v)) ->
  Forall holds (JsObject.set o k v).
Proof.
  intros Ho Hv. induction Ho as [|[k' v'] rest Hh Hrest IH]; simpl.
  - repeat constructor. apply Hv.
  - destruct (String.eqb k' k); constructor; auto.
Qed.

Lemma predicateRule_plain this name predicate message attrs :
  plain (FieldValidator.predicateRule this name predicate message attrs).
Proof. intros now input fieldName. simpl. eauto. Qed.

Lemma invoke_set f m :
  exists r,
    FieldValidator.rules (invoke L f m)
    = JsObject.set (FieldValidator.rules f) (methodName m) r
    /\ JsObject.get (FieldValidator.rules (invoke L f m)) (methodName m)
       = Some r.
Proof.
  destruct m; simpl; eexists; (split; [reflexivity | apply get_set_same]).
Qed.

Lemma builtin_plain r : builtin L r -> plain r.
Proof.
  intros (f & m & H). destruct m; simpl in H; rewrite get_set_same in H;
    injection H as <-; apply predicateRule_plain.
Qed.

Lemma invoke_builtin f m :
  Forall (fun re => builtin L (snd re)) (FieldValidator.rules f) ->
  Forall (fun re => builtin L (snd re)) (FieldValidator.rules (invoke L f m)).
Proof.
  intros H. destruct (invoke_set f m) as (r & Hset & Hget). rewrite Hset.
  apply Forall_set; [exact H|]. intros k. simpl. now exists f, m.
Qed.

Lemma invoke_all methods : forall f,
  let f' := fold_left (invoke L) methods f in
  FieldValidator.fieldName f' = FieldValidator.fieldName f
  /\ FieldValidator.fieldLabel f' = FieldValidator.fieldLabel f
  /\ map fst (FieldValidator.rules f')
     = fold_left addOnce (map methodName methods)
         (map fst (FieldValidator.rules f))
  /\ (Forall (fun re => builtin L (snd re)) (FieldValidator.rules f) ->
      Forall (fun re => builtin L (snd re)) (FieldValidator.rules f')).
Proof.
  induction methods as [|m methods IH]; intros f; simpl; [auto|].
  destruct (IH (invoke L f m)) as (Hn & Hl & Hr & Hp).
  rewrite Hn, Hl, Hr, invoke_fieldName, invoke_fieldLabel, invoke_names.
  repeat split; auto. intros H. apply Hp, invoke_builtin, H.
Qed.

Lemma set_set {V : Type} (o : JsObject.t V) (k : string) (v v' : V) :
  JsObject.set (JsObject.set o k v) k v' = JsObject.set o k v'.
Proof.
  induction o as [|[k' v0] rest IH]; simpl.
  - now rewrite String.eqb_refl.
  - destruct (String.eqb k' k) eqn:E; simpl; rewrite E; [reflexivity|].
    now rewrite IH.
Qed.

Lemma in_set {V : Type} (o : JsObject.t V) (k : string) (v : V)
    (e : string * V) :
  NoDup (map fst o) -> In e (JsObject.set o k v) ->
  e = (k, v) \/ (In e o /\ fst e <> k).
Proof.
  induction o as [|[k' v'] rest IH]; simpl; intros Hnd Hin.
  - destruct Hin as [<- | []]. now left.
  - inversion Hnd as [|? ? Hk Hnd']; subst.
    destruct (String.eqb_spec k' k) as [-> | Hne]; simpl in Hin.
    + destruct Hin as [<- | Hin]; [now left|]. right. split; [now right|].
      intros <-. apply Hk. now apply in_map.
    + destruct Hin as [<- | Hin]; [right; split; [now left | exact Hne]|].
      destruct (IH Hnd' Hin) as [-> | [H1 H2]]; [now left|].
      right. split; [now right | exact H2].
Qed.

(** A statement on a field is a call of field followed by the methods, on
    the object the validator holds. *)
Lemma exec_onField this n l methods :
  JsObject.isInherited n = false ->
  exec L this (OnField n l methods)
  = FormValidator.setFields this
      (JsObject.set (FormValidator.fields this) n
         (fold_left (invoke L) methods
            (match JsObject.get (FormValidator.fields this) n with
             | Some existing => existing
             | None => FieldValidator.new L n l
             end))).
Proof.
  intros Hown. unfold exec, FormValidator.field. rewrite read_own by exact Hown.
  destruct (JsObject.get (FormValidator.fields this) n); simpl; [reflexivity|].
  unfold FormValidator.setFields. simpl. now rewrite set_set.
Qed.

(** Under an inherited name it leaves the validator as it is. *)
Lemma exec_inherited this n l methods :
  JsObject.isInherited n = true ->
  JsObject.get (FormValidator.fields this) n = None ->
  exec L this (OnField n l methods) = this.
Proof.
  intros Hinh Hnone. unfold exec, FormValidator.field.
  rewrite read_inherited by exact Hnone.
  unfold JsObject.isInherited in Hinh.
  now destruct (JsObject.inherited n).
Qed.

Lemma fieldInv_other program n l methods e :
  fst e <> n -> fieldInv L program e ->
  fieldInv L (program ++ [OnField n l methods])%list e.
Proof.
  intros Hne (Hn & Hr & (label & Hl & Hlabel) & Hp).
  unfold fieldInv. rewrite attached_snoc, label_app, Hl.
  apply not_eq_sym, String.eqb_neq in Hne. rewrite Hne. eauto 7.
Qed.

Lemma fieldInv_validate program e :
  fieldInv L program e -> fieldInv L (program ++ [Validate])%list e.
Proof.
  intros (Hn & Hr & (label & Hl & Hlabel) & Hp).
  unfold fieldInv. rewrite attached_snoc, label_app, Hl. eauto 7.
Qed.

Lemma Forall_bare program l : forall l',
  map bare l = map bare l' ->
  Forall (fieldInv L program) l -> Forall (fieldInv L program) l'.
Proof.
  induction l as [|e l IH]; intros [|e' l'] Hmap Hall;
    try discriminate; [constructor|].
  simpl in Hmap. injection Hmap as H1 H2 H3 H4 Hrest.
  inversion Hall as [|? ? Hinv Hall']; subst.
  constructor; [|now apply IH].
  unfold fieldInv in *. now rewrite <- H1, <- H2, <- H3, <- H4.
Qed.

(** Every validator a program builds is [reachable]. *)
Lemma run_reachable input program :
  reachable L input program (run L input program).
Proof.
  induction program as [|s program IH] using rev_ind.
  - repeat split. constructor.
  - rewrite run_snoc. destruct IH as (Hin & Hnames & Hall).
    set (this := run L input program) in *.
    assert (Hnd : NoDup (map fst (FormValidator.fields this))).
    { rewrite Hnames. apply firstOccurrences_NoDup. }
    assert (Hown : forall e, In e (FormValidator.fields this) ->
                             JsObject.isInherited (fst e) = false).
    { intros e He. apply (referenced_own program).
      apply firstOccurrences_in. fold (firstReferenced program).
      rewrite <- Hnames. now apply in_map. }
    destruct s as [n l methods|];
      [destruct (JsObject.isInherited n) eqn:Hinh|].
    + assert (Hnone : JsObject.get (FormValidator.fields this) n = None).
      { destruct (JsObject.get (FormValidator.fields this) n) as [f|] eqn:E;
          [|reflexivity].
        apply get_in in E. apply Hown in E. simpl in E. congruence. }
      rewrite exec_inherited by assumption. unfold reachable.
      split; [exact Hin|]. split.
      { rewrite firstReferenced_snoc, Hinh. exact Hnames. }
      apply Forall_forall. intros e He. rewrite Forall_forall in Hall.
      apply fieldInv_other; auto.
      intros <-. apply Hown in He. congruence.
    + rewrite exec_onField by exact Hinh. unfold reachable. simpl.
      split; [exact Hin|]. split.
      { rewrite set_names, firstReferenced_snoc, Hinh. now rewrite Hnames. }
      set (f0 := match JsObject.get (FormValidator.fields this) n with
                 | Some existing => existing
                 | None => FieldValidator.new L n l
                 end).
      destruct (invoke_all methods f0) as (Hn & Hl & Hr & Hp).
      apply Forall_forall. intros e He.
      apply in_set in He; [|exact Hnd]. destruct He as [-> | [He Hne]].
      * unfold fieldInv. simpl. rewrite Hn, Hr, Hl, attached_snoc, label_app.
        rewrite String.eqb_refl. subst f0.
        destruct (JsObject.get (FormValidator.fields this) n) as [f|] eqn:E;
          simpl in *.
        -- apply get_in in E. rewrite Forall_forall in Hall.
           destruct (Hall _ E) as (H1 & H2 & (label & H3 & H4) & H5).
           simpl in *. rewrite H3, H2. eauto 7.
        -- apply get_none_not_in in E. rewrite Hnames in E.
           unfold firstReferenced in E. rewrite firstOccurrences_in in E.
           destruct (unreferenced program n Hinh E) as [-> ->].
           simpl. rewrite String.eqb_refl.
           repeat split; eauto.
      * rewrite Forall_forall in Hall. apply fieldInv_other; auto.
    + simpl. unfold reachable.
      assert (Hwf : JsObject.WF (FormValidator.fields this)) by exact Hnd.
      split; [|split].
      * unfold FormValidator.validate. rewrite validateFields_input. exact Hin.
      * rewrite validate_names by exact Hwf.
        now rewrite firstReferenced_snoc.
      * apply Forall_bare with (l := FormValidator.fields this).
        -- symmetry. now apply validate_fields.
        -- eapply Forall_impl; [|exact Hall]. apply fieldInv_validate.
Qed.

Lemma run_WF input program :
  JsObject.WF (FormValidator.fields (run L input program)).
Proof.
  destruct (run_reachable input program) as (_ & Hnames & _).
  unfold JsObject.WF. rewrite Hnames. apply firstOccurrences_NoDup.
Qed.

Lemma methodName_named m : JsObject.isArrayIndex (methodName m) = false.
Proof. now destruct m. Qed.

Lemma fold_addOnce_from (holds : string -> Prop) (l : list string) :
  forall seen,
  Forall holds seen -> Forall holds l -> Forall holds (fold_left addOnce l seen).
Proof.
  intros seen Hs Hl. apply Forall_forall. intros x Hx.
  apply fold_addOnce_in in Hx. rewrite Forall_forall in Hs, Hl.
  destruct Hx; auto.
Qed.

Lemma attached_named program k :
  Forall (fun n => JsObject.isArrayIndex n = false) (attached program k).
Proof.
  unfold attached, firstOccurrences. apply fold_addOnce_from; [constructor|].
  apply Forall_forall. intros x Hx. apply in_flat_map in Hx as (s & _ & Hx).
  destruct s as [n l ms|]; [|destruct Hx].
  destruct (String.eqb n k); [|destruct Hx].
  apply in_map_iff in Hx as (m & <- & _). apply methodName_named.
Qed.

(** The rules of a field of a reachable validator are visited in the order
    of their creation, and their predicates complete. *)
Lemma reachable_rules now input program this e :
  reachable L input program this -> In e (FormValidator.fields this) ->
  JsObject.entries (FieldValidator.rules (snd e)) = FieldValidator.rules (snd e)
  /\ Forall (completes now input (snd e)) (FieldValidator.rules (snd e)).
Proof.
  intros (_ & _ & Hall) He. rewrite Forall_forall in Hall.
  destruct (Hall e He) as (_ & Hr & _ & Hp). split.
  - apply entries_named. apply forallb_forall. intros re Hre.
    pose proof (attached_named program (fst e)) as Hn.
    rewrite <- Hr, Forall_forall in Hn. apply negb_true_iff, Hn.
    now apply in_map.
  - eapply Forall_impl; [|exact Hp]. intros re Hplain.
    apply builtin_plain in Hplain.
    destruct (Hplain now input (FieldValidator.fieldName (snd e))) as [b Hb].
    unfold completes, FieldValidator.pass. rewrite Hb.
    exists b. now destruct (ValidationRule.async (snd re)).
Qed.

Lemma reachable_check now input program this e :
  reachable L input program this -> In e (FormValidator.fields this) ->
  settles now input e
  /\ FieldValidator.getErrors (checked now input (snd e))
     = ruleFailures now input (snd e) (FieldValidator.rules (snd e)).
Proof.
  intros Hreach He.
  destruct (reachable_rules now input program this e Hreach He)
    as [Hent Hcomp].
  assert (Hcheck := check_completes now input (snd e)).
  rewrite Hent in Hcheck. specialize (Hcheck Hcomp).
  unfold settles, checked. rewrite Hcheck. simpl. eauto.
Qed.

Lemma reachable_settles now input program this :
  reachable L input program this ->
  Forall (settles now (FormValidator.input this))
    (JsObject.entries (FormValidator.fields this)).
Proof.
  intros Hreach. apply Forall_forall. intros e He.
  apply (proj1 (entries_in _ _)) in He.
  pose proof Hreach as (Hin & _). rewrite Hin.
  exact (proj1 (reachable_check now input program this e Hreach He)).
Qed.

Lemma get_entries {V : Type} (o : JsObject.t V) (k : string) :
  JsObject.WF o -> JsObject.get (JsObject.entries o) k = JsObject.get o k.
Proof.
  intros Hwf. destruct (JsObject.get o k) as [v|] eqn:E.
  - apply in_get; [now apply entries_WF|]. apply entries_in. now apply get_in.
  - apply get_none_not_in. apply get_none_not_in in E. intros H. apply E.
    apply in_map_iff in H as (e & <- & He). apply in_map.
    exact (proj1 (entries_in _ _) He).
Qed.

Lemma reported_get input fs k :
  NoDup (map fst fs) ->
  JsObject.get (reported L input fs) k
  = match JsObject.get fs k with
    | Some f =>
        if FieldValidator.hasErrors (checked L input f)
        then Some (FieldValidator.getErrors (checked L input f))
        else None
    | None => None
    end.
Proof.
  unfold reported. induction fs as [|[k' f] fs IH]; intros Hnd; simpl;
    [reflexivity|].
  inversion Hnd as [|? ? Hk Hnd']; subst.
  destruct (String.eqb_spec k' k) as [-> | Hne].
  - destruct (FieldValidator.hasErrors (checked L input f)); simpl.
    + now rewrite String.eqb_refl.
    + rewrite IH by exact Hnd'.
      apply get_none_not_in in Hk. now rewrite Hk.
  - destruct (FieldValidator.hasErrors (checked L input f)); simpl.
    + apply String.eqb_neq in Hne. rewrite Hne. now apply IH.
    + now apply IH.
Qed.

Lemma filter_by_get {V : Type} (keep : V -> bool) (o : JsObject.t V) :
  NoDup (map fst o) ->
  map fst (filter (fun e => keep (snd e)) o)
  = filter (fun k => match JsObject.get o k with
                     | Some v => keep v
                     | None => false
                     end) (map fst o).
Proof.
  induction o as [|[k v] rest IH]; intros Hnd; simpl; [reflexivity|].
  inversion Hnd as [|? ? Hk Hnd']; subst. rewrite String.eqb_refl.
  assert (E : filter (fun k0 => match (if String.eqb k k0 then Some v
                                      else JsObject.get rest k0) with
                                | Some v0 => keep v0
                                | None => false
                                end) (map fst rest)
              = filter (fun k0 => match JsObject.get rest k0 with
                                  | Some v0 => keep v0
                                  | None => false
                                  end) (map fst rest)).
  { apply filter_ext_in. intros k0 Hk0.
    destruct (String.eqb_spec k k0) as [-> | _]; [contradiction | reflexivity]. }
  rewrite E, <- IH by exact Hnd'. now destruct (keep v).
Qed.

Lemma forInOrder_named_part (names : list string) :
  filter (fun n => negb (JsObject.isArrayIndex n)) (forInOrder names)
  = filter (fun n => negb (JsObject.isArrayIndex n)) names.
Proof.
  unfold forInOrder, JsObject.keys, JsObject.entries.
  set (o := map (fun n => (n, tt)) names).
  rewrite map_app, filter_app.
  replace (filter _ (map fst (map snd (JsObject.indexed o)))) with (@nil string).
  - simpl. unfold JsObject.named, o.
    induction names as [|n names IH]; simpl; [reflexivity|].
    destruct (JsObject.isArrayIndex n) eqn:E; simpl; rewrite ?E; simpl;
      now rewrite ?IH.
  - symmetry. pose proof (indexed_names o) as Hall.
    induction Hall as [|p rest Hp _ IH]; simpl; [reflexivity|].
    unfold JsObject.isArrayIndex at 1. now rewrite Hp.
Qed.

End Programs.

(** ** Referring to a field *)

Lemma run_no_inherited (L : Library) (input : Input)
    (program : list Statement) (n : string) :
  JsObject.isInherited n = true ->
  JsObject.get (FormValidator.fields (run L input program)) n = None.
Proof.
  intros Hinh.
  destruct (run_reachable L input program) as (_ & Hnames & _).
  apply get_none_not_in. rewrite Hnames. intros H.
  apply firstOccurrences_in, referenced_own in H. congruence.
Qed.

(** The libraries answer a validator a program has built the same at two
    times when they render the messages the same and parse the value of
    every field to the same date. *)
Lemma built_sameAnswers (L0 L1 L2 : Library) (input : Input)
    (program : list Statement) :
  (forall message attrs,
     template L1 message attrs = template L2 message attrs) ->
  (forall n, In n (firstReferenced program) ->
     parseDate L1 (getInput input n) = parseDate L2 (getInput input n)) ->
  sameAnswers L1 L2 (run L0 input program).
Proof.
  intros Htemplate Hparse. split; [exact Htemplate|].
  destruct (run_reachable L0 input program) as (Hin & Hnames & Hall).
  rewrite Hin. apply Forall_forall. intros e He.
  rewrite Forall_forall in Hall.
  destruct (Hall e He) as (Hname & _ & _ & Hrules).
  unfold agreeOn. eapply Forall_impl; [|exact Hrules].
  intros re Hre. unfold FieldValidator.pass. rewrite Hname.
  rewrite (builtin_agree L0 L1 L2 input (fst e) (snd re) Hre); [reflexivity|].
  apply Hparse. rewrite <- Hnames. now apply in_map.
Qed.

(** C10.  A second call of field with the name of the first returns what
    the first returned and changes nothing, whatever label it is given.
    When the first call returns a field rule set, the validator holds it
    under the name, and its label is the one an earlier reference fixed, or
    else the label argument of this first call when it is given and not
    empty, or else the lower-cased name; in every validator a program
    builds, the label of a field is the one its first reference fixes.
    But under a name inherited from Object.prototype, toString for one,
    field returns no field rule set: it returns the inherited member and
    creates nothing, on every validator a program builds, and a rule
    method called on what it returns throws a TypeError. *)
Theorem field_again (L : Library) (this : FormValidator.t)
    (fieldName : string) (label1 label2 : option string) :
  let first := FormValidator.field L this fieldName label1 in
  FormValidator.field L (snd first) fieldName label2 = first
  /\ match fst first with
     | inl f =>
         JsObject.get (FormValidator.fields (snd first)) fieldName = Some f
         /\ FieldValidator.fieldLabel f
            = match JsObject.get (FormValidator.fields this) fieldName with
              | Some existing => FieldValidator.fieldLabel existing
              | None => orElse label1 (lowerCase L fieldName)
              end
     | inr m =>
         JsObject.inherited fieldName = Some m
         /\ JsObject.get (FormValidator.fields this) fieldName = None
         /\ snd first = this
     end
  /\ (forall input program,
       Forall (fun e =>
                 exists label,
                   labelAtFirstReference program (fst e) = Some label
                   /\ FieldValidator.fieldLabel (snd e)
                      = orElse label (lowerCase L (fst e)))
         (FormValidator.fields (run L input program))
       /\ match JsObject.inherited fieldName with
          | Some m =>
              FormValidator.field L (run L input program) fieldName label1
              = (inr m, run L input program)
          | None =>
              exists f,
                fst (FormValidator.field L (run L input program) fieldName
                       label1) = inl f
          end)
  /\ (forall input,
       let this := FormValidator.new input in
       let statement := OnField "toString" (Some "T") [Required None] in
       FormValidator.field L this "toString" (Some "T")
       = (inr (JsObject.Function "toString" 0), this)
       /\ typeError L this statement = Some (NotAFunction "required")
       /\ exec L this statement = this).
Proof.
  unfold FormValidator.field, JsObject.read.
  remember (JsObject.inherited fieldName) as inh eqn:Em.
  split; [|split; [|split]].
  - destruct (JsObject.get (FormValidator.fields this) fieldName) as [f|] eqn:E;
      simpl; [now rewrite E|].
    destruct inh as [m|]; simpl.
    + now rewrite E.
    + now rewrite get_set_same.
  - destruct (JsObject.get (FormValidator.fields this) fieldName) as [f|] eqn:E;
      simpl; [now split|].
    destruct inh as [m|]; simpl.
    + now repeat split.
    + split; [apply get_set_same | reflexivity].
  - intros input program. split.
    + destruct (run_reachable L input program) as (_ & _ & Hall).
      eapply Forall_impl; [|exact Hall]. intros e He. apply He.
    + destruct inh as [m|].
      * rewrite run_no_inherited; [reflexivity|].
        unfold JsObject.isInherited. now rewrite <- Em.
      * destruct (JsObject.get (FormValidator.fields (run L input program))
                    fieldName); simpl; eauto.
  - intros input. repeat split.
Qed.

(** ** The order of the fields and of the records *)

(** C4, amended.  validate visits the fields in the order of for-in: the
    field names that are array indices first, by ascending index, then the
    other names in the order of their first reference.  On a validator a
    program has built it returns; the result is true exactly when no field is
    left with records by its check; and the error map, whatever it held
    before, has under a field name the records of that field exactly when
    its check leaves some. *)
Theorem validate_pass (L0 L : Library) (input : Input)
    (program : list Statement) :
  let this := run L0 input program in
  let visited := JsObject.entries (FormValidator.fields this) in
  map fst visited = forInOrder (firstReferenced program)
  /\ filter (fun n => negb (JsObject.isArrayIndex n)) (map fst visited)
     = filter (fun n => negb (JsObject.isArrayIndex n))
         (firstReferenced program)
  /\ FormValidator.validate L this
     = (Normal (allPass L input visited),
        {| FormValidator.input := input;
           FormValidator.fields :=
             rechecked L input visited (FormValidator.fields this);
           FormValidator.fieldErrors := reported L input visited |})
  /\ forall n,
       JsObject.get (reported L input visited) n
       = match JsObject.get (FormValidator.fields this) n with
         | Some f =>
             if FieldValidator.hasErrors (checked L input f)
             then Some (FieldValidator.getErrors (checked L input f))
             else None
         | None => None
         end.
Proof.
  intros this visited.
  pose proof (run_reachable L0 input program) as Hreach. fold this in Hreach.
  pose proof (run_WF L0 input program) as Hwf. fold this in Hwf.
  pose proof Hreach as (Hin & Hnames & _).
  assert (Horder : map fst visited = forInOrder (firstReferenced program)).
  { rewrite <- Hnames. apply keys_by_names. }
  split; [exact Horder|]. split; [|split].
  - rewrite Horder. apply forInOrder_named_part.
  - rewrite (validate_completes L this Hwf (reachable_settles L0 L _ _ _ Hreach)).
    now rewrite Hin.
  - intros n. rewrite reported_get by (apply entries_WF, Hwf).
    unfold visited. now rewrite get_entries.
Qed.

(** The claim as it stands fails: a field named 0, referred to second, is
    visited first. *)
Lemma validate_order_counterexample :
  let program := [OnField "name" None [Required None];
                  OnField "0" None [Required None]] in
  let this := run Sample.library [] program in
  firstReferenced program = ["name"; "0"]
  /\ map fst (JsObject.entries (FormValidator.fields this)) = ["0"; "name"]
  /\ map fst (JsObject.entries (FormValidator.fields this))
     <> firstReferenced program
  /\ map fst (FormValidator.fieldErrors
                (snd (FormValidator.validate Sample.library this)))
     = ["0"; "name"].
Proof. vm_compute. repeat split; discriminate. Qed.

Lemma reported_entries (L : Library) (input : Input)
    (o : JsObject.t FieldValidator.t) :
  JsObject.entries (reported L input (JsObject.entries o))
  = reported L input (JsObject.entries o).
Proof.
  unfold reported.
  rewrite (entries_map
             (fun e => FieldValidator.getErrors (checked L input (snd e)))).
  now rewrite entries_filter, entries_idem.
Qed.

Lemma rule_ruleFailures (L : Library) (input : Input) (f : FieldValidator.t)
    (ran : list (string * ValidationRule.t)) :
  map FieldValidationError.rule (ruleFailures L input f ran)
  = map fst (filter (fun e => fails L input f (snd e)) ran).
Proof. unfold ruleFailures. now rewrite map_map. Qed.

(** C6, amended.  After validate, the error map lists the fields that have
    records in the order of for-in: the names that are array indices first,
    by ascending index, then the other names in the order of their first
    reference.  The records of a field name the rules that fail, in the
    order in which the rule methods were first called on the field.
    getCompiledMessage joins the messages of all the records, field after
    field in the order of the map and in the order of the records within a
    field, with the merge token, a line feed when none is given. *)
Theorem errors_in_order (L0 L : Library) (input : Input)
    (program : list Statement) (mergeToken : option string) :
  let this := run L0 input program in
  let errs := FormValidator.getErrors (snd (FormValidator.validate L this)) in
  JsObject.keys errs
  = filter (hasRecords L this) (forInOrder (firstReferenced program))
  /\ filter (fun n => negb (JsObject.isArrayIndex n)) (JsObject.keys errs)
     = filter (hasRecords L this)
         (filter (fun n => negb (JsObject.isArrayIndex n))
            (firstReferenced program))
  /\ Forall (fun e =>
               map FieldValidationError.rule (snd e)
               = filter (failing L this (fst e)) (attached program (fst e)))
       (JsObject.entries errs)
  /\ FormValidationError.getCompiledMessage
       (FormValidationError.new errs None) mergeToken
     = join (match mergeToken with
             | Some token => token
             | None => String "010"%char EmptyString
             end)
         (map FieldValidationError.message
            (concat (map snd (JsObject.entries errs)))).
Proof.
  intros this errs.
  pose proof (run_reachable L0 input program) as Hreach. fold this in Hreach.
  pose proof (run_WF L0 input program) as Hwf. fold this in Hwf.
  pose proof Hreach as (Hin & Hnames & Hall).
  assert (Horder : map fst (JsObject.entries (FormValidator.fields this))
                   = forInOrder (firstReferenced program)).
  { rewrite <- Hnames. apply keys_by_names. }
  pose proof (validate_completes L this Hwf
                (reachable_settles L0 L _ _ _ Hreach)) as Hval.
  rewrite Hin in Hval.
  set (visited := JsObject.entries (FormValidator.fields this)) in *.
  assert (Herrs : errs = reported L input visited).
  { unfold errs. now rewrite Hval. }
  assert (Hkeys : JsObject.keys errs
                  = filter (hasRecords L this)
                      (forInOrder (firstReferenced program))).
  { rewrite Herrs. unfold JsObject.keys, visited.
    rewrite reported_entries. fold visited. unfold reported.
    rewrite map_map. simpl. rewrite <- Horder.
    change (fun x : string * FieldValidator.t => fst x)
      with (@fst string FieldValidator.t).
    rewrite (filter_by_get
               (fun f => FieldValidator.hasErrors (checked L input f)) visited)
      by (apply entries_WF, Hwf).
    apply filter_ext. intros n. unfold hasRecords, visited.
    now rewrite get_entries, Hin. }
  split; [exact Hkeys|]. split; [|split].
  - rewrite Hkeys, <- (forInOrder_named_part (firstReferenced program)).
    generalize (forInOrder (firstReferenced program)). intros l.
    induction l as [|n l IH]; simpl; [reflexivity|].
    destruct (hasRecords L this n) eqn:H1, (JsObject.isArrayIndex n) eqn:H2;
      simpl; rewrite ?H1, ?H2; simpl; now rewrite IH.
  - rewrite Herrs. unfold visited. rewrite reported_entries. fold visited.
    unfold reported. apply Forall_forall. intros e He.
    apply in_map_iff in He as ([k f] & <- & He). simpl.
    apply filter_In in He as [He _].
    apply (proj1 (entries_in _ _)) in He.
    destruct (reachable_check L0 L input program this (k, f) Hreach He)
      as [_ Hrecords]. simpl in Hrecords.
    rewrite Forall_forall in Hall.
    destruct (Hall _ He) as (_ & Hrules & _). simpl in Hrules.
    rewrite Hrecords, rule_ruleFailures.
    rewrite (filter_by_get (fun r => fails L input f r))
      by (rewrite Hrules; apply firstOccurrences_NoDup).
    rewrite Hrules. apply filter_ext. intros rn. unfold failing.
    now rewrite (in_get _ _ _ Hwf He), Hin.
  - unfold FormValidationError.getCompiledMessage. simpl.
    now rewrite flat_map_concat_map, concat_map, map_map.
Qed.

(** The claim as it stands fails: the error map lists a field named 0,
    referred to second, before the field referred to first, and the
    compiled message follows. *)
Lemma errors_order_counterexample :
  let program := [OnField "name" None [Required None];
                  OnField "0" None [Required None]] in
  let after :=
    snd (FormValidator.validate Sample.library
           (run Sample.library [] program)) in
  firstReferenced program = ["name"; "0"]
  /\ JsObject.keys (FormValidator.getErrors after) = ["0"; "name"]
  /\ JsObject.keys (FormValidator.getErrors after) <> firstReferenced program
  /\ FormValidationError.getCompiledMessage
       (FormValidationError.new (FormValidator.getErrors after) None) None
     = ("The 0 field is required." ++ String "010"%char EmptyString
          ++ "The name field is required.")%string.
Proof. vm_compute. repeat split; discriminate. Qed.

(** ** A scenario *)

(** The form of the input name (empty) and email (bad), with required on
    name and email on email: validate gives false and the error map holds
    one record for each field. *)
Example scenario_name_email :
  let form :=
    run Sample.library
      [("name", VString EmptyString); ("email", VString "bad")]
      [OnField "name" None [Required None];
       OnField "email" None [Email None]] in
  let result := FormValidator.validate Sample.library form in
  fst result = Normal false
  /\ FormValidator.getErrors (snd result)
     = [("name",
         [{| FieldValidationError.rule := "required";
             FieldValidationError.message := "The name field is required." |}]);
        ("email",
         [{| FieldValidationError.rule := "email";
             FieldValidationError.message :=
               "The email must be a valid email address." |}])].
Proof. vm_compute. split; reflexivity. Qed.

(** * Further properties of the validation service *)

(** ** The alpha predicates *)

Section AlphaFamily.
Import RegExp.

Lemma accepts_void s : accepts Void s = false.
Proof. induction s; simpl; auto. Qed.

Lemma accepts_iter_sym p s : accepts (Iter (Sym p)) s = allChars p s.
Proof.
  induction s as [|c s IH]; simpl; [reflexivity|].
  destruct (p c); simpl; [exact IH | apply accepts_void].
Qed.

Lemma accepts_plus_sym p s :
  accepts (Cat (Sym p) (Iter (Sym p))) s = nonEmpty s && allChars p s.
Proof.
  destruct s as [|c s]; simpl; [reflexivity|].
  destruct (p c); simpl; [apply accepts_iter_sym | apply accepts_void].
Qed.

Lemma allChars_ext p q s :
  (forall c, p c = q c) -> allChars p s = allChars q s.
Proof. intros H. induction s as [|c s IH]; simpl; [reflexivity|]. now rewrite H, IH. Qed.

Lemma allChars_weaken p q s :
  (forall c, p c = true -> q c = true) ->
  allChars p s = true -> allChars q s = true.
Proof.
  intros H. induction s as [|c s IH]; simpl; [auto|].
  rewrite !andb_true_iff. intros [Hc Hs]. auto.
Qed.

End AlphaFamily.

(** X1.  isAlpha, isAlphaNum and isAlphaDash hold of a value exactly when
    its string is not empty and is made of letters a-z and A-Z, of letters
    and digits, and of letters, digits, underscores and dashes; so what
    isAlpha accepts isAlphaNum accepts, and what isAlphaNum accepts
    isAlphaDash accepts. *)
Theorem alpha_predicates_exactly (val : Value) :
  let s := toString val in
  Validation.isAlpha val = nonEmpty s && allChars isLetter s
  /\ Validation.isAlphaNum val = nonEmpty s && allChars isLetterOrDigit s
  /\ Validation.isAlphaDash val = nonEmpty s && allChars isWordOrDash s
  /\ implb (Validation.isAlpha val) (Validation.isAlphaNum val) = true
  /\ implb (Validation.isAlphaNum val) (Validation.isAlphaDash val) = true.
Proof.
  intros s.
  assert (H1 : Validation.isAlpha val = nonEmpty s && allChars isLetter s).
  { unfold Validation.isAlpha. simpl. rewrite accepts_plus_sym. f_equal.
    apply allChars_ext. intros c. unfold RegExp.classMatches, isLetter. simpl.
    now rewrite orb_false_r. }
  assert (H2 : Validation.isAlphaNum val
               = nonEmpty s && allChars isLetterOrDigit s).
  { unfold Validation.isAlphaNum. simpl. rewrite accepts_plus_sym. f_equal.
    apply allChars_ext. intros c.
    unfold RegExp.classMatches, isLetterOrDigit, isLetter. simpl.
    now rewrite orb_false_r, orb_assoc. }
  assert (H3 : Validation.isAlphaDash val
               = nonEmpty s && allChars isWordOrDash s).
  { unfold Validation.isAlphaDash. simpl. rewrite accepts_plus_sym. f_equal.
    apply allChars_ext. intros c.
    unfold RegExp.classMatches, isWordOrDash, isLetterOrDigit, isLetter.
    simpl. now rewrite orb_false_r, !orb_assoc. }
  repeat split; auto.
  - rewrite H1, H2. destruct (nonEmpty s); simpl; [|reflexivity].
    destruct (allChars isLetter s) eqn:E; simpl; [|reflexivity].
    apply (allChars_weaken isLetter); [|exact E].
    intros c Hc. unfold isLetterOrDigit. now rewrite Hc.
  - rewrite H2, H3. destruct (nonEmpty s); simpl; [|reflexivity].
    destruct (allChars isLetterOrDigit s) eqn:E; simpl; [|reflexivity].
    apply (allChars_weaken isLetterOrDigit); [|exact E].
    intros c Hc. unfold isWordOrDash. now rewrite Hc.
Qed.

(** ** A field that the input lacks *)



(** ** Numbers and booleans are never empty *)

Lemma removeWhiteSpace_first (c : ascii) (s : string) :
  isWhiteSpace c = false ->
  (0 <? String.length (removeWhiteSpace (String c s)))%nat = true.
Proof. intros H. simpl. now rewrite H. Qed.

Lemma string_of_uint_first (d : Decimal.uint) :
  exists c rest, NilZero.string_of_uint d = String c rest
                 /\ isWhiteSpace c = false.
Proof. destruct d; simpl; eauto. Qed.

(** X3.  isEmpty is false of every number and of both booleans, so that
    required passes for 0 and for false; it is true of the empty array. *)
Theorem numbers_and_booleans_not_empty (n : Z) (b : bool) :
  Validation.isEmpty (VNumber n) = false
  /\ Validation.isEmpty (VBool b) = false
  /\ Validation.isEmpty (VArray []) = true.
Proof.
  split; [|split; [now destruct b | reflexivity]].
  unfold Validation.isEmpty. simpl. unfold numberToString.
  assert (H : (0 <? String.length
                      (removeWhiteSpace
                         (NilZero.string_of_int (Z.to_int n))))%nat = true).
  { destruct (Z.to_int n) as [d|d]; simpl NilZero.string_of_int.
    - destruct (string_of_uint_first d) as (c & rest & -> & Hc).
      now apply removeWhiteSpace_first.
    - now apply removeWhiteSpace_first. }
  now rewrite H.
Qed.

(** ** The date rules, before and after *)

Lemma passOf_eq (L0 L : Library) (input : Input) (f : FieldValidator.t)
    (m : Method) :
  exists r,
    JsObject.get (FieldValidator.rules (invoke L0 f m)) (methodName m) = Some r
    /\ passOf L0 L input f m
       = Some (FieldValidator.pass L input (invoke L0 f m) r).
Proof.
  unfold passOf.
  assert (H : exists r,
             JsObject.get (FieldValidator.rules (invoke L0 f m)) (methodName m)
             = Some r).
  { destruct m; simpl; rewrite get_set_same; eauto. }
  destruct H as [r Hr]. rewrite Hr. eauto.
Qed.

(** X4.  When the value of the field parses to the date [d], at the time
    the rule is checked, and the bound is, or parses to, the date [b], at
    the time the rule method is called: the before rule passes exactly when
    d is less than b and the beforeOrEqual rule exactly when d is less than
    or equal to b; after passes exactly when beforeOrEqual fails, and
    before exactly when afterOrEqual fails. *)
Theorem before_rules (L0 L : Library) (this : FieldValidator.t)
    (date : Moment.Input) (message : option string) (input : Input)
    (d b : Z) :
  parseDate L (getInput input (FieldValidator.fieldName this)) = Some d ->
  Moment.create (parseDate L0) date = Some b ->
  passOf L0 L input this (Before date message) = Some (Normal (d <? b)%Z)
  /\ passOf L0 L input this (BeforeOrEqual date message)
     = Some (Normal (d <=? b)%Z)
  /\ passOf L0 L input this (After date message)
     = Some (Normal (negb (d <=? b)%Z))
  /\ passOf L0 L input this (AfterOrEqual date message)
     = Some (Normal (negb (d <? b)%Z)).
Proof.
  intros Hd Hb.
  assert (Hc : FieldValidator.coerce L0 date = Moment.OfMoment (Some b)).
  { destruct date as [m|v]; simpl in *; unfold FieldValidator.coerce; simpl;
      now rewrite Hb. }
  unfold passOf. simpl. rewrite !get_set_same.
  unfold FieldValidator.pass. simpl. rewrite Hc.
  unfold Validation.isBefore, Validation.isBeforeOrEqual, Validation.isAfter,
    Validation.isAfterOrEqual, Moment.isSameOrBefore, Moment.isSameOrAfter,
    Moment.isSame, Moment.isBefore, Moment.isAfter, Moment.compareWith.
  simpl. rewrite Hd.
  repeat split; do 2 f_equal;
    destruct (Z.eqb_spec d b), (Z.ltb_spec d b), (Z.leb_spec d b),
             (Z.gtb_spec d b); simpl; try reflexivity; lia.
Qed.

Lemma before_rules_witness :
  let input := [("when", VNumber 3)] in
  let date := Moment.OfValue (VNumber 5) in
  parseDate Sample.library
    (getInput input (FieldValidator.fieldName Sample.whenField)) = Some 3%Z
  /\ Moment.create (parseDate Sample.library) date = Some 5%Z
  /\ passOf Sample.library Sample.library input Sample.whenField (Before date None)
     = Some (Normal true).
Proof.
  intros input date.
  split; [reflexivity|]. split; [reflexivity|].
  exact (proj1 (before_rules Sample.library Sample.library Sample.whenField
                  date None input 3%Z 5%Z eq_refl eq_refl)).
Defined.

(** X5.  A field whose value does not parse to a valid date, at the time
    the rule is checked, fails the date rule and, whatever the bound, the
    rules after, afterOrEqual, before and beforeOrEqual. *)
Theorem invalid_date_fails (L0 L : Library) (this : FieldValidator.t)
    (date : Moment.Input) (message : option string) (input : Input) :
  parseDate L (getInput input (FieldValidator.fieldName this)) = None ->
  passOf L0 L input this (IsDate message) = Some (Normal false)
  /\ passOf L0 L input this (After date message) = Some (Normal false)
  /\ passOf L0 L input this (AfterOrEqual date message) = Some (Normal false)
  /\ passOf L0 L input this (Before date message) = Some (Normal false)
  /\ passOf L0 L input this (BeforeOrEqual date message) = Some (Normal false).
Proof.
  intros Hd. unfold passOf. simpl. rewrite !get_set_same.
  unfold FieldValidator.pass. simpl.
  unfold Validation.isDate, Validation.isBefore, Validation.isBeforeOrEqual,
    Validation.isAfter, Validation.isAfterOrEqual, Moment.isSameOrBefore,
    Moment.isSameOrAfter, Moment.isSame, Moment.isBefore, Moment.isAfter,
    Moment.compareWith. simpl. rewrite Hd. auto.
Qed.

Lemma invalid_date_fails_witness :
  let input := [("when", VString "soon")] in
  parseDate Sample.library
    (getInput input (FieldValidator.fieldName Sample.whenField)) = None
  /\ passOf Sample.library Sample.library input Sample.whenField
       (After (Moment.OfValue (VNumber 5)) None)
     = Some (Normal false).
Proof.
  intros input. split; [reflexivity|].
  exact (proj1 (proj2 (invalid_date_fails Sample.library Sample.library
                         Sample.whenField (Moment.OfValue (VNumber 5)) None
                         input eq_refl))).
Defined.

(** ** Calling a rule method again *)

(** X6.  A rule method called after a method of the same rule replaces
    that rule: the field rule set is the one the later call alone gives.
    A rule method leaves the records, the name and the label of the field
    rule set as they are, and the rule keeps its place among the rules, or
    comes last when it is new. *)
Theorem method_again (L : Library) (f : FieldValidator.t) (m m' : Method) :
  methodName m = methodName m' ->
  invoke L (invoke L f m) m' = invoke L f m'
  /\ FieldValidator.errors (invoke L f m) = FieldValidator.errors f
  /\ FieldValidator.fieldName (invoke L f m) = FieldValidator.fieldName f
  /\ FieldValidator.fieldLabel (invoke L f m) = FieldValidator.fieldLabel f
  /\ map fst (FieldValidator.rules (invoke L f m))
     = addOnce (map fst (FieldValidator.rules f)) (methodName m).
Proof.
  intros Hname. split; [|split; [|split; [|split]]].
  - destruct m, m'; try discriminate; simpl;
      unfold FieldValidator.email, FieldValidator.accepted,
        FieldValidator.after, FieldValidator.date, FieldValidator.required,
        FieldValidator.afterOrEqual, FieldValidator.alpha,
        FieldValidator.alphaDash, FieldValidator.alphaNum,
        FieldValidator.array, FieldValidator.before,
        FieldValidator.beforeOrEqual, FieldValidator.setRule; simpl;
      now rewrite set_set.
  - now destruct m.
  - now destruct m.
  - now destruct m.
  - apply invoke_names.
Qed.

Lemma method_again_witness :
  methodName (Email None) = methodName (Email (Some "Bad address"))
  /\ invoke Sample.library
       (invoke Sample.library Sample.whenField (Email None))
       (Email (Some "Bad address"))
     = invoke Sample.library Sample.whenField (Email (Some "Bad address")).
Proof.
  split; [reflexivity|].
  exact (proj1 (method_again Sample.library Sample.whenField (Email None)
                  (Email (Some "Bad address")) eq_refl)).
Defined.

(** ** The records of a check *)

Lemma NoDup_filter_fst {A B : Type} (keep : A * B -> bool) (l : list (A * B)) :
  NoDup (map fst l) -> NoDup (map fst (filter keep l)).
Proof.
  induction l as [|e l IH]; simpl; intros H; [constructor|].
  inversion H as [|? ? Hin Hnd]; subst.
  destruct (keep e); simpl; [|auto].
  constructor; [|auto]. intros Hin'. apply Hin.
  apply in_map_iff in Hin' as (x & Hx & Hf). apply filter_In in Hf as [Hf _].
  rewrite <- Hx. now apply in_map.
Qed.

(** X7.  When the predicates of the rules of a field complete, check
    returns true exactly when some rule fails (and false when all pass);
    it leaves one record for each rule that fails, under the name of the
    rule and in the order in which the rules are visited, and never two
    records for one rule. *)
Theorem check_records (L : Library) (input : Input) (f : FieldValidator.t) :
  JsObject.WF (FieldValidator.rules f) ->
  Forall (completes L input f) (JsObject.entries (FieldValidator.rules f)) ->
  fst (FieldValidator.check L input f)
  = Normal (existsb (fun e => fails L input f (snd e))
              (JsObject.entries (FieldValidator.rules f)))
  /\ map FieldValidationError.rule
       (FieldValidator.getErrors (checked L input f))
     = map fst (filter (fun e => fails L input f (snd e))
                  (JsObject.entries (FieldValidator.rules f)))
  /\ NoDup (map FieldValidationError.rule
              (FieldValidator.getErrors (checked L input f))).
Proof.
  intros Hwf Hall.
  assert (Hrec : FieldValidator.getErrors (checked L input f)
                 = ruleFailures L input f
                     (JsObject.entries (FieldValidator.rules f))).
  { unfold checked. now rewrite (check_completes L input f Hall). }
  assert (Hrules : map FieldValidationError.rule
                     (FieldValidator.getErrors (checked L input f))
                   = map fst (filter (fun e => fails L input f (snd e))
                                (JsObject.entries (FieldValidator.rules f)))).
  { rewrite Hrec. apply rule_ruleFailures. }
  split; [|split].
  - rewrite (check_completes L input f Hall). simpl. f_equal.
    unfold FieldValidator.hasErrors.
    change (FieldValidator.errors (checked L input f))
      with (FieldValidator.getErrors (checked L input f)).
    rewrite Hrec. unfold ruleFailures. rewrite length_map.
    generalize (JsObject.entries (FieldValidator.rules f)).
    clear. intros l. induction l as [|e l IH]; simpl; [reflexivity|].
    destruct (fails L input f (snd e)); simpl; [reflexivity | exact IH].
  - exact Hrules.
  - rewrite Hrules. apply NoDup_filter_fst. now apply entries_WF.
Qed.

Lemma check_records_witness :
  let input := [("name", VString EmptyString)] in
  JsObject.WF (FieldValidator.rules Sample.nameField)
  /\ Forall (completes Sample.library input Sample.nameField)
       (JsObject.entries (FieldValidator.rules Sample.nameField))
  /\ fst (FieldValidator.check Sample.library input Sample.nameField)
     = Normal true.
Proof.
  intros input.
  assert (H1 : JsObject.WF (FieldValidator.rules Sample.nameField))
    by (apply distinct_WF; reflexivity).
  assert (H2 : Forall (completes Sample.library input Sample.nameField)
                 (JsObject.entries (FieldValidator.rules Sample.nameField)))
    by (repeat constructor; eexists; vm_compute; reflexivity).
  split; [exact H1|]. split; [exact H2|].
  exact (proj1 (check_records Sample.library input Sample.nameField H1 H2)).
Defined.

(** * Further properties of the form validator *)

Lemma count_failures {A : Type} (bad : A -> bool) (l : list A) :
  (if (0 <? List.length (filter bad l))%nat then true else false)
  = negb (forallb (fun a => negb (bad a)) l).
Proof.
  induction l as [|a l IH]; simpl; [reflexivity|].
  destruct (bad a); simpl; [reflexivity | exact IH].
Qed.

(** X8.  On a validator a program has built, validate returns true exactly
    when hasErrors is false afterwards; a new validator has no errors. *)
Theorem hasErrors_after_validate (L0 L : Library) (input : Input)
    (program : list Statement) :
  let result := FormValidator.validate L (run L0 input program) in
  fst result = Normal (negb (FormValidator.hasErrors (snd result)))
  /\ FormValidator.hasErrors (FormValidator.new input) = false.
Proof.
  intros result. split; [|reflexivity].
  pose proof (run_reachable L0 input program) as Hreach.
  pose proof (run_WF L0 input program) as Hwf.
  unfold result.
  rewrite (validate_completes L _ Hwf (reachable_settles L0 L _ _ _ Hreach)).
  simpl. f_equal. unfold FormValidator.hasErrors. simpl.
  unfold JsObject.keys. rewrite reported_entries.
  unfold reported. rewrite !length_map, count_failures, negb_involutive.
  reflexivity.
Qed.

Lemma Forall_set_key {V : Type} (holds : string * V -> Prop)
    (o : JsObject.t V) (k : string) (v : V) :
  Forall holds o -> holds (k, v) -> Forall holds (JsObject.set o k v).
Proof.
  intros Ho Hv. induction Ho as [|[k' v'] rest Hh Hrest IH]; simpl.
  - now repeat constructor.
  - destruct (String.eqb_spec k' k) as [-> | _]; constructor; auto.
Qed.

Lemma hasErrors_nonempty (f : FieldValidator.t) :
  FieldValidator.hasErrors f = true -> FieldValidator.getErrors f <> [].
Proof.
  unfold FieldValidator.hasErrors, FieldValidator.getErrors.
  destruct (FieldValidator.errors f); [discriminate | discriminate].
Qed.

Lemma validateFields_entries (L : Library) (names : list string) todo :
  forall valid this,
  (forall e, In e todo -> In (fst e) names) ->
  Forall (fun e => snd e <> [] /\ In (fst e) names)
    (FormValidator.fieldErrors this) ->
  Forall (fun e => snd e <> [] /\ In (fst e) names)
    (FormValidator.fieldErrors
       (snd (FormValidator.validateFields L todo valid this))).
Proof.
  induction todo as [|[k f] todo IH]; intros valid this Hnames Hall; simpl;
    [exact Hall|].
  destruct (FieldValidator.check L (FormValidator.input this) f)
    as [[b|e] f']; simpl; [|exact Hall].
  destruct (FieldValidator.hasErrors f') eqn:H; apply IH; simpl; auto.
  - intros e He. apply Hnames. now right.
  - apply Forall_set_key; [exact Hall|]. split.
    + now apply hasErrors_nonempty.
    + apply (Hnames (k, f)). now left.
  - intros e He. apply Hnames. now right.
Qed.

Lemma getFirstMessage_cases (e : FormValidationError.t) (fieldName : string) :
  FormValidationError.getFirstMessage e fieldName
  = match JsObject.get (FormValidationError.fields e) fieldName with
    | Some records =>
        inr (option_map FieldValidationError.message (List.hd_error records))
    | None =>
        match JsObject.inherited fieldName with
        | Some (JsObject.Function _ (S _)) =>
            inl (PropertyOfUndefined "message")
        | _ => inr None
        end
    end.
Proof.
  unfold FormValidationError.getFirstMessage, JsObject.read.
  destruct (JsObject.get (FormValidationError.fields e) fieldName)
    as [[|first rest]|]; try reflexivity.
  destruct (JsObject.inherited fieldName) as [[property [|k]|]|]; reflexivity.
Qed.

(** X9.  Whatever the validator, after validate the error map holds no
    field with an empty list of records and no name that is not the name of
    a field; so getFirstMessage gives a message for every field the map
    lists.  For a name the map lacks it gives nothing, unless the name is
    that of a function inherited from Object.prototype whose length is not
    0, constructor for one: then it throws a TypeError. *)
Theorem error_map_entries (L : Library) (this : FormValidator.t)
    (message : option string) (fieldName : string) :
  let errs := FormValidator.getErrors (snd (FormValidator.validate L this)) in
  Forall (fun e => snd e <> []
                   /\ In (fst e) (map fst (FormValidator.fields this))) errs
  /\ match JsObject.get errs fieldName with
     | Some records =>
         FormValidationError.getFirstMessage
           (FormValidationError.new errs message) fieldName
         = inr (option_map FieldValidationError.message
                  (List.hd_error records))
         /\ List.hd_error records <> None
     | None =>
         FormValidationError.getFirstMessage
           (FormValidationError.new errs message) fieldName
         = match JsObject.inherited fieldName with
           | Some (JsObject.Function _ (S _)) =>
               inl (PropertyOfUndefined "message")
           | _ => inr None
           end
     end.
Proof.
  intros errs.
  assert (Hall : Forall (fun e => snd e <> []
                     /\ In (fst e) (map fst (FormValidator.fields this)))
                   errs).
  { unfold errs, FormValidator.getErrors, FormValidator.validate.
    apply validateFields_entries; simpl; [|constructor].
    intros e He. apply in_map. exact (proj1 (entries_in _ _) He). }
  split; [exact Hall|].
  rewrite getFirstMessage_cases.
  change (FormValidationError.fields (FormValidationError.new errs message))
    with errs.
  destruct (JsObject.get errs fieldName) as [records|] eqn:E; [|reflexivity].
  apply get_in in E. rewrite Forall_forall in Hall.
  destruct (Hall _ E) as [Hne _]. simpl in Hne.
  destruct records; [contradiction|]. simpl. split; [reflexivity | discriminate].
Qed.

(** X10.  On a validator a program has built, the first message of a
    field, in the error validateAndThrow raises, is the message of the first
    rule of the field that fails, in the order in which the rule methods
    were first called; a field all of whose rules pass has none.  Under a
    name that is no field getFirstMessage gives nothing, unless the name is
    that of a function inherited from Object.prototype whose length is not
    0: then it throws a TypeError. *)
Theorem first_message (L0 L : Library) (input : Input)
    (program : list Statement) (fieldName : string) :
  let this := run L0 input program in
  let errs := FormValidator.getErrors (snd (FormValidator.validate L this)) in
  FormValidationError.getFirstMessage (FormValidationError.new errs None)
    fieldName
  = match JsObject.get (FormValidator.fields this) fieldName with
    | Some f =>
        inr (option_map FieldValidationError.message
               (List.hd_error
                  (ruleFailures L input f (FieldValidator.rules f))))
    | None =>
        match JsObject.inherited fieldName with
        | Some (JsObject.Function _ (S _)) =>
            inl (PropertyOfUndefined "message")
        | _ => inr None
        end
    end.
Proof.
  intros this errs.
  pose proof (run_reachable L0 input program) as Hreach. fold this in Hreach.
  pose proof (run_WF L0 input program) as Hwf. fold this in Hwf.
  pose proof Hreach as (Hin & _).
  rewrite getFirstMessage_cases.
  change (FormValidationError.fields (FormValidationError.new errs None))
    with errs.
  unfold errs.
  rewrite (validate_completes L _ Hwf (reachable_settles L0 L _ _ _ Hreach)).
  unfold FormValidator.getErrors. simpl.
  rewrite reported_get by (apply entries_WF, Hwf).
  rewrite get_entries by exact Hwf. rewrite Hin.
  destruct (JsObject.get (FormValidator.fields this) fieldName) as [f|] eqn:E;
    [|reflexivity].
  assert (Hown : JsObject.inherited fieldName = None).
  { destruct (JsObject.inherited fieldName) as [m|] eqn:Em; [|reflexivity].
    assert (Hinh : JsObject.isInherited fieldName = true)
      by (unfold JsObject.isInherited; now rewrite Em).
    pose proof (run_no_inherited L0 input program fieldName Hinh) as Hnone.
    fold this in Hnone. congruence. }
  apply get_in in E.
  destruct (reachable_check L0 L input program this _ Hreach E) as [_ Hrec].
  simpl in Hrec. rewrite <- Hrec.
  unfold FieldValidator.hasErrors, FieldValidator.getErrors.
  destruct (FieldValidator.errors (checked L input f)); simpl;
    [now rewrite Hown | reflexivity].
Qed.

(** X11.  validate changes nothing of a validator but the records and the
    error map: the input, the fields and their order, and the name, the
    label and the rules of every field are as before. *)
Theorem validate_keeps_rules (L : Library) (this : FormValidator.t) :
  JsObject.WF (FormValidator.fields this) ->
  let after := snd (FormValidator.validate L this) in
  FormValidator.input after = FormValidator.input this
  /\ map bare (FormValidator.fields after)
     = map bare (FormValidator.fields this).
Proof.
  intros Hwf after. split.
  - unfold after, FormValidator.validate. now rewrite validateFields_input.
  - now apply validate_fields.
Qed.

Lemma validate_keeps_rules_witness :
  JsObject.WF (FormValidator.fields Sample.guarded)
  /\ map bare
       (FormValidator.fields
          (snd (FormValidator.validate Sample.library Sample.guarded)))
     = map bare (FormValidator.fields Sample.guarded).
Proof.
  assert (H : JsObject.WF (FormValidator.fields Sample.guarded))
    by (apply distinct_WF; reflexivity).
  split; [exact H|].
  exact (proj2 (validate_keeps_rules Sample.library Sample.guarded H)).
Defined.

Lemma validateFields_no_rules (L : Library) todo : forall this,
  Forall (fun e => FieldValidator.rules (snd e) = []) todo ->
  fst (FormValidator.validateFields L todo true this) = Normal true
  /\ FormValidator.fieldErrors
       (snd (FormValidator.validateFields L todo true this))
     = FormValidator.fieldErrors this.
Proof.
  induction todo as [|[k f] todo IH]; intros this Hall; simpl; [auto|].
  inversion Hall as [|? ? Hf Hrest]; subst. simpl in Hf.
  unfold FieldValidator.check. simpl. rewrite Hf. simpl.
  destruct (IH (FormValidator.setFields this
                  (JsObject.set (FormValidator.fields this) k
                     (FieldValidator.setErrors f []))) Hrest) as [H1 H2].
  now rewrite H1, H2.
Qed.

(** X12.  A validator none of whose fields has a rule, one without fields
    included, validates every input: validate returns true and leaves the
    error map empty. *)
Theorem validate_without_rules (L : Library) (this : FormValidator.t) :
  Forall (fun e => FieldValidator.rules (snd e) = [])
    (FormValidator.fields this) ->
  fst (FormValidator.validate L this) = Normal true
  /\ FormValidator.getErrors (snd (FormValidator.validate L this)) = []
  /\ FormValidator.hasErrors (snd (FormValidator.validate L this)) = false.
Proof.
  intros Hall. unfold FormValidator.validate. cbv zeta.
  set (cleared := FormValidator.setFieldErrors this JsObject.empty).
  assert (Hent : Forall (fun e => FieldValidator.rules (snd e) = [])
                   (JsObject.entries (FormValidator.fields cleared))).
  { rewrite Forall_forall in *. intros e He. apply Hall.
    exact (proj1 (entries_in _ _) He). }
  destruct (validateFields_no_rules L _ cleared Hent) as [H1 H2].
  unfold FormValidator.hasErrors, FormValidator.getErrors.
  rewrite H1, H2. auto.
Qed.

Lemma validate_without_rules_witness :
  let this := run Sample.library [("a", VString "x")] [OnField "a" None []] in
  Forall (fun e => FieldValidator.rules (snd e) = [])
    (FormValidator.fields this)
  /\ fst (FormValidator.validate Sample.library this) = Normal true.
Proof.
  intros this.
  assert (H : Forall (fun e => FieldValidator.rules (snd e) = [])
                (FormValidator.fields this)) by (repeat constructor).
  split; [exact H|].
  exact (proj1 (validate_without_rules Sample.library this H)).
Defined.

(** * The request input *)

Section RequestInput.
Import Http.



Lemma existsb_keys {V : Type} (o : JsObject.t V) (k : string) :
  existsb (String.eqb k) (JsObject.keys o)
  = match JsObject.get o k with Some _ => true | None => false end.
Proof.
  destruct (JsObject.get o k) as [v|] eqn:E.
  - apply existsb_exists. exists k. split; [|apply String.eqb_refl].
    unfold JsObject.keys. apply (in_map fst _ (k, v)).
    apply entries_in. now apply get_in.
  - apply not_true_is_false. intros H.
    apply existsb_exists in H. destruct H as (k' & Hin & Heq).
    apply String.eqb_eq in Heq. subst k'.
    apply get_none_not_in in E. apply E.
    unfold JsObject.keys in Hin. apply in_map_iff in Hin.
    destruct Hin as (e & <- & He). apply in_map. now apply entries_in.
Qed.







End RequestInput.

(** * The files of a request *)

Section Uploads.
Import Http.

Lemma collect_lookup (files : JsObject.t (Input.Entry Formidable.t))
    (names : list string) :
  forall state k,
  JsObject.get (fst (fold_left (collectStep files) names state)) k
  = if existsb (String.eqb k) names
    then match JsObject.get files k with
         | Some e => Some (storedEntry e)
         | None => JsObject.get (fst state) k
         end
    else JsObject.get (fst state) k.
Proof.
  induction names as [|key rest IH]; intros [stored total] k;
    [reflexivity|].
  cbn [fold_left existsb]. rewrite IH.
  destruct (String.eqb_spec k key) as [-> | Hne]; cbn [orb].
  - unfold collectStep.
    destruct (JsObject.get files key) as [[f|fs]|] eqn:E; simpl;
      rewrite ?get_set_same; destruct (existsb _ rest); reflexivity.
  - assert (Hsame : JsObject.get
                      (fst (collectStep files (stored, total) key)) k
                    = JsObject.get stored k).
    { unfold collectStep.
      destruct (JsObject.get files key) as [[f|fs]|]; simpl;
        try reflexivity; apply get_set_other; congruence. }
    rewrite Hsame. reflexivity.
Qed.

Lemma collect_total (files : JsObject.t (Input.Entry Formidable.t))
    (names : list string) :
  forall state,
  snd (fold_left (collectStep files) names state)
  = (snd state
     + fold_right Z.add 0
         (map (fun key => match JsObject.get files key with
                          | Some e => countedSize e
                          | None => 0
                          end) names))%Z.
Proof.
  induction names as [|key rest IH]; intros [stored total]; simpl; [lia|].
  rewrite IH. unfold collectStep.
  destruct (JsObject.get files key) as [[f|fs]|]; simpl; lia.
Qed.

Lemma total_perm (a b : JsObject.t (Input.Entry Formidable.t)) :
  Permutation a b -> countedTotal a = countedTotal b.
Proof.
  unfold countedTotal. induction 1; simpl; lia.
Qed.

(** X16.  The file input the body parser builds has an entry for every
    entry of the parsed form and no other: the uploaded file for one file,
    and for an array of files an empty array, whatever the array holds; so
    of a field sent with several files file gives nothing, hasFile is false
    and files gives no file.  Under a key the form lacks they give nothing
    either, unless the key is a name inherited from Object.prototype: then
    file gives the inherited member and hasFile is true. *)
Theorem array_uploads_dropped
    (files : JsObject.t (Input.Entry Formidable.t)) (key : string) :
  let stored := fst (collectFiles files) in
  JsObject.get stored key = option_map storedEntry (JsObject.get files key)
  /\ match JsObject.get files key with
     | Some (Input.Single f) =>
         Input.file stored key = Some (Input.AFile (UploadedFile.new f))
         /\ Input.files stored key = Some [Input.AFile (UploadedFile.new f)]
     | Some (Input.Multiple _) =>
         Input.file stored key = None
         /\ Input.hasFile stored key = false
         /\ Input.files stored key = Some []
     | None =>
         match JsObject.inherited key with
         | Some m =>
             Input.file stored key = Some (Input.AMember m)
             /\ Input.hasFile stored key = true
             /\ Input.files stored key = Some [Input.AMember m]
         | None =>
             Input.hasFile stored key = false
             /\ Input.files stored key = None
         end
     end.
Proof.
  intros stored.
  assert (E : JsObject.get stored key
              = option_map storedEntry (JsObject.get files key)).
  { unfold stored, collectFiles. rewrite collect_lookup, existsb_keys.
    destruct (JsObject.get files key); reflexivity. }
  split; [exact E|].
  unfold Input.hasFile, Input.file, Input.files, JsObject.read. rewrite E.
  destruct (JsObject.get files key) as [[f|fs]|]; simpl; auto.
  destruct (JsObject.inherited key); auto.
Qed.

(** X17.  The total the body parser holds against the upload limit is the
    sum of the sizes of the fields sent with one file: the files of an
    array count for nothing.  The request is refused exactly when this sum
    is over the limit. *)
Theorem upload_limit (uploadMaxSize : Z)
    (files : JsObject.t (Input.Entry Formidable.t)) :
  JsObject.WF files ->
  snd (collectFiles files) = countedTotal files
  /\ acceptFiles uploadMaxSize files
     = if (uploadMaxSize <? countedTotal files)%Z
       then inl "Reached upload max size"
       else inr (fst (collectFiles files)).
Proof.
  intros Hwf.
  assert (E : snd (collectFiles files) = countedTotal files).
  { unfold collectFiles. rewrite collect_total. simpl.
    rewrite <- (total_perm _ _ (entries_perm files)).
    unfold countedTotal, JsObject.keys. rewrite map_map.
    f_equal. apply map_ext_in. intros [k e] Hin. simpl.
    rewrite (in_get files k e Hwf); [reflexivity|].
    now apply entries_in. }
  split; [exact E|].
  unfold acceptFiles. destruct (collectFiles files) as [stored total].
  simpl in E. now rewrite E.
Qed.

Lemma upload_limit_witness :
  JsObject.WF SampleHttp.form
  /\ acceptFiles 10 SampleHttp.form
     = inr (fst (collectFiles SampleHttp.form)).
Proof.
  assert (H : JsObject.WF SampleHttp.form) by (apply distinct_WF; reflexivity).
  split; [exact H|].
  exact (proj2 (upload_limit 10 SampleHttp.form H)).
Defined.

End Uploads.

(** * The life of an uploaded file *)

Section UploadedFileLife.
Import Http.
Import UploadedFile.
Variable P : PathLib.

Lemma step_lifeInv (temp : string) (w : World) (ev : Event) :
  lifeInv temp w -> lifeInv temp (step P w ev).
Proof.
  intros Hinv. pose proof Hinv as (Hflight & Hpath & Hcalls).
  destruct ev as [destination fileName | err |]; unfold step.
  - unfold move, isMovedOrInProcess.
    destruct (moved (file w)) eqn:Hm; simpl; [exact Hinv|].
    destruct (processing (file w)) eqn:Hp; simpl; [exact Hinv|].
    destruct Hflight as [[Hpend _] | (to & _ & Hp' & _)]; [|congruence].
    repeat split; simpl.
    + right. rewrite Hpend. eexists. repeat split. exact Hm.
    + intros _. now apply Hpath.
    + apply Forall_app. split; [exact Hcalls|].
      constructor; [|constructor]. simpl. now apply Hpath.
  - destruct (pending w) as [|to rest] eqn:Hpend; [exact Hinv|].
    destruct Hflight as [[Hnil _] | (to' & Hone & Hp & Hm)]; [discriminate|].
    injection Hone as <- ->.
    repeat split; simpl.
    + left. split; [reflexivity|]. now destruct err.
    + destruct err; simpl; [intros _; now apply Hpath | discriminate].
    + exact Hcalls.
  - unfold deleteTempFile, isMovedOrInProcess.
    destruct (moved (file w)) eqn:Hm; simpl; [exact Hinv|].
    destruct (processing (file w)) eqn:Hp; simpl; [exact Hinv|].
    split; [exact (proj1 Hinv)|]. split; [exact (proj1 (proj2 Hinv))|]. simpl.
    apply Forall_app. split; [exact Hcalls|].
    constructor; [|constructor]. simpl. now apply Hpath.
Qed.

Lemma after_lifeInv (temp : string) (events : list Event) :
  forall w, lifeInv temp w -> lifeInv temp (after P w events).
Proof.
  induction events as [|ev events IH]; intros w Hw; [exact Hw|].
  apply IH. now apply step_lifeInv.
Qed.

Lemma start_lifeInv (uploaded : Formidable.t) :
  lifeInv (Formidable.path uploaded) (start uploaded).
Proof.
  repeat split; simpl; [left; now split | constructor].
Qed.


(** X18.  Whatever is called of an uploaded file and whenever the
    callbacks of fs.rename run, at most one rename is in flight, the file is
    in process exactly while one is, a file that has moved is not in
    process, and fs is only ever called on the path the file was uploaded
    to. *)
Theorem upload_life (uploaded : Formidable.t) (events : list Event) :
  let w := after P (start uploaded) events in
  (List.length (pending w) <= 1)%nat
  /\ processing (file w)
     = match pending w with [] => false | _ :: _ => true end
  /\ moved (file w) && processing (file w) = false
  /\ Forall (onPath (Formidable.path uploaded)) (issued w).
Proof.
  intros w.
  destruct (after_lifeInv _ events _ (start_lifeInv uploaded))
    as (Hflight & _ & Hcalls).
  fold w in Hflight, Hcalls.
  destruct Hflight as [[Hpend Hp] | (to & Hpend & Hp & Hm)];
    rewrite Hpend, Hp; simpl; repeat split; auto.
  - apply andb_false_r.
  - now rewrite Hm.
Qed.


(** X20.  Of a file that is neither moved nor in process, move calls
    fs.rename from the path of the file to the destination joined with the
    given name, or with the name of the file when none or the empty one is
    given, and leaves the file in process.  When the rename fails the file
    is as it was before the call, and the promise is rejected with the
    error; when it succeeds the file is moved, out of process, and has the
    base name and the resolved path of the destination. *)
Theorem move_and_callback (this : t) (destination : string)
    (fileName : option string) (e : Value) :
  isMovedOrInProcess this = false ->
  let target := join P destination (orElse fileName (name this)) in
  let busy := setProcessing this true in
  move P this destination fileName = inr (busy, (path this, target))
  /\ isMovedOrInProcess busy = true
  /\ renamed P busy target (Some e) = (Rejected e, this)
  /\ fst (renamed P busy target None) = Fulfilled true
  /\ (let done := snd (renamed P busy target None) in
      moved done = true /\ processing done = false
      /\ name done = basename P target /\ path done = resolve P target
      /\ size done = size this /\ type done = type this).
Proof.
  intros Hfree target busy.
  unfold isMovedOrInProcess in Hfree. apply orb_false_elim in Hfree.
  destruct Hfree as [Hm Hp].
  repeat split.
  - unfold move, isMovedOrInProcess. now rewrite Hm, Hp.
  - unfold busy, isMovedOrInProcess. simpl. apply orb_true_r.
  - unfold renamed, busy, setProcessing. simpl. f_equal.
    destruct this; simpl in *. now subst.
Qed.

End UploadedFileLife.


Lemma move_and_callback_witness :
  let this := Http.UploadedFile.new SampleHttp.upload in
  Http.UploadedFile.isMovedOrInProcess this = false
  /\ Http.UploadedFile.move SampleHttp.paths this "uploads" (Some "b.png")
     = inr (Http.UploadedFile.setProcessing this true,
            ("/tmp/upload_1", "uploads/b.png")).
Proof.
  intros this. split; [reflexivity|].
  exact (proj1 (move_and_callback SampleHttp.paths this "uploads"
                  (Some "b.png") VNull eq_refl)).
Defined.

(** * Errors of requests *)

Section HttpErrors.
Import Http.

Lemma orElse_nonempty (given : option string) (fallback : string) :
  fallback <> EmptyString -> orElse given fallback <> EmptyString.
Proof.
  intros Hf. unfold orElse. destruct given as [m|]; [|exact Hf].
  destruct (String.eqb_spec m EmptyString); assumption.
Qed.

(** X21.  new HttpError returns an error exactly when the status code is
    400 or more (400 itself included) and the table of statuses has a text
    for it that is not empty; the error then has this code, and as message
    the one given, or the text of the status when none or the empty one is
    given, so that its message is never empty.  Otherwise the constructor
    throws, for a code under 400 whatever the table says. *)
Theorem HttpError_new_exactly (STATUSES : Z -> option string)
    (statusCode : Z) (message : option string) :
  match HttpError.new STATUSES statusCode message with
  | inr e =>
      (400 <= statusCode)%Z
      /\ HttpError.statusCode e = statusCode
      /\ (exists text,
            STATUSES statusCode = Some text /\ text <> EmptyString
            /\ HttpError.message e = orElse message text)
      /\ HttpError.message e <> EmptyString
  | inl thrown =>
      if (statusCode <? 400)%Z
      then thrown = "HttpError only accepts status codes greater than 400"
      else thrown = "HttpError invalid status code"
           /\ HttpError.truthyText (STATUSES statusCode) = false
  end.
Proof.
  unfold HttpError.new.
  destruct (Z.ltb_spec statusCode 400) as [Hlt | Hge]; [reflexivity|].
  destruct (STATUSES statusCode) as [text|] eqn:E; simpl; [|now split].
  destruct (String.eqb_spec text EmptyString) as [-> | Hne]; simpl;
    [now split|].
  repeat split; [exact Hge | | now apply orElse_nonempty].
  exists text. now repeat split.
Qed.

Lemma HttpError_status_bound (STATUSES : Z -> option string)
    (statusCode : Z) (message : option string) :
  match HttpError.new STATUSES statusCode message with
  | inr e => (400 <= HttpError.statusCode e)%Z
  | inl _ => True
  end.
Proof.
  unfold HttpError.new.
  destruct (Z.ltb_spec statusCode 400) as [Hlt | Hge]; [exact I|].
  destruct (negb (HttpError.truthyText (STATUSES statusCode)));
    [exact I | exact Hge].
Qed.

(** X22.  The error handler answers an error of form validation with 400,
    an HttpError with the status code of the error, and anything else with
    500; an HttpError being one its constructor has made, the status is
    never under 400.  The details carry the name and the message of the
    error, fields for an error of form validation only, a stack unless the
    environment of the application is production, and are the same
    whatever the request accepts; a request that accepts json is answered
    in json even if it accepts html. *)
Theorem handler_status (STATUSES : Z -> option string) (env : option string)
    (acceptsJson acceptsHtml : bool) (err : Failure) (errStack : string) :
  madeBy STATUSES err ->
  let r := handleError env acceptsJson acceptsHtml err errStack in
  fst r = match err with
          | OfValidation _ => 400%Z
          | OfHttp e => HttpError.statusCode e
          | OfOther _ _ => 500%Z
          end
  /\ (400 <= fst r)%Z
  /\ Http.name (detailsOf (snd r)) = failureName err
  /\ Http.message (detailsOf (snd r)) = failureMessage err
  /\ match Http.fields (detailsOf (snd r)) with
     | Some fs =>
         fst r = 400%Z
         /\ exists e, err = OfValidation e /\ fs = FormValidationError.fields e
     | None => forall e, err <> OfValidation e
     end
  /\ match Http.stack (detailsOf (snd r)) with
     | Some s => s = errStack /\ env <> Some "production"
     | None => env = Some "production"
     end
  /\ detailsOf (snd r)
     = detailsOf (snd (handleError env false false err errStack))
  /\ (if acceptsJson then snd r = Json (detailsOf (snd r))
      else if acceptsHtml
           then snd r = Render ("errors/" ++ numberToString (fst r))
                          (detailsOf (snd r))
           else snd r = Send (detailsOf (snd r))).
Proof.
  intros Hmade r.
  assert (Hd : detailsOf (snd r)
               = detailsOf (snd (handleError env false false err errStack))).
  { unfold r, handleError. simpl.
    destruct acceptsJson, acceptsHtml; reflexivity. }
  split; [reflexivity|].
  split; [|split; [|split; [|split; [|split; [|split]]]]].
  - unfold r, handleError. simpl. destruct err as [e|e|n m]; simpl; try lia.
    destruct Hmade as [message Hnew].
    pose proof (HttpError_status_bound STATUSES (HttpError.statusCode e)
                  message) as Hb.
    rewrite Hnew in Hb. exact Hb.
  - rewrite Hd. reflexivity.
  - rewrite Hd. reflexivity.
  - rewrite Hd. unfold r, handleError. simpl.
    destruct err as [e|e|n m]; simpl; try (intros e'; discriminate).
    split; [reflexivity|]. now exists e.
  - rewrite Hd. unfold handleError. simpl.
    destruct env as [text|]; [|split; [reflexivity | discriminate]].
    destruct (String.eqb_spec text "production") as [-> | Hne];
      [reflexivity|].
    split; [reflexivity | congruence].
  - exact Hd.
  - unfold r, handleError. simpl.
    destruct acceptsJson, acceptsHtml; reflexivity.
Qed.

Lemma handler_status_witness :
  let e := {| HttpError.statusCode := 404; HttpError.message := "Not Found" |}
  in
  madeBy SampleHttp.statuses (OfHttp e)
  /\ fst (handleError (Some "production") false true (OfHttp e) "at line 1")
     = 404%Z.
Proof.
  intros e.
  assert (H : madeBy SampleHttp.statuses (OfHttp e))
    by (exists None; reflexivity).
  split; [exact H|].
  exact (proj1 (handler_status SampleHttp.statuses (Some "production")
                  false true (OfHttp e) "at line 1" H)).
Defined.

End HttpErrors.

(** * The environment *)

Section EnvironmentFacts.
Import Environment.

(** X23.  When the variable is set, env ignores the default: the texts
    null, true and false are given as the values they spell, and any other
    text as it is.  When it is not set, env gives the default (undefined
    when there is none), unless the key is a name inherited from
    Object.prototype, constructor for one: then it gives the inherited
    member, whatever the default. *)
Theorem env_exactly (processEnv : JsObject.t string) (key : string)
    (defaultVal : Value) :
  env processEnv key defaultVal
  = match JsObject.get processEnv key with
    | Some text =>
        if String.eqb text "null" then AValue VNull
        else if String.eqb text "true" then AValue (VBool true)
        else if String.eqb text "false" then AValue (VBool false)
        else AValue (VString text)
    | None =>
        match JsObject.inherited key with
        | Some m => AMember m
        | None => AValue defaultVal
        end
    end.
Proof.
  unfold env, JsObject.read.
  destruct (JsObject.get processEnv key) as [text|]; simpl.
  - unfold evalLiteral.
    destruct (String.eqb text "null"); [reflexivity|].
    destruct (String.eqb text "true"); [reflexivity|].
    destruct (String.eqb text "false"); reflexivity.
  - destruct (JsObject.inherited key); [reflexivity|].
    destruct defaultVal; reflexivity.
Qed.

Lemma codeIsNot_true (code : option string) (c : string) :
  codeIsNot code c = true <-> code <> Some c.
Proof.
  unfold codeIsNot. destruct code as [k|]; [|split; [discriminate | reflexivity]].
  destruct (String.eqb_spec k c) as [-> | Hne]; simpl; split;
    try congruence; reflexivity.
Qed.

Lemma codeIsNot_false (code : option string) (c : string) :
  codeIsNot code c = false <-> code = Some c.
Proof.
  unfold codeIsNot. destruct code as [k|]; [|split; discriminate].
  destruct (String.eqb_spec k c) as [-> | Hne]; simpl; split;
    try congruence; reflexivity.
Qed.

(** X24.  The set-up always makes the directory of modules and then
    removes the old link, and no error of the first call is ever thrown.
    It throws the error of the removal when its code is not ENOENT, and
    then makes no link; otherwise it makes the link, and throws the error
    of that call unless its code is ENOENT or EEXIST. *)
Theorem setup_errors (trimEnd : string -> string) (fs : Fs)
    (directory : string) :
  let modules := (trimEnd directory ++ "/node_modules")%string in
  let app := (trimEnd directory ++ "/node_modules/app")%string in
  let r := setupEnvironmentAndNamespace trimEnd fs directory in
  firstn 2 (snd r) = [Mkdir modules; UnlinkPath app]
  /\ match fst r with
     | Some code =>
         code <> Some "ENOENT"
         /\ ((unlinkSync fs app = Fails code
              /\ snd r = [Mkdir modules; UnlinkPath app])
             \/ (symlinkSync fs "../dist" app = Fails code
                 /\ code <> Some "EEXIST"
                 /\ snd r = [Mkdir modules; UnlinkPath app;
                             Symlink "../dist" app]))
     | None =>
         snd r = [Mkdir modules; UnlinkPath app; Symlink "../dist" app]
         /\ match unlinkSync fs app with
            | Fails code => code = Some "ENOENT"
            | Succeeds => True
            end
         /\ match symlinkSync fs "../dist" app with
            | Fails code => code = Some "ENOENT" \/ code = Some "EEXIST"
            | Succeeds => True
            end
     end.
Proof.
  intros modules app r. unfold r, setupEnvironmentAndNamespace.
  fold modules. fold app.
  assert (Hmk : rethrown (mkdirSync fs modules) (fun _ => false) = None)
    by (now destruct (mkdirSync fs modules)).
  rewrite Hmk. unfold rethrown.
  destruct (unlinkSync fs app) as [|ucode] eqn:Hu.
  - destruct (symlinkSync fs "../dist" app) as [|scode] eqn:Hs; simpl;
      [now repeat split|].
    destruct (codeIsNot scode "ENOENT") eqn:E1; simpl.
    + destruct (codeIsNot scode "EEXIST") eqn:E2; simpl.
      * apply codeIsNot_true in E1, E2.
        split; [reflexivity|]. split; [exact E1|]. right. now repeat split.
      * apply codeIsNot_false in E2. repeat split; auto.
    + apply codeIsNot_false in E1. repeat split; auto.
  - destruct (codeIsNot ucode "ENOENT") eqn:E0; simpl.
    + apply codeIsNot_true in E0.
      split; [reflexivity|]. split; [exact E0|]. left. now split.
    + apply codeIsNot_false in E0.
      destruct (symlinkSync fs "../dist" app) as [|scode] eqn:Hs; simpl;
        [now repeat split|].
      destruct (codeIsNot scode "ENOENT") eqn:E1; simpl.
      * destruct (codeIsNot scode "EEXIST") eqn:E2; simpl.
        -- apply codeIsNot_true in E1, E2.
           split; [reflexivity|]. split; [exact E1|]. right. now repeat split.
        -- apply codeIsNot_false in E2. repeat split; auto.
      * apply codeIsNot_false in E1. repeat split; auto.
Qed.

End EnvironmentFacts.
